(** * Yarn task provider of vscode-taskexplorer: target extraction, task
      materialisation and the task cache

    Shallow embedding of [src/taskProviderYarn.ts] and of the helpers of
    [src/util.ts] it calls.  JavaScript values, objects and arrays are
    modelled as data; the module-level variable [cachedTasks], the allocation
    of task objects and the calls made to the host (file system, workspace)
    are threaded through a small state-and-rejection monad.  A call runs to
    its settlement before the next one starts.  The calls of [util.log], which
    only write to the output channel, are left out.

    The later parts embed the exclusion patterns and [isDescendant] of
    [src/util.ts], the running tasks of the status bar of [src/extension.ts],
    and [findScript] and [buildTaskTree] of [src/taskView.ts]. *)

From Stdlib Require Import String Ascii ZArith List Lia Permutation DecimalString.
From stdpp Require Import base decidable option list strings gmap.
Import ListNotations.

Set Warnings "-register-all".

Open Scope string_scope.
Open Scope list_scope.

(** ** JavaScript values and plain objects *)

(** The values [jsonc-parser] hands to [onLiteralValue]: JSON primitives. *)
Inductive JSValue : Type :=
  | VString (s : string)
  | VNumber (n : Z)
  | VBool (b : bool)
  | VNull.

#[global] Instance JSValue_eq_dec : EqDecision JSValue.
Proof. solve_decision. Defined.

(** [typeof value === 'string'] *)
Definition typeof_is_string (v : JSValue) : bool :=
  match v with VString _ => true | _ => false end.

(** A plain object created by the literal [{}]: its own enumerable string
    properties in creation order, and whether its prototype is still
    [Object.prototype] (the only inherited accessor is [__proto__]). *)
Record JSObject : Type := mkObject {
  has_Object_prototype : bool;
  own : list (string * JSValue)
}.

Definition empty_object : JSObject :=
  {| has_Object_prototype := true; own := [] |}.

(** Writing an own data property: an existing key keeps its position. *)
Fixpoint own_set (k : string) (v : JSValue) (props : list (string * JSValue))
  : list (string * JSValue) :=
  match props with
  | [] => [(k, v)]
  | (k', v') :: rest =>
      if String.eqb k k' then (k, v) :: rest else (k', v') :: own_set k v rest
  end.

Fixpoint own_get (k : string) (props : list (string * JSValue)) : option JSValue :=
  match props with
  | [] => None
  | (k', v') :: rest => if String.eqb k k' then Some v' else own_get k rest
  end.

(** The assignment [obj[k] = v].  While the object inherits from
    [Object.prototype] the key [__proto__] reaches the inherited setter, which
    replaces the prototype when [v] is [null] and ignores every other
    primitive; any other key creates or updates an own property. *)
Definition js_set (o : JSObject) (k : string) (v : JSValue) : JSObject :=
  if String.eqb k "__proto__" && has_Object_prototype o then
    match v with
    | VNull => {| has_Object_prototype := false; own := own o |}
    | _ => o
    end
  else {| has_Object_prototype := has_Object_prototype o; own := own_set k v (own o) |}.

(** Own-property read, [Object.prototype.hasOwnProperty] followed by [obj[k]]. *)
Definition js_get_own (o : JSObject) (k : string) : option JSValue :=
  own_get k (own o).

(** A property key that is a canonical array index ("0", "7", "42", ... below
    2^32 - 1) and its numeric value. *)
Definition digit_value (c : ascii) : option N :=
  let n := N_of_ascii c in
  if (48 <=? n)%N && (n <=? 57)%N then Some (n - 48)%N else None.

Fixpoint digits_value (acc : N) (cs : list ascii) : option N :=
  match cs with
  | [] => Some acc
  | c :: rest =>
      match digit_value c with
      | Some d => digits_value (10 * acc + d)%N rest
      | None => None
      end
  end.

Definition array_index (k : string) : option N :=
  match list_ascii_of_string k with
  | [] => None
  | c :: rest =>
      if Ascii.eqb c "0" && negb (match rest with [] => true | _ => false end) then None
      else match digits_value 0 (c :: rest) with
           | Some n => if (n <? 4294967295)%N then Some n else None
           | None => None
           end
  end.

Fixpoint insert_by_index (x : N * string) (l : list (N * string)) : list (N * string) :=
  match l with
  | [] => [x]
  | y :: rest => if (fst x <=? fst y)%N then x :: y :: rest else y :: insert_by_index x rest
  end.

Definition sort_by_index (l : list (N * string)) : list (N * string) :=
  fold_right insert_by_index [] l.

Definition index_keys (ks : list string) : list (N * string) :=
  flat_map (fun k => match array_index k with Some n => [(n, k)] | None => [] end) ks.

Definition string_keys (ks : list string) : list string :=
  List.filter (fun k => match array_index k with Some _ => false | None => true end) ks.

(** [Object.keys(obj)]: array-index keys in ascending numeric order, then the
    other keys in creation order. *)
Definition Object_keys (o : JSObject) : list string :=
  let ks := map fst (own o) in
  map snd (sort_by_index (index_keys ks)) ++ string_keys ks.

(** ** The visitor of [findTargets] *)

(** Callbacks [visit] makes for which the visitor of [findTargets] defines no
    handler; [visit] substitutes a function that does nothing. *)
Inductive Unhandled : Type :=
  | onObjectBegin
  | onArrayBegin
  | onArrayEnd
  | onSeparator
  | onComment.

(** The callbacks [visit(documentText, visitor)] makes, in order, with the
    arguments the handlers of [findTargets] declare. *)
Inductive Event : Type :=
  | onError
  | onObjectEnd
  | onLiteralValue (value : JSValue) (offset length : Z)
  | onObjectProperty (property : string) (offset length : Z)
  | unhandled (callback : Unhandled).

#[global] Instance Unhandled_eq_dec : EqDecision Unhandled.
Proof. solve_decision. Defined.

#[global] Instance Event_eq_dec : EqDecision Event.
Proof. solve_decision. Defined.

(** The local variables of [findTargets] the handlers close over. *)
Record Visitor : Type := mkVisitor {
  scriptOffset : Z;
  inScripts : bool;
  inTasks : bool;
  inTaskLabel : option string;
  scripts : JSObject;
  script : option string
}.

(** [let scriptOffset = 0; let inScripts = false; let inTasks = false;
     let inTaskLabel = undefined; let scripts = {}; let script;] *)
Definition initial_visitor : Visitor :=
  {| scriptOffset := 0; inScripts := false; inTasks := false;
     inTaskLabel := None; scripts := empty_object; script := None |}.

(** Truthiness of a variable holding [undefined] or a string. *)
Definition truthy (x : option string) : bool :=
  match x with
  | None => false
  | Some s => negb (String.eqb s "")
  end.

(** The property key [scripts[script]] uses: [undefined] converts to the
    string "undefined". *)
Definition property_key (x : option string) : string :=
  match x with
  | None => "undefined"
  | Some s => s
  end.

Definition set_scriptOffset (n : Z) (s : Visitor) : Visitor :=
  {| scriptOffset := n; inScripts := inScripts s; inTasks := inTasks s;
     inTaskLabel := inTaskLabel s; scripts := scripts s; script := script s |}.

Definition set_inScripts (b : bool) (s : Visitor) : Visitor :=
  {| scriptOffset := scriptOffset s; inScripts := b; inTasks := inTasks s;
     inTaskLabel := inTaskLabel s; scripts := scripts s; script := script s |}.

Definition set_inTasks (b : bool) (s : Visitor) : Visitor :=
  {| scriptOffset := scriptOffset s; inScripts := inScripts s; inTasks := b;
     inTaskLabel := inTaskLabel s; scripts := scripts s; script := script s |}.

Definition set_inTaskLabel (l : option string) (s : Visitor) : Visitor :=
  {| scriptOffset := scriptOffset s; inScripts := inScripts s; inTasks := inTasks s;
     inTaskLabel := l; scripts := scripts s; script := script s |}.

Definition set_script (k : option string) (s : Visitor) : Visitor :=
  {| scriptOffset := scriptOffset s; inScripts := inScripts s; inTasks := inTasks s;
     inTaskLabel := inTaskLabel s; scripts := scripts s; script := k |}.

(** [scripts[script] = value] *)
Definition bind_script (value : JSValue) (s : Visitor) : Visitor :=
  {| scriptOffset := scriptOffset s; inScripts := inScripts s; inTasks := inTasks s;
     inTaskLabel := inTaskLabel s;
     scripts := js_set (scripts s) (property_key (script s)) value;
     script := script s |}.

(** [onError() { return scriptOffset; }]: the returned number is dropped by
    [visit]; no variable changes. *)
Definition visitor_onError (s : Visitor) : Visitor := s.

Definition visitor_onObjectEnd (s : Visitor) : Visitor :=
  if inScripts s then set_inScripts false s else s.

Definition visitor_onLiteralValue (value : JSValue) (offset length : Z) (s : Visitor)
  : Visitor :=
  if inScripts s then bind_script value s
  else if truthy (inTaskLabel s) then
    let s1 :=
      if typeof_is_string value then
        if bool_decide (inTaskLabel s = Some "label") then bind_script value s else s
      else s in
    set_inTaskLabel None s1
  else s.

Definition visitor_onObjectProperty (property : string) (offset length : Z) (s : Visitor)
  : Visitor :=
  if String.eqb property "scripts" then set_inScripts true s
  else if inScripts s then set_script (Some property) s
  else if String.eqb property "tasks" then
    let s1 := set_inTasks true s in
    if negb (truthy (inTaskLabel s1)) then set_scriptOffset offset s1 else s1
  else if String.eqb property "label" && inTasks s && negb (truthy (inTaskLabel s)) then
    let s1 := set_inTaskLabel (Some "label") s in
    if negb (truthy (inTaskLabel s1)) then set_scriptOffset offset s1 else s1
  else set_inTaskLabel None s.

(** One callback of [visit] on the visitor. *)
Definition handle (s : Visitor) (e : Event) : Visitor :=
  match e with
  | onError => visitor_onError s
  | onObjectEnd => visitor_onObjectEnd s
  | onLiteralValue value offset length => visitor_onLiteralValue value offset length s
  | onObjectProperty property offset length => visitor_onObjectProperty property offset length s
  | unhandled _ => s
  end.

(** [visit(documentText, visitor)], the document given by the callbacks its
    scan makes. *)
Definition visit (documentText : list Event) (s : Visitor) : Visitor :=
  fold_left handle documentText s.

(** The object [findTargets] returns once the document text is read. *)
Definition extract (documentText : list Event) : JSObject :=
  scripts (visit documentText initial_visitor).

(** ** Well-formed documents and the callbacks their scan makes *)

(** A JSON document as the scan sees it; literals and property names carry
    the offset and length the scan reports for them. *)
Inductive JSON : Type :=
  | JLiteral (value : JSValue) (offset length : Z)
  | JObject (members : list (string * (Z * Z) * JSON))
  | JArray (items : list JSON).

Section ScanChildren.
Variable scan : JSON -> list Event.

(** The members of an object: a [,] separator before every member but the
    first, then the property name, the [:] separator and the value. *)
Fixpoint scan_members (first : bool) (ms : list (string * (Z * Z) * JSON)) : list Event :=
  match ms with
  | [] => []
  | (k, sp, v) :: rest =>
      (if first then [] else [unhandled onSeparator])
      ++ onObjectProperty k (fst sp) (snd sp) :: unhandled onSeparator :: scan v
      ++ scan_members false rest
  end.

Fixpoint scan_items (first : bool) (items : list JSON) : list Event :=
  match items with
  | [] => []
  | v :: rest =>
      (if first then [] else [unhandled onSeparator]) ++ scan v ++ scan_items false rest
  end.
End ScanChildren.

(** Modelled from the spec: the Token Scanner ([visit] of the [jsonc-parser]
    package, which is not under src/) reports, for well-formed text, the
    structural events of the document in document order: object start,
    property name, the value's events, object end; array start and end;
    literal value. *)
Fixpoint json_events (j : JSON) : list Event :=
  match j with
  | JLiteral value offset length => [onLiteralValue value offset length]
  | JObject members =>
      unhandled onObjectBegin :: scan_members json_events true members ++ [onObjectEnd]
  | JArray items =>
      unhandled onArrayBegin :: scan_items json_events true items ++ [unhandled onArrayEnd]
  end.


(** The property names a scan reports, at every nesting depth. *)
Definition reported_properties (evs : list Event) : list string :=
  flat_map (fun e => match e with onObjectProperty p _ _ => [p] | _ => [] end) evs.

(** ** Tasks *)

(** [vscode.Uri]: the two components the provider reads. *)
Record Uri : Type := mkUri {
  uri_path : string;
  fsPath : string
}.

(** [vscode.WorkspaceFolder] *)
Record WorkspaceFolder : Type := mkFolder {
  folder_uri : Uri;
  folder_name : string;
  folder_index : nat
}.

(** [interface YarnTaskDefinition extends TaskDefinition], with the fields
    the object literal of [createYarnTask] fills; [treeItem] is never set by
    the provider. *)
Record YarnTaskDefinition : Type := mkDefinition {
  type : string;
  def_script : string;
  path : string;
  fileName : string;
  uri : Uri
}.

(** [new ShellExecution(command, args, options)] *)
Record ShellExecution : Type := mkShellExecution {
  command : string;
  args : list string;
  cwd : string
}.

(** [vscode.TaskGroup] *)
Inductive TaskGroup : Type := Clean | Build | Rebuild | Test.

(** [vscode.Task].  [task_id] is the identity of the object: every [new Task]
    takes a fresh one, so two task values are equal exactly when they are the
    same object. *)
Record Task : Type := mkTask {
  task_id : nat;
  definition : YarnTaskDefinition;
  scope : WorkspaceFolder;
  name : string;
  source : string;
  execution : ShellExecution;
  group : option TaskGroup
}.

#[global] Instance Uri_eq_dec : EqDecision Uri.
Proof. solve_decision. Defined.
#[global] Instance WorkspaceFolder_eq_dec : EqDecision WorkspaceFolder.
Proof. solve_decision. Defined.
#[global] Instance YarnTaskDefinition_eq_dec : EqDecision YarnTaskDefinition.
Proof. solve_decision. Defined.
#[global] Instance ShellExecution_eq_dec : EqDecision ShellExecution.
Proof. solve_decision. Defined.
#[global] Instance TaskGroup_eq_dec : EqDecision TaskGroup.
Proof. solve_decision. Defined.
#[global] Instance Task_eq_dec : EqDecision Task.
Proof. solve_decision. Defined.

(** The whole command line a shell execution runs. *)
Definition commandLine (e : ShellExecution) : list string := command e :: args e.

(** ** Strings and paths *)

Definition chars (s : string) : list ascii := list_ascii_of_string s.
Definition str (cs : list ascii) : string := string_of_list_ascii cs.

Definition slash : ascii := "/"%char.

(** [s.lastIndexOf('/')], -1 when there is none. *)
Fixpoint lastIndexOf_from (i last : Z) (cs : list ascii) : Z :=
  match cs with
  | [] => last
  | c :: rest => lastIndexOf_from (i + 1) (if Ascii.eqb c slash then i else last) rest
  end.

Definition lastIndexOf_slash (s : string) : Z := lastIndexOf_from 0 (-1) (chars s).

(** [s.substring(start, end)]: both indices are clamped to the string and
    swapped when out of order. *)
Definition clamp (n : Z) (s : string) : nat :=
  Z.to_nat (Z.min (Z.max n 0) (Z.of_nat (String.length s))).

Definition js_substring (s : string) (start finish : Z) : string :=
  let a := clamp start s in
  let b := clamp finish s in
  str (firstn (Nat.max a b - Nat.min a b) (skipn (Nat.min a b) (chars s))).

(** [s.substring(start)] *)
Definition js_substring_from (s : string) (start : Z) : string :=
  js_substring s start (Z.of_nat (String.length s)).

Fixpoint drop_slashes (cs : list ascii) : list ascii :=
  match cs with
  | c :: rest => if Ascii.eqb c slash then drop_slashes rest else cs
  | [] => []
  end.

Fixpoint drop_segment (cs : list ascii) : list ascii :=
  match cs with
  | c :: rest => if Ascii.eqb c slash then cs else drop_segment rest
  | [] => []
  end.

Fixpoint take_segment (cs : list ascii) : list ascii :=
  match cs with
  | c :: rest => if Ascii.eqb c slash then [] else c :: take_segment rest
  | [] => []
  end.

(** [path.dirname] of Node's posix flavour: scanning from the end down to
    index 1, trailing slashes and then the last segment are skipped; the
    result is what precedes the slash found, or "/" or "." when none is. *)
Definition dirname (p : string) : string :=
  match chars p with
  | [] => "."
  | c0 :: rest =>
      let hasRoot := Ascii.eqb c0 slash in
      match drop_segment (drop_slashes (rev rest)) with
      | [] => if hasRoot then "/" else "."
      | _ :: before =>
          if hasRoot && Nat.eqb (List.length before) 0 then "//"
          else str (c0 :: rev before)
      end
  end.

(** [path.basename] of Node's posix flavour: the last segment, trailing
    slashes ignored. *)
Definition basename (p : string) : string :=
  str (rev (take_segment (drop_slashes (rev (chars p))))).

(** ** [createYarnTask] *)

Definition getCommand (folder : WorkspaceFolder) (relativePath cmd : string) : string :=
  let yarn := "yarn" in
  yarn.

Definition getRelativePath (folder : option WorkspaceFolder) (u : Uri) : string :=
  match folder with
  | Some folder =>
      let rootUri := folder_uri folder in
      let absolutePath :=
        js_substring (uri_path u) 0 (lastIndexOf_slash (uri_path u) + 1) in
      js_substring_from absolutePath (Z.of_nat (String.length (uri_path rootUri)) + 1)
  | None => ""
  end.

(** The object [new Task(kind, folder, target, 'yarn', execution, undefined)]
    builds, [id] being the identity of the new object. *)
Definition createYarnTask (id : nat) (target cmd : string) (folder : WorkspaceFolder)
    (u : Uri) : Task :=
  let kind :=
    {| type := "yarn"; def_script := target; path := "";
       fileName := basename (uri_path u); uri := u |} in
  let relativePath := getRelativePath (Some folder) u in
  let kind :=
    if negb (Nat.eqb (String.length relativePath) 0) then
      {| type := type kind; def_script := def_script kind; path := relativePath;
         fileName := fileName kind; uri := uri kind |}
    else kind in
  let cwd := dirname (fsPath u) in
  let args := [getCommand folder relativePath cmd; target] in
  let execution := {| command := "npx"; args := args; cwd := cwd |} in
  {| task_id := id; definition := kind; scope := folder; name := target;
     source := "yarn"; execution := execution; group := None |}.

(** [task.group = g] *)
Definition set_group (g : TaskGroup) (t : Task) : Task :=
  {| task_id := task_id t; definition := definition t; scope := scope t;
     name := name t; source := source t; execution := execution t;
     group := Some g |}.

(** ** The host, the provider's state and asynchronous functions *)

(** What the provider asks of the editor and of the file system at the time
    of a call.  [findFiles] stands for [workspace.findFiles] on the provider's
    pattern and the folder's exclude glob, [isExcluded] for [util.isExcluded]
    on the configured patterns, [readFile] for [util.readFile] followed by
    the scan of the text read; [None] is a rejection. *)
Record Host : Type := mkHost {
  workspaceFolders : option (list WorkspaceFolder);
  findFiles : WorkspaceFolder -> option (list Uri);
  isExcluded : string -> bool;
  getWorkspaceFolder : Uri -> option WorkspaceFolder;
  pathExists : string -> bool;
  readFile : string -> option (list Event)
}.

(** What a call of the provider does that is visible outside it: the start
    of a discovery pass (a call of [detectYarnfiles]) and the calls of
    [workspace.findFiles], [util.readFile] and [util.pathExists]. *)
Inductive Effect : Type :=
  | Discovery
  | FindFiles (folder : WorkspaceFolder)
  | ReadFile (file : string)
  | PathExists (file : string).

#[global] Instance Effect_eq_dec : EqDecision Effect.
Proof. solve_decision. Defined.

(** The module state: the variable [cachedTasks] ([None] is [undefined]), the
    identity the next [new Task] takes, and the effects so far, latest first. *)
Record Provider : Type := mkProvider {
  cachedTasks : option (list Task);
  next_task_id : nat;
  effects : list Effect
}.

(** The settlement of a promise. *)
Inductive Outcome (A : Type) : Type :=
  | Resolved (a : A)
  | Rejected.
Arguments Resolved {A} a.
Arguments Rejected {A}.

Definition Async (A : Type) : Type := Provider -> Outcome A * Provider.

#[global] Instance Async_ret : MRet Async := fun A a s => (Resolved a, s).

#[global] Instance Async_bind : MBind Async := fun A B f m s =>
  match m s with
  | (Resolved a, s') => f a s'
  | (Rejected, s') => (Rejected, s')
  end.

Definition reject {A : Type} : Async A := fun s => (Rejected, s).

Definition record_effect (e : Effect) (s : Provider) : Provider :=
  {| cachedTasks := cachedTasks s; next_task_id := next_task_id s;
     effects := e :: effects s |}.

Definition store_cachedTasks (c : option (list Task)) (s : Provider) : Provider :=
  {| cachedTasks := c; next_task_id := next_task_id s; effects := effects s |}.

Definition allocate (n : nat) (s : Provider) : Provider :=
  {| cachedTasks := cachedTasks s; next_task_id := n + next_task_id s;
     effects := effects s |}.

Definition perform (e : Effect) : Async unit := fun s =>
  (Resolved tt, record_effect e s).

Definition get_cachedTasks : Async (option (list Task)) := fun s =>
  (Resolved (cachedTasks s), s).

Definition set_cachedTasks (c : option (list Task)) : Async unit := fun s =>
  (Resolved tt, store_cachedTasks c s).

(** [new Task(...)]: the next identity. *)
Definition new_task_id : Async nat := fun s =>
  (Resolved (next_task_id s), allocate 1 s).

(** Unfolds the sequencing of asynchronous functions and the primitives on
    the provider's state. *)
Ltac async :=
  unfold mbind, Async_bind, mret, Async_ret, reject, perform, get_cachedTasks,
    set_cachedTasks, new_task_id.

(** ** [util.ts] *)

(** [util.pathExists] *)
Definition util_pathExists (h : Host) (file : string) : Async bool :=
  perform (PathExists file);; mret (pathExists h file).

(** [util.readFile], the text read being given by its scan. *)
Definition util_readFile (h : Host) (file : string) : Async (list Event) :=
  perform (ReadFile file);;
  match readFile h file with
  | Some documentText => mret documentText
  | None => reject
  end.

(** The loop of [util.removeFromArray]: [idx] counts the elements, [idx2]
    keeps the index of the last one identical to [item]. *)
Definition removeFromArray_scan (item : Task) (arr : list Task) : Z * Z :=
  fold_left
    (fun st each =>
       let idx := fst st + 1 in
       (idx, if bool_decide (item = each) then idx else snd st))%Z
    arr (-1, -1)%Z.

(** [util.removeFromArray(arr, item)]; [arr.splice(idx2, 1)] deletes the
    element at [idx2]. *)
Definition removeFromArray (arr : list Task) (item : Task) : list Task :=
  let idx2 := snd (removeFromArray_scan item arr) in
  if negb (idx2 =? -1)%Z && (idx2 <? Z.of_nat (List.length arr))%Z
  then delete (Z.to_nat idx2) arr
  else arr.

(** ** [taskProviderYarn.ts] *)

(** [findTargets]: the file is read, the visitor is run over its scan, and
    the object [scripts] is returned. *)
Definition findTargets (h : Host) (file : string) : Async JSObject :=
  documentText ← util_readFile h file;
  mret (scripts (visit documentText initial_visitor)).

(** The body of [Object.keys(scripts).forEach] in [readYarnfile]. *)
Fixpoint readYarnfile_each (keys : list string) (folder : WorkspaceFolder) (u : Uri)
    (result : list Task) : Async (list Task) :=
  match keys with
  | [] => mret result
  | each :: rest =>
      id ← new_task_id;
      let task := createYarnTask id each each folder u in
      let task := set_group Build task in
      readYarnfile_each rest folder u (result ++ [task])
  end.

(** The test [if (!scripts)] never succeeds, [findTargets] returning an
    object; [if (task)] likewise. *)
Definition readYarnfile (h : Host) (u : Uri) : Async (list Task) :=
  let emptyTasks : list Task := [] in
  match getWorkspaceFolder h u with
  | None => mret emptyTasks
  | Some folder =>
      scripts ← findTargets h (fsPath u);
      readYarnfile_each (Object_keys scripts) folder u []
  end.

(** The inner loop of [detectYarnfiles], over the paths found in a folder. *)
Fixpoint detect_paths (h : Host) (paths : list Uri) (visitedFiles : gset string)
    (allTasks : list Task) : Async (gset string * list Task) :=
  match paths with
  | [] => mret (visitedFiles, allTasks)
  | fpath :: rest =>
      if negb (isExcluded h (uri_path fpath))
         && negb (bool_decide (fsPath fpath ∈ visitedFiles))
      then
        tasks ← readYarnfile h fpath;
        detect_paths h rest ({[ fsPath fpath ]} ∪ visitedFiles) (allTasks ++ tasks)
      else detect_paths h rest visitedFiles allTasks
  end.

(** The outer loop of [detectYarnfiles], over the workspace folders. *)
Fixpoint detect_folders (h : Host) (folders : list WorkspaceFolder)
    (visitedFiles : gset string) (allTasks : list Task)
  : Async (gset string * list Task) :=
  match folders with
  | [] => mret (visitedFiles, allTasks)
  | folder :: rest =>
      perform (FindFiles folder);;
      match findFiles h folder with
      | None => reject
      | Some paths =>
          acc ← detect_paths h paths visitedFiles allTasks;
          detect_folders h rest (fst acc) (snd acc)
      end
  end.

Definition detectYarnfiles (h : Host) : Async (list Task) :=
  perform Discovery;;
  let emptyTasks : list Task := [] in
  match workspaceFolders h with
  | None => mret emptyTasks
  | Some folders =>
      acc ← detect_folders h folders ∅ [];
      mret (snd acc)
  end.

(** An array, even empty, is truthy: only [undefined] starts a discovery. *)
Definition provideYarnfiles (h : Host) : Async (list Task) :=
  cached ← get_cachedTasks;
  match cached with
  | None =>
      tasks ← detectYarnfiles h;
      set_cachedTasks (Some tasks);;
      mret tasks
  | Some tasks => mret tasks
  end.

(** [cachedTasks.push(...tasks)]; on [undefined] the call throws. *)
Definition cachedTasks_push (tasks : list Task) : Async unit :=
  cached ← get_cachedTasks;
  match cached with
  | Some arr => set_cachedTasks (Some (arr ++ tasks))
  | None => reject
  end.

(** [cachedTasks.length]; on [undefined] the read throws. *)
Definition cachedTasks_length : Async nat :=
  cached ← get_cachedTasks;
  match cached with
  | Some arr => mret (List.length arr)
  | None => reject
  end.

(** The removals and the [push] change the array in place: the variable
    holds the array after the removals while the file is being read. *)
Definition invalidateTasksCacheYarn (h : Host) (opt : option Uri) : Async unit :=
  cached ← get_cachedTasks;
  match opt, cached with
  | Some opt, Some arr =>
      let rmvTasks :=
        List.filter
          (fun each => bool_decide (fsPath (uri (definition each)) = fsPath opt)) arr in
      set_cachedTasks (Some (fold_left removeFromArray rmvTasks arr));;
      present ← util_pathExists h (fsPath opt);
      (if (present : bool) then
         tasks ← readYarnfile h opt;
         cachedTasks_push tasks
       else mret tt : Async unit);;
      len ← cachedTasks_length;
      if Nat.ltb 0 len then mret tt else set_cachedTasks None
  | _, _ => set_cachedTasks None
  end.

(** * What the statements speak of *)

(** ** The "scripts" context as the specification words it *)

(** The "scripts" context as the specification words it, for comparison with
    the visitor: the flag goes up at a property named "scripts" of the
    top-level object and comes down when the object nesting returns to that
    level, so that objects nested inside the block do not end it. *)
Record SpecContext : Type := mkSpecContext {
  spec_depth : nat;
  spec_scripts_at : option nat
}.

Definition spec_handle (c : SpecContext) (e : Event) : SpecContext :=
  match e with
  | unhandled onObjectBegin =>
      {| spec_depth := S (spec_depth c); spec_scripts_at := spec_scripts_at c |}
  | onObjectProperty property _ _ =>
      if String.eqb property "scripts" && Nat.eqb (spec_depth c) 1 then
        {| spec_depth := spec_depth c; spec_scripts_at := Some (spec_depth c) |}
      else c
  | onObjectEnd =>
      let d := Nat.pred (spec_depth c) in
      {| spec_depth := d;
         spec_scripts_at :=
           match spec_scripts_at c with
           | Some at_depth => if Nat.leb d at_depth then None else Some at_depth
           | None => None
           end |}
  | _ => c
  end.

Definition spec_inScripts (evs : list Event) : bool :=
  match spec_scripts_at
          (fold_left spec_handle evs {| spec_depth := 0; spec_scripts_at := None |}) with
  | Some _ => true
  | None => false
  end.

(** ** Documents of the two dialects *)

(** One script of a scripts block: its name and its body, a string literal,
    each with the place the scan reports. *)
Record ScriptEntry : Type := mkEntry {
  entry_name : string;
  entry_name_at : Z * Z;
  entry_body : string;
  entry_body_at : Z * Z
}.

Definition script_member (e : ScriptEntry) : string * (Z * Z) * JSON :=
  (entry_name e, entry_name_at e,
   JLiteral (VString (entry_body e)) (fst (entry_body_at e)) (snd (entry_body_at e))).

(** A scripts-style document: a top-level object with a "scripts" member
    whose value is an object of string-valued members, among other members. *)
Definition scripts_document (before : list (string * (Z * Z) * JSON)) (at_ : Z * Z)
    (entries : list ScriptEntry) (after : list (string * (Z * Z) * JSON)) : JSON :=
  JObject (before ++ ("scripts", at_, JObject (map script_member entries)) :: after).

(** The other members of the document belong to neither dialect: no property
    inside them, at any depth, is named "scripts" or "tasks". *)
Definition no_dialect_property (members : list (string * (Z * Z) * JSON)) : Prop :=
  Forall (fun p => p <> "scripts" /\ p <> "tasks")
         (reported_properties (json_events (JObject members))).

(** The body of the last entry named [k], in document order. *)
Fixpoint last_body (k : string) (entries : list ScriptEntry) : option string :=
  match entries with
  | [] => None
  | e :: rest =>
      match last_body k rest with
      | Some b => Some b
      | None => if String.eqb k (entry_name e) then Some (entry_body e) else None
      end
  end.

(** What the entries of a scripts block do to the visitor, one by one. *)
Definition bind_entry (s : Visitor) (e : ScriptEntry) : Visitor :=
  bind_script (VString (entry_body e)) (set_script (Some (entry_name e)) s).

(** An entry of a "tasks" array that has a string label and nothing else. *)
Definition labelled_task (e : string * (Z * Z) * (Z * Z)) : JSON :=
  JObject
    [("label", snd (fst e),
      JLiteral (VString (fst (fst e))) (fst (snd e)) (snd (snd e)))].

(** A document whose "tasks" member is an array of labelled entries. *)
Definition tasks_document (at_ : Z * Z) (entries : list (string * (Z * Z) * (Z * Z)))
  : JSON :=
  JObject [("tasks", at_, JArray (map labelled_task entries))].

(** A document with a "tasks" array of two entries, each with a string label. *)
Definition two_labelled_tasks (label1 label2 : string) : JSON :=
  JObject
    [("tasks", (1, 7)%Z,
      JArray
        [JObject [("label", (12, 7)%Z, JLiteral (VString label1) 21 7)];
         JObject [("label", (32, 7)%Z, JLiteral (VString label2) 41 6)]])].

(** ** Task lists and the cache *)

Definition no_slash (s : string) : Prop := Forall (fun c => c <> slash) (chars s).

(** The tasks [readYarnfile] builds for the keys of the extracted object, the
    first of them taking the identity [id]. *)
Fixpoint materialise (keys : list string) (folder : WorkspaceFolder) (u : Uri) (id : nat)
  : list Task :=
  match keys with
  | [] => []
  | each :: rest =>
      set_group Build (createYarnTask id each each folder u)
      :: materialise rest folder u (S id)
  end.

(** The tasks [invalidateTasksCacheYarn] keeps: those of the other files. *)
Definition other_files (opt : Uri) (arr : list Task) : list Task :=
  List.filter
    (fun each => negb (bool_decide (fsPath (uri (definition each)) = fsPath opt))) arr.

(** The value [cachedTasks] ends with: [undefined] in place of an empty array. *)
Definition collapse (arr : list Task) : option (list Task) :=
  match arr with
  | [] => None
  | _ :: _ => Some arr
  end.

(** The tasks of a file as it is now: those materialised from the targets
    extracted from its text, the first taking the identity [id]. *)
Definition fresh_tasks (h : Host) (u : Uri) (id : nat) : list Task :=
  match getWorkspaceFolder h u, readFile h (fsPath u) with
  | Some folder, Some documentText =>
      materialise (Object_keys (extract documentText)) folder u id
  | _, _ => []
  end.

(** The number of discovery passes started so far. *)
Definition discoveries (s : Provider) : nat :=
  count_occ Effect_eq_dec (effects s) Discovery.

(** Calls of [provideYarnfiles] one after the other, each on the host as it
    is at the time of the call. *)
Fixpoint provide_repeatedly (hosts : list Host) (s : Provider)
  : list (Outcome (list Task)) * Provider :=
  match hosts with
  | [] => ([], s)
  | h :: rest =>
      let r := provideYarnfiles h s in
      let rs := provide_repeatedly rest (snd r) in
      (fst r :: fst rs, snd rs)
  end.

(** ** Sample documents *)

(** A scripts block holding an object value, followed by one more script. *)
Definition nested_in_scripts : JSON :=
  JObject
    [("scripts", (1, 9)%Z,
      JObject
        [("a", (13, 3)%Z, JObject [("b", (19, 3)%Z, JLiteral (VString "c") 24 3)]);
         ("d", (30, 3)%Z, JLiteral (VString "e") 35 3)])].

(** A property named "scripts" below the top level. *)
Definition scripts_below_top : JSON :=
  JObject
    [("config", (1, 8)%Z,
      JObject
        [("scripts", (12, 9)%Z,
          JObject [("k", (24, 3)%Z, JLiteral (VString "v") 29 3)])])].



(** The scenario of the specification with a leading and a trailing member
    and the script "build" given twice. *)
Definition sample_before : list (string * (Z * Z) * JSON) :=
  [("name", (1, 6)%Z, JLiteral (VString "demo") 9 6)].

Definition sample_entries : list ScriptEntry :=
  [mkEntry "build" (30, 7)%Z "tsc -p ." (39, 10)%Z;
   mkEntry "test" (51, 6)%Z "mocha" (59, 7)%Z;
   mkEntry "build" (68, 7)%Z "tsc" (77, 5)%Z].

Definition sample_after : list (string * (Z * Z) * JSON) :=
  [("dependencies", (85, 14)%Z,
    JObject [("left-pad", (102, 10)%Z, JLiteral (VString "1.3.0") 114 7)])].

(** A package file with the scripts "build" and "clean". *)
Definition build_and_clean : JSON :=
  scripts_document [] (1, 9)%Z
    [mkEntry "build" (13, 7)%Z "tsc -p ." (22, 10)%Z;
     mkEntry "clean" (34, 7)%Z "rimraf out" (43, 12)%Z] [].

Definition text_b : JSON :=
  scripts_document [] (1, 9)%Z [mkEntry "test" (13, 6)%Z "mocha" (21, 7)%Z] [].

Definition text_a_edited : JSON :=
  scripts_document [] (1, 9)%Z [mkEntry "lint" (13, 6)%Z "eslint ." (21, 10)%Z] [].

(** ** Sample workspaces *)

(** The scenario of the specification: target "build" of "/repo/package.json"
    in the folder "/repo". *)
Definition repo_folder : WorkspaceFolder :=
  {| folder_uri := {| uri_path := "/repo"; fsPath := "/repo" |};
     folder_name := "repo"; folder_index := 0 |}.

Definition repo_package_json : Uri :=
  {| uri_path := "/repo/package.json"; fsPath := "/repo/package.json" |}.

Definition file_a : Uri :=
  {| uri_path := "/repo/a/package.json"; fsPath := "/repo/a/package.json" |}.

Definition file_b : Uri :=
  {| uri_path := "/repo/b/package.json"; fsPath := "/repo/b/package.json" |}.

Definition fresh_provider : Provider :=
  {| cachedTasks := None; next_task_id := 0; effects := [] |}.

Definition build_and_clean_host : Host :=
  {| workspaceFolders := Some [repo_folder];
     findFiles := fun _ => Some [repo_package_json];
     isExcluded := fun _ => false;
     getWorkspaceFolder := fun _ => Some repo_folder;
     pathExists := fun _ => true;
     readFile := fun _ => Some (json_events build_and_clean) |}.


(** The same workspace when the file is there and cannot be read. *)
Definition unreadable_package_host : Host :=
  {| workspaceFolders := Some [repo_folder];
     findFiles := fun _ => Some [repo_package_json];
     isExcluded := fun _ => false;
     getWorkspaceFolder := fun _ => Some repo_folder;
     pathExists := fun _ => true;
     readFile := fun _ => None |}.

(** A workspace folder that is the root of the file system, and a package
    file one directory below it. *)
Definition root_folder : WorkspaceFolder :=
  {| folder_uri := {| uri_path := "/"; fsPath := "/" |};
     folder_name := "root"; folder_index := 0 |}.

Definition sub_package_json : Uri :=
  {| uri_path := "/sub/package.json"; fsPath := "/sub/package.json" |}.

(** The workspace at first: [file_a] with "build" and "clean", [file_b] with
    "test". *)
Definition two_files_host : Host :=
  {| workspaceFolders := Some [repo_folder];
     findFiles := fun _ => Some [file_a; file_b];
     isExcluded := fun _ => false;
     getWorkspaceFolder := fun _ => Some repo_folder;
     pathExists := fun _ => true;
     readFile := fun file =>
       if String.eqb file (fsPath file_a) then Some (json_events build_and_clean)
       else if String.eqb file (fsPath file_b) then Some (json_events text_b)
       else None |}.

(** The workspace after [file_a] is edited to hold the one script "lint". *)
Definition edited_host : Host :=
  {| workspaceFolders := Some [repo_folder];
     findFiles := fun _ => Some [file_a; file_b];
     isExcluded := fun _ => false;
     getWorkspaceFolder := fun _ => Some repo_folder;
     pathExists := fun _ => true;
     readFile := fun file =>
       if String.eqb file (fsPath file_a) then Some (json_events text_a_edited)
       else if String.eqb file (fsPath file_b) then Some (json_events text_b)
       else None |}.

(** The workspace after [file_b] is deleted, [file_a] being the only file. *)
Definition only_a_deleted_host : Host :=
  {| workspaceFolders := Some [repo_folder];
     findFiles := fun _ => Some [];
     isExcluded := fun _ => false;
     getWorkspaceFolder := fun _ => Some repo_folder;
     pathExists := fun _ => false;
     readFile := fun _ => None |}.

Definition populated : Provider := snd (provideYarnfiles two_files_host fresh_provider).

Definition populated_tasks : list Task :=
  materialise ["build"; "clean"] repo_folder file_a 0
  ++ materialise ["test"] repo_folder file_b 2.

(** * The utilities, the provider as a whole and the views *)

(** ** [extension.ts]: the running tasks of the status bar *)

(** The module variable [runningTasks] and the text of [statusBarItem]. *)
Record StatusBar : Type := mkStatusBar {
  runningTasks : list Task;
  statusBarItem_text : string
}.

(** [n.toString()] for the length of an array. *)
Definition length_toString (n : nat) : string :=
  NilEmpty.string_of_uint (Nat.to_uint n).

(** The text [updateStatusBarItem] chooses for a number of running tasks. *)
Definition status_text (n : nat) : string :=
  if Nat.eqb n 0 then "$(gear) Task Explorer"
  else if Nat.eqb n 1 then "$(gear) 1 task running"
  else ("$(gear) " ++ length_toString n ++ " tasks running")%string.

(** The status bar as [activate] leaves it. *)
Definition activated_status : StatusBar :=
  {| runningTasks := []; statusBarItem_text := "$(gear) Task Explorer" |}.

Definition updateStatusBarItem (task : Task) (running : bool) (st : StatusBar) : StatusBar :=
  if String.eqb (type (definition task)) "$composite" then st
  else
    let tasks :=
      if negb running then removeFromArray (runningTasks st) task
      else runningTasks st ++ [task] in
    {| runningTasks := tasks; statusBarItem_text := status_text (List.length tasks) |}.

(** The two events [activate] subscribes [updateStatusBarItem] to. *)
Inductive TaskEvent : Type :=
  | onDidStartTask (task : Task)
  | onDidEndTask (task : Task).

Definition on_task_event (st : StatusBar) (e : TaskEvent) : StatusBar :=
  match e with
  | onDidStartTask task => updateStatusBarItem task true st
  | onDidEndTask task => updateStatusBarItem task false st
  end.

Definition on_task_events (events : list TaskEvent) (st : StatusBar) : StatusBar :=
  fold_left on_task_event events st.

(** A task that [updateStatusBarItem] counts. *)
Definition counted (task : Task) : Prop := type (definition task) <> "$composite".

(** The text shows the number of running tasks, and no composite task runs. *)
Definition status_consistent (st : StatusBar) : Prop :=
  statusBarItem_text st = status_text (List.length (runningTasks st))
  /\ Forall counted (runningTasks st).

(** ** Discovery: what is read and where tasks come from *)

(** The files read among some effects. *)
Definition reads (es : list Effect) : list string :=
  flat_map (fun e => match e with ReadFile f => [f] | _ => [] end) es.

(** A path [workspace.findFiles] returns for a workspace folder and
    [util.isExcluded] lets through. *)
Definition candidate (h : Host) (u : Uri) : Prop :=
  exists folders folder paths,
    workspaceFolders h = Some folders /\ In folder folders
    /\ findFiles h folder = Some paths /\ In u paths
    /\ isExcluded h (uri_path u) = false.

(** A task built by [readYarnfile] from the file [u] as the host has it. *)
Definition task_of_file (h : Host) (u : Uri) (t : Task) : Prop :=
  exists folder documentText id,
    getWorkspaceFolder h u = Some folder
    /\ readFile h (fsPath u) = Some documentText
    /\ In t (materialise (Object_keys (extract documentText)) folder u id).

(** The cached array, empty when the variable is [undefined]. *)
Definition cached (s : Provider) : list Task :=
  match cachedTasks s with
  | Some arr => arr
  | None => []
  end.

(** What a stretch of a discovery pass, from the state [s] to the state [s'],
    may do, [ok] telling the paths it may read, [visitedFiles] and [allTasks]
    being the loop variables at its start and [r] its outcome: the cache is
    not touched, the only effects are calls of [findFiles] and reads, no file
    is read twice or when already visited, every file read is in
    [visitedFiles] afterwards, and the tasks added are the tasks of files it
    may read, with the identities allocated in between, in order. *)
Definition discovery_stretch (h : Host) (ok : Uri -> Prop) (visitedFiles : gset string)
    (allTasks : list Task) (s s' : Provider) (r : Outcome (gset string * list Task))
  : Prop :=
  cachedTasks s' = cachedTasks s
  /\ next_task_id s <= next_task_id s'
  /\ exists added,
      effects s' = added ++ effects s
      /\ Forall (fun e => match e with ReadFile _ | FindFiles _ => True | _ => False end)
                added
      /\ List.NoDup (reads added)
      /\ (forall f, In f (reads added) ->
            (f ∉ visitedFiles) /\ exists u, ok u /\ fsPath u = f)
      /\ (forall acc, r = Resolved acc ->
            (forall f, (f ∈ visitedFiles) -> (f ∈ fst acc))
            /\ (forall f, In f (reads added) -> (f ∈ fst acc))
            /\ exists new,
                snd acc = allTasks ++ new
                /\ Forall (fun t => exists u, ok u /\ task_of_file h u t) new
                /\ map task_id new
                   = seq (next_task_id s) (next_task_id s' - next_task_id s)).

(** ** The provider class and sequences of calls *)

(** [YarnTaskProvider.provideTasks] *)
Definition provideTasks (h : Host) : Async (list Task) := provideYarnfiles h.

(** [YarnTaskProvider.resolveTask]: always [undefined]. *)
Definition resolveTask (_task : Task) : option Task := None.

(** The calls the editor makes on the module, each on the host as it is at
    the time of the call. *)
Inductive Call : Type :=
  | call_provideTasks (h : Host)
  | call_invalidateTasksCacheYarn (h : Host) (opt : option Uri).

(** The module state a call leaves, whether it resolves or is rejected. *)
Definition after_call (s : Provider) (c : Call) : Provider :=
  match c with
  | call_provideTasks h => snd (provideTasks h s)
  | call_invalidateTasksCacheYarn h opt => snd (invalidateTasksCacheYarn h opt s)
  end.

Definition after_calls (calls : list Call) (s : Provider) : Provider :=
  fold_left after_call calls s.

(** The shape [createYarnTask] and [readYarnfile] give a task. *)
Definition yarn_task (t : Task) : Prop :=
  type (definition t) = "yarn"
  /\ def_script (definition t) = name t
  /\ source t = "yarn"
  /\ group t = Some Build
  /\ commandLine (execution t) = ["npx"; "yarn"; name t]
  /\ cwd (execution t) = dirname (fsPath (uri (definition t)))
  /\ fileName (definition t) = basename (uri_path (uri (definition t))).

(** A task but for the identity of the object. *)
Definition without_identity (t : Task) : Task :=
  {| task_id := 0; definition := definition t; scope := scope t; name := name t;
     source := source t; execution := execution t; group := group t |}.

(** The cached tasks are distinct objects, all created before now. *)
Definition distinct_objects (s : Provider) : Prop :=
  List.NoDup (map task_id (cached s))
  /\ Forall (fun t => task_id t < next_task_id s) (cached s).

(** A workspace whose one package file cannot be read. *)
Definition unreadable_host : Host :=
  {| workspaceFolders := Some [repo_folder];
     findFiles := fun _ => Some [file_a];
     isExcluded := fun _ => false;
     getWorkspaceFolder := fun _ => Some repo_folder;
     pathExists := fun _ => true;
     readFile := fun _ => None |}.

(** ** What the visitor of [findTargets] looks at *)

(** A callback with a handler that changes a variable, its offset and length
    set to zero; the others count for nothing. *)
Definition significant (e : Event) : option Event :=
  match e with
  | onObjectEnd => Some onObjectEnd
  | onLiteralValue value _ _ => Some (onLiteralValue value 0 0)
  | onObjectProperty property _ _ => Some (onObjectProperty property 0 0)
  | onError | unhandled _ => None
  end.

Definition skeleton (evs : list Event) : list Event := omap significant evs.

(** The literal values a scan reports. *)
Definition reported_literals (evs : list Event) : list JSValue :=
  flat_map (fun e => match e with onLiteralValue v _ _ => [v] | _ => [] end) evs.

(** The names of a list in the order of their first occurrences. *)
Definition first_occurrences (ks : list string) : list string :=
  fold_left (fun seen k => if bool_decide (k ∈ seen) then seen else seen ++ [k]) ks [].

(** A workspace whose one package file has the given text. *)
Definition host_with_text (documentText : list Event) : Host :=
  {| workspaceFolders := Some [repo_folder];
     findFiles := fun _ => Some [repo_package_json];
     isExcluded := fun _ => false;
     getWorkspaceFolder := fun _ => Some repo_folder;
     pathExists := fun _ => true;
     readFile := fun _ => Some documentText |}.

(** ** [util.ts]: the exclusion setting *)

(** What [configuration.get('exclude')] returns: nothing, one pattern or an
    array of patterns. *)
Inductive ExcludeSetting : Type :=
  | exclude_undefined
  | exclude_string (pattern : string)
  | exclude_array (patterns : list string).

(** [new RelativePattern(base, pattern)] *)
Record RelativePattern : Type := mkRelativePattern {
  pattern_base : WorkspaceFolder;
  pattern : string
}.

(** The loop [for (var i in excludes)] of [getExcludesGlob]. *)
Definition getExcludesGlob_loop (excludes : list string) (multiFilePattern : string)
  : string :=
  fold_left
    (fun multiFilePattern each => ((multiFilePattern ++ ",") ++ each)%string)
    excludes multiFilePattern.

(** [util.getExcludesGlob], [excludes] being the setting read; the test
    [excludes && excludes.length > 0] fails on [undefined], on the empty
    string and on the empty array. *)
Definition getExcludesGlob (excludes : ExcludeSetting) (folder : WorkspaceFolder)
  : RelativePattern :=
  let relativePattern :=
    {| pattern_base := folder; pattern := "**/node_modules/**" |} in
  let nonempty :=
    match excludes with
    | exclude_undefined => false
    | exclude_string s => Nat.ltb 0 (String.length s)
    | exclude_array l => Nat.ltb 0 (List.length l)
    end in
  if nonempty then
    let multiFilePattern := "{**/node_modules/**"%string in
    let multiFilePattern :=
      match excludes with
      | exclude_array l => getExcludesGlob_loop l multiFilePattern
      | exclude_string s => ((multiFilePattern ++ ",") ++ s)%string
      | exclude_undefined => multiFilePattern
      end in
    let multiFilePattern := (multiFilePattern ++ "}")%string in
    {| pattern_base := folder; pattern := multiFilePattern |}
  else relativePattern.

Section Minimatch.

(** [minimatch(path, pattern, { dot: true, nocase: true })] *)
Variable minimatch : string -> string -> bool.

Definition testForExclusionPattern (path pattern : string) : bool :=
  minimatch path pattern.

(** The loop [for (let pattern of exclude)] of [isExcluded], left at the
    first pattern that matches. *)
Fixpoint isExcluded_loop (uriPath : string) (exclude : list string) : bool :=
  match exclude with
  | [] => false
  | pattern :: rest =>
      if testForExclusionPattern uriPath pattern then true
      else isExcluded_loop uriPath rest
  end.

(** [util.isExcluded], [exclude] being the setting read; the empty string is
    falsy, the empty array is not. *)
Definition util_isExcluded (exclude : ExcludeSetting) (uriPath : string) : bool :=
  match exclude with
  | exclude_undefined => false
  | exclude_string pattern =>
      if negb (String.eqb pattern "") then
        if testForExclusionPattern uriPath pattern then true else false
      else false
  | exclude_array patterns => isExcluded_loop uriPath patterns
  end.

End Minimatch.

(** The patterns of a setting. *)
Definition configured_patterns (exclude : ExcludeSetting) : list string :=
  match exclude with
  | exclude_undefined => []
  | exclude_string pattern => if String.eqb pattern "" then [] else [pattern]
  | exclude_array patterns => patterns
  end.

(** ** [util.ts]: [isDescendant] *)

Definition backslash : ascii := Ascii.ascii_of_nat 92.

(** [s.replace(/[\\\/]/g, sep)] *)
Definition replace_separators (sep : ascii) (s : string) : string :=
  str (map (fun c => if Ascii.eqb c backslash || Ascii.eqb c slash then sep else c)
           (chars s)).

(** [s.replace(/^\\/, "")] *)
Definition strip_leading_backslash (s : string) : string :=
  match s with
  | String c rest => if Ascii.eqb c backslash then rest else s
  | EmptyString => s
  end.

(** [s.charAt(s.length - 1)]; [None] stands for the empty string [charAt]
    returns when [s] is empty. *)
Definition last_char (s : string) : option ascii := last (chars s).

Section Platform.

(** [path.sep] and [String.prototype.toLowerCase]. *)
Variable path_sep : ascii.
Variable toLowerCase : string -> string.

Definition isDescendant (parent descendant : string) : bool :=
  let parent := replace_separators path_sep parent in
  let descendant := replace_separators path_sep descendant in
  let parent :=
    if Ascii.eqb path_sep backslash
    then toLowerCase (strip_leading_backslash parent) else parent in
  let descendant :=
    if Ascii.eqb path_sep backslash
    then toLowerCase (strip_leading_backslash descendant) else descendant in
  if String.eqb parent descendant then true
  else
    let parent :=
      if negb (bool_decide (last_char parent = Some path_sep))
      then (parent ++ String path_sep "")%string else parent in
    String.prefix parent descendant.

End Platform.

(** A matcher for sample workspaces: a pattern without wildcards matches the
    path equal to it. *)
Definition literal_match (path pattern : string) : bool := String.eqb path pattern.

(** The workspace of [two_files_host] with [file_b] excluded by the setting. *)
Definition excluding_host : Host :=
  {| workspaceFolders := workspaceFolders two_files_host;
     findFiles := findFiles two_files_host;
     isExcluded := util_isExcluded literal_match (exclude_array ["/repo/b/package.json"]);
     getWorkspaceFolder := getWorkspaceFolder two_files_host;
     pathExists := pathExists two_files_host;
     readFile := readFile two_files_host |}.

(** ** [taskView.ts]: [findScript] *)

(** The local variables of [findScript] its handlers close over. *)
Record ScriptFinder : Type := mkScriptFinder {
  finder_scriptOffset : Z;
  finder_inScripts : bool
}.

Section TaskNames.

(** [getTaskName(script, relativePath)] of [tasks.ts]. *)
Variable getTaskName : string -> string -> string.

(** One callback of [visit] on the visitor of [findScript], [script] being
    the task of the selected node, if a script node is selected; the visitor
    has handlers for errors, object ends and property names only. *)
Definition findScript_handle (script : option Task) (s : ScriptFinder) (e : Event)
  : ScriptFinder :=
  match e with
  | onError => s
  | onObjectEnd =>
      if finder_inScripts s
      then {| finder_scriptOffset := finder_scriptOffset s; finder_inScripts := false |}
      else s
  | onObjectProperty property offset _ =>
      if String.eqb property "scripts" then
        {| finder_scriptOffset :=
             match script with
             | None => offset
             | Some _ => finder_scriptOffset s
             end;
           finder_inScripts := true |}
      else
        match finder_inScripts s, script with
        | true, Some task =>
            let label := getTaskName property (path (definition task)) in
            if String.eqb (name task) label
            then {| finder_scriptOffset := offset; finder_inScripts := finder_inScripts s |}
            else s
        | _, _ => s
        end
  | onLiteralValue _ _ _ | unhandled _ => s
  end.

(** [findScript(document, script)], the document given by the callbacks its
    scan makes. *)
Definition findScript (document : list Event) (script : option Task) : Z :=
  finder_scriptOffset
    (fold_left (findScript_handle script) document
               {| finder_scriptOffset := 0; finder_inScripts := false |}).

(** The offset of the name of the last entry whose task name, as
    [getTaskName] gives it, is the name of [task]. *)
Fixpoint last_matching (task : Task) (entries : list ScriptEntry) : option Z :=
  match entries with
  | [] => None
  | e :: rest =>
      match last_matching task rest with
      | Some offset => Some offset
      | None =>
          if String.eqb (name task) (getTaskName (entry_name e) (path (definition task)))
          then Some (fst (entry_name_at e))
          else None
      end
  end.

End TaskNames.

(** ** A point invalidation against a fresh discovery *)

(** The paths the inner loop of [detectYarnfiles] reads among [paths], in
    order, and the files visited when it ends. *)
Fixpoint paths_read (h : Host) (paths : list Uri) (visitedFiles : gset string)
  : list Uri * gset string :=
  match paths with
  | [] => ([], visitedFiles)
  | fpath :: rest =>
      if negb (isExcluded h (uri_path fpath))
         && negb (bool_decide (fsPath fpath ∈ visitedFiles))
      then
        let r := paths_read h rest ({[ fsPath fpath ]} ∪ visitedFiles) in
        (fpath :: fst r, snd r)
      else paths_read h rest visitedFiles
  end.

(** The same for the outer loop, over the workspace folders. *)
Fixpoint folders_read (h : Host) (folders : list WorkspaceFolder)
    (visitedFiles : gset string) : list Uri * gset string :=
  match folders with
  | [] => ([], visitedFiles)
  | folder :: rest =>
      match findFiles h folder with
      | None => ([], visitedFiles)
      | Some paths =>
          let r := paths_read h paths visitedFiles in
          let r' := folders_read h rest (snd r) in
          (fst r ++ fst r', snd r')
      end
  end.

(** The files a discovery pass reads when none of its calls is rejected. *)
Definition files_read (h : Host) : list Uri :=
  match workspaceFolders h with
  | Some folders => fst (folders_read h folders ∅)
  | None => []
  end.

(** The tasks of a file as the host has it, but for their identities. *)
Definition file_tasks (h : Host) (u : Uri) : list Task :=
  map without_identity (fresh_tasks h u 0).

(** The host [h'] is the host [h] but for the text of the file [a]. *)
Definition same_but_content (a : Uri) (h h' : Host) : Prop :=
  workspaceFolders h' = workspaceFolders h
  /\ (forall folder, findFiles h' folder = findFiles h folder)
  /\ (forall p, isExcluded h' p = isExcluded h p)
  /\ (forall u, getWorkspaceFolder h' u = getWorkspaceFolder h u)
  /\ (forall f, f <> fsPath a -> readFile h' f = readFile h f).

(** ** [taskView.ts]: [buildTaskTree] *)

(** A JavaScript [Map] with string keys: its entries in insertion order. *)
Fixpoint Map_get {A : Type} (m : list (string * A)) (k : string) : option A :=
  match m with
  | [] => None
  | (k', v') :: rest => if String.eqb k k' then Some v' else Map_get rest k
  end.

Fixpoint Map_set {A : Type} (m : list (string * A)) (k : string) (v : A)
  : list (string * A) :=
  match m with
  | [] => [(k, v)]
  | (k', v') :: rest =>
      if String.eqb k k' then (k, v) :: rest else (k', v') :: Map_set rest k v
  end.

(** The two classes of file nodes and the [Map] that holds their objects. *)
Inductive FileNodeClass : Type :=
  | class_PackageJSON
  | class_TasksJSON.

#[global] Instance FileNodeClass_eq_dec : EqDecision FileNodeClass.
Proof. solve_decision. Defined.

(** A [PackageJSON] or [TasksJSON] node: its [path], its [folder], a
    [Folder] object given by its key in the map [folders], and the tasks of
    the script nodes pushed on its [scripts]. *)
Record FileNode : Type := mkFileNode {
  node_path : string;
  node_folder : string;
  node_scripts : list Task
}.

(** A [Folder] node: its [workspaceFolder] and its [packages], file node
    objects given by their class and their key in the map of that class. *)
Record Folder : Type := mkFolderNode {
  folder_workspaceFolder : WorkspaceFolder;
  folder_packages : list (FileNodeClass * string)
}.

(** The three maps of [buildTaskTree] with the objects they hold; no entry
    of a map is ever deleted or replaced by another object, so that a key
    stands for one object. *)
Record TaskTree : Type := mkTaskTree {
  tree_folders : list (string * Folder);
  tree_packages : list (string * FileNode);
  tree_vsctasks : list (string * FileNode)
}.

Definition tree_nodes (c : FileNodeClass) (t : TaskTree) : list (string * FileNode) :=
  match c with
  | class_PackageJSON => tree_packages t
  | class_TasksJSON => tree_vsctasks t
  end.

(** [node.addScript(script)] *)
Definition addScript (node : FileNode) (each : Task) : FileNode :=
  {| node_path := node_path node; node_folder := node_folder node;
     node_scripts := node_scripts node ++ [each] |}.

(** [folder.addPackage(node)] on the folder object held under [key]. *)
Definition addPackage (folders : list (string * Folder)) (key : string)
    (node : FileNodeClass * string) : list (string * Folder) :=
  match Map_get folders key with
  | Some folder =>
      Map_set folders key
        {| folder_workspaceFolder := folder_workspaceFolder folder;
           folder_packages := folder_packages folder ++ [node] |}
  | None => folders
  end.

(** What [buildTaskTree] asks of its surroundings: [getTaskName] and
    [isWorkspaceFolder] of [tasks.ts], [path.join] on two segments, and
    whether the setting [taskView.enableNpmScripts] is [true]. *)
Record TaskViewHost : Type := mkTaskViewHost {
  getTaskName : string -> string -> string;
  isWorkspaceFolder : WorkspaceFolder -> bool;
  path_join : string -> string -> string;
  enableNpmScripts : bool
}.

Section TaskView.

Variable view : TaskViewHost.

Definition isInstallTask (task : Task) : bool :=
  let fullName := getTaskName view "install" (path (definition task)) in
  String.eqb fullName (name task).

(** The body of [tasks.forEach] in [buildTaskTree]; the counter [taskCt]
    is only logged. *)
Definition buildTaskTree_each (t : TaskTree) (each : Task) : TaskTree :=
  if isWorkspaceFolder view (scope each) && negb (isInstallTask each) then
    let key := folder_name (scope each) in
    let folders :=
      match Map_get (tree_folders t) key with
      | Some _ => tree_folders t
      | None =>
          Map_set (tree_folders t) key
            {| folder_workspaceFolder := scope each; folder_packages := [] |}
      end in
    if String.eqb (source each) "npm" && enableNpmScripts view then
      let relativePath := path (definition each) in
      let fullPath := path_join view (folder_name (scope each)) relativePath in
      match Map_get (tree_packages t) fullPath with
      | Some packageJson =>
          {| tree_folders := folders;
             tree_packages :=
               Map_set (tree_packages t) fullPath (addScript packageJson each);
             tree_vsctasks := tree_vsctasks t |}
      | None =>
          let packageJson :=
            {| node_path := relativePath; node_folder := key; node_scripts := [] |} in
          {| tree_folders := addPackage folders key (class_PackageJSON, fullPath);
             tree_packages :=
               Map_set (tree_packages t) fullPath (addScript packageJson each);
             tree_vsctasks := tree_vsctasks t |}
      end
    else if String.eqb (source each) "Workspace"
            && String.eqb (type (definition each)) "shell" then
      let relativePath :=
        if String.eqb (path (definition each)) "" then ".vscode"
        else path (definition each) in
      let fullPath := path_join view (folder_name (scope each)) relativePath in
      match Map_get (tree_vsctasks t) fullPath with
      | Some packageJson =>
          {| tree_folders := folders;
             tree_packages := tree_packages t;
             tree_vsctasks :=
               Map_set (tree_vsctasks t) fullPath (addScript packageJson each) |}
      | None =>
          let packageJson :=
            {| node_path := relativePath; node_folder := key; node_scripts := [] |} in
          {| tree_folders := addPackage folders key (class_TasksJSON, fullPath);
             tree_packages := tree_packages t;
             tree_vsctasks :=
               Map_set (tree_vsctasks t) fullPath (addScript packageJson each) |}
      end
    else
      {| tree_folders := folders; tree_packages := tree_packages t;
         tree_vsctasks := tree_vsctasks t |}
  else t.

(** [buildTaskTree(tasks)]: the folder nodes it returns are the values of
    [tree_folders], in order; the file nodes they refer to are kept beside
    them.  The constructors of the nodes also set labels, icons, commands
    and tooltips, which the shape of the tree does not depend on. *)
Definition buildTaskTree (tasks : list Task) : TaskTree :=
  fold_left buildTaskTree_each tasks
    {| tree_folders := []; tree_packages := []; tree_vsctasks := [] |}.

(** The file node a task that is shown goes under, if any: its class, its
    relative path and its key. *)
Definition file_node_of (each : Task) : option (FileNodeClass * string * string) :=
  if String.eqb (source each) "npm" && enableNpmScripts view then
    let relativePath := path (definition each) in
    Some (class_PackageJSON, relativePath,
          path_join view (folder_name (scope each)) relativePath)
  else if String.eqb (source each) "Workspace"
          && String.eqb (type (definition each)) "shell" then
    let relativePath :=
      if String.eqb (path (definition each)) "" then ".vscode"
      else path (definition each) in
    Some (class_TasksJSON, relativePath,
          path_join view (folder_name (scope each)) relativePath)
  else None.

(** What [buildTaskTree_each] does with a task that has a file node. *)
Definition add_under (t : TaskTree) (each : Task) (c : FileNodeClass)
    (relativePath fullPath : string) (folders : list (string * Folder)) : TaskTree :=
  let key := folder_name (scope each) in
  let found := Map_get (tree_nodes c t) fullPath in
  let folders :=
    match found with
    | Some _ => folders
    | None => addPackage folders key (c, fullPath)
    end in
  let packageJson :=
    match found with
    | Some packageJson => packageJson
    | None => {| node_path := relativePath; node_folder := key; node_scripts := [] |}
    end in
  let nodes := Map_set (tree_nodes c t) fullPath (addScript packageJson each) in
  match c with
  | class_PackageJSON =>
      {| tree_folders := folders; tree_packages := nodes; tree_vsctasks := tree_vsctasks t |}
  | class_TasksJSON =>
      {| tree_folders := folders; tree_packages := tree_packages t; tree_vsctasks := nodes |}
  end.

(** The tasks that go under the file node of class [c] and key [k]. *)
Definition tasks_under (c : FileNodeClass) (k : string) (tasks : list Task) : list Task :=
  List.filter
    (fun each =>
       isWorkspaceFolder view (scope each) && negb (isInstallTask each)
       && match file_node_of each with
          | Some (c', _, fullPath) => bool_decide (c' = c) && String.eqb fullPath k
          | None => false
          end)
    tasks.

End TaskView.

(** The tree is well formed: every file node is listed among the packages of
    the folder it has as [folder]; every entry of the packages of a folder
    is a file node with that folder as [folder]; and no folder lists a node
    twice. *)
Definition well_formed_tree (t : TaskTree) : Prop :=
  (forall c k node,
      Map_get (tree_nodes c t) k = Some node ->
      exists folder,
        Map_get (tree_folders t) (node_folder node) = Some folder
        /\ In (c, k) (folder_packages folder))
  /\ (forall key folder c k,
        Map_get (tree_folders t) key = Some folder ->
        In (c, k) (folder_packages folder) ->
        exists node, Map_get (tree_nodes c t) k = Some node /\ node_folder node = key)
  /\ (forall key folder,
        Map_get (tree_folders t) key = Some folder ->
        List.NoDup (folder_packages folder)).

(** * Properties *)

(** ** Plain objects *)

Lemma own_get_own_set (k k' : string) (v : JSValue) (props : list (string * JSValue)) :
  own_get k (own_set k' v props) = if String.eqb k k' then Some v else own_get k props.
Proof.
  induction props as [|[k0 v0] rest IH]; simpl.
  - reflexivity.
  - destruct (String.eqb_spec k' k0) as [->|Hne]; simpl.
    + destruct (String.eqb k k0); reflexivity.
    + destruct (String.eqb_spec k k0) as [->|Hne'].
      * destruct (String.eqb_spec k0 k') as [->|_]; [contradiction|reflexivity].
      * exact IH.
Qed.

Lemma js_get_own_js_set (o : JSObject) (k k' : string) (v : JSValue) :
  k' <> "__proto__" ->
  js_get_own (js_set o k' v) k = if String.eqb k k' then Some v else js_get_own o k.
Proof.
  intros Hne. unfold js_get_own, js_set.
  destruct (String.eqb_spec k' "__proto__") as [->|_]; [contradiction|].
  simpl. apply own_get_own_set.
Qed.

Lemma own_set_keys (k : string) (v : JSValue) (props : list (string * JSValue)) :
  map fst (own_set k v props) =
  if bool_decide (k ∈ map fst props) then map fst props else map fst props ++ [k].
Proof.
  induction props as [|[k0 v0] rest IH]; simpl.
  - reflexivity.
  - destruct (String.eqb_spec k k0) as [->|Hne]; simpl.
    + rewrite bool_decide_eq_true_2; [reflexivity|]. apply list_elem_of_here.
    + rewrite IH. destruct (bool_decide (k ∈ map fst rest)) eqn:E.
      * apply bool_decide_eq_true_1 in E.
        rewrite bool_decide_eq_true_2; [reflexivity|]. apply list_elem_of_further, E.
      * apply bool_decide_eq_false_1 in E.
        rewrite bool_decide_eq_false_2; [reflexivity|].
        intros Hin. apply elem_of_cons in Hin as [?|?]; [contradiction|]. apply E. exact H.
Qed.

Lemma own_set_NoDup (k : string) (v : JSValue) (props : list (string * JSValue)) :
  NoDup (map fst props) -> NoDup (map fst (own_set k v props)).
Proof.
  intros H. rewrite own_set_keys. destruct (bool_decide (k ∈ map fst props)) eqn:E.
  - exact H.
  - apply bool_decide_eq_false_1 in E. apply NoDup_app. split; [exact H|]. split.
    + intros x Hx Hin. apply list_elem_of_singleton in Hin as ->. apply E, Hx.
    + apply NoDup_singleton.
Qed.

Lemma js_set_NoDup (o : JSObject) (k : string) (v : JSValue) :
  NoDup (map fst (own o)) -> NoDup (map fst (own (js_set o k v))).
Proof.
  intros H. unfold js_set.
  destruct (String.eqb k "__proto__" && has_Object_prototype o).
  - destruct v; exact H.
  - simpl. apply own_set_NoDup, H.
Qed.

Lemma own_get_is_Some (k : string) (props : list (string * JSValue)) :
  is_Some (own_get k props) <-> In k (map fst props).
Proof.
  induction props as [|[k0 v0] rest IH]; simpl.
  - split; [intros [v H]; discriminate H|contradiction].
  - destruct (String.eqb_spec k k0) as [->|Hne].
    + split; [intros _; left; reflexivity|intros _; eexists; reflexivity].
    + rewrite IH. split; [intros H; right; exact H|].
      intros [H|H]; [congruence|exact H].
Qed.

Lemma insert_by_index_perm (x : N * string) (l : list (N * string)) :
  Permutation (insert_by_index x l) (x :: l).
Proof.
  induction l as [|y l IH]; simpl; [reflexivity|].
  destruct (fst x <=? fst y)%N; [reflexivity|].
  rewrite IH. apply perm_swap.
Qed.

Lemma sort_by_index_perm (l : list (N * string)) : Permutation (sort_by_index l) l.
Proof.
  induction l as [|x l IH]; simpl; [reflexivity|].
  rewrite insert_by_index_perm, IH. reflexivity.
Qed.

Lemma index_and_string_keys (ks : list string) :
  Permutation (map snd (index_keys ks) ++ string_keys ks) ks.
Proof.
  induction ks as [|k ks IH]; simpl; [reflexivity|].
  unfold index_keys, string_keys in *. simpl.
  destruct (array_index k) as [n|]; simpl.
  - apply perm_skip, IH.
  - rewrite <- Permutation_middle. apply perm_skip, IH.
Qed.

(** [Object.keys] lists every own key once. *)
Lemma Object_keys_perm (o : JSObject) : Permutation (Object_keys o) (map fst (own o)).
Proof.
  unfold Object_keys. rewrite sort_by_index_perm. apply index_and_string_keys.
Qed.

(** The keys [readYarnfile] walks through are the names bound in the object. *)
Lemma Object_keys_bound (o : JSObject) (k : string) :
  In k (Object_keys o) <-> is_Some (js_get_own o k).
Proof.
  unfold js_get_own. rewrite own_get_is_Some. split; intros H.
  - eapply Permutation_in; [apply Object_keys_perm|exact H].
  - eapply Permutation_in; [symmetry; apply Object_keys_perm|exact H].
Qed.

(** ** The visitor, one callback at a time *)

Lemma visit_app (a b : list Event) (s : Visitor) :
  visit (a ++ b) s = visit b (visit a s).
Proof. unfold visit. apply fold_left_app. Qed.

Lemma visit_cons (e : Event) (evs : list Event) (s : Visitor) :
  visit (e :: evs) s = visit evs (handle s e).
Proof. reflexivity. Qed.

Lemma visit_snoc (evs : list Event) (e : Event) (s : Visitor) :
  visit (evs ++ [e]) s = handle (visit evs s) e.
Proof. rewrite visit_app. reflexivity. Qed.

Lemma reported_properties_app (a b : list Event) :
  reported_properties (a ++ b) = reported_properties a ++ reported_properties b.
Proof. unfold reported_properties. apply flat_map_app. Qed.

(** How one callback changes [inScripts]. *)
Lemma inScripts_handle (s : Visitor) (e : Event) :
  inScripts (handle s e) =
  match e with
  | onObjectProperty property _ _ => String.eqb property "scripts" || inScripts s
  | onObjectEnd => false
  | _ => inScripts s
  end.
Proof.
  destruct e as [| |value offset len|property offset len|c]; simpl; try reflexivity.
  - unfold visitor_onObjectEnd. destruct (inScripts s) eqn:E; simpl; congruence.
  - unfold visitor_onLiteralValue. destruct (inScripts s) eqn:E; simpl; [exact E|].
    destruct (truthy (inTaskLabel s)); simpl; [|exact E].
    destruct (typeof_is_string value); simpl; [|exact E].
    destruct (bool_decide (inTaskLabel s = Some "label")); simpl; exact E.
  - unfold visitor_onObjectProperty.
    destruct (String.eqb property "scripts"); simpl; [reflexivity|].
    destruct (inScripts s) eqn:E; simpl; [exact E|].
    destruct (String.eqb property "tasks"); simpl.
    { destruct (truthy (inTaskLabel s)); simpl; exact E. }
    destruct (String.eqb property "label" && inTasks s && negb (truthy (inTaskLabel s)));
      simpl; exact E.
Qed.


Lemma visit_skip_unhandled (pre post : list Event) (c : Unhandled) (s : Visitor) :
  visit (pre ++ unhandled c :: post) s = visit (pre ++ post) s.
Proof. rewrite !visit_app. reflexivity. Qed.

(** The trace law of [inScripts]: after a scan the flag is up exactly when it
    was up at the start and no object has closed, or a property named
    "scripts" was reported and no object has closed since. *)
Lemma inScripts_visit (evs : list Event) (s : Visitor) :
  inScripts (visit evs s) = true <->
  (inScripts s = true /\ ~ In onObjectEnd evs) \/
  (exists pre offset len post,
      evs = pre ++ onObjectProperty "scripts" offset len :: post
      /\ ~ In onObjectEnd post).
Proof.
  revert s. induction evs as [|e evs IH]; intros s.
  - simpl. split.
    + intros H. left. split; [exact H|tauto].
    + intros [[H _]|(pre & offset & len & post & H & _)]; [exact H|].
      destruct pre; discriminate.
  - rewrite visit_cons, IH, inScripts_handle. split.
    + intros [[H Hno]|(pre & offset & len & post & -> & Hno)].
      * destruct e as [| |value offset len|property offset len|c];
          try discriminate;
          try (left; split; [exact H|simpl; intros [?|?]; [discriminate|tauto]]).
        destruct (String.eqb_spec property "scripts") as [->|Hne].
        -- right. exists [], offset, len, evs. split; [reflexivity|exact Hno].
        -- simpl in H. left. split; [exact H|].
           simpl; intros [?|?]; [discriminate|tauto].
      * right. exists (e :: pre), offset, len, post. split; [reflexivity|exact Hno].
    + intros [[H Hno]|(pre & offset & len & post & Heq & Hno)].
      * left. split.
        -- destruct e as [| |value offset len|property offset len|c]; try exact H.
           ++ exfalso. apply Hno. left. reflexivity.
           ++ rewrite H. apply orb_true_r.
        -- intros Hin. apply Hno. right. exact Hin.
      * destruct pre as [|e' pre]; simpl in Heq; injection Heq as -> ->.
        -- left. split; [reflexivity|exact Hno].
        -- right. exists pre, offset, len, post. split; [reflexivity|exact Hno].
Qed.

(** ** The span of the "scripts" context *)

(** C2, amended: from the initial state, [inScripts] is up after a scan
    exactly when a property named "scripts" has been reported, at whatever
    nesting level, and no object of any level has closed since. *)
Theorem inScripts_until_next_object_end (evs : list Event) :
  inScripts (visit evs initial_visitor) = true <->
  exists pre offset len post,
    evs = pre ++ onObjectProperty "scripts" offset len :: post
    /\ ~ In onObjectEnd post.
Proof.
  rewrite inScripts_visit. split.
  - intros [[H _]|H]; [discriminate H|exact H].
  - intros H. right. exact H.
Qed.

(** C2 as stated fails: when the object nested under "a" closes, the visitor
    leaves the scripts context although the scripts object is still open, and
    the script "d" that follows is not bound; and a "scripts" property two
    levels down raises the flag. *)
Lemma inScripts_not_one_nesting_level :
  (spec_inScripts (firstn 11 (json_events nested_in_scripts)) = true
   /\ inScripts (visit (firstn 11 (json_events nested_in_scripts)) initial_visitor) = false
   /\ own (extract (json_events nested_in_scripts)) = [("b", VString "c")])
  /\ (spec_inScripts (firstn 7 (json_events scripts_below_top)) = false
      /\ inScripts (visit (firstn 7 (json_events scripts_below_top)) initial_visitor) = true
      /\ own (extract (json_events scripts_below_top)) = [("k", VString "v")]).
Proof. repeat split; vm_compute; reflexivity. Qed.

(** ** Reading the text *)


(** ** A "tasks" array with labels *)

(** C1 fails on the code: the label branch of [onLiteralValue] stores the
    label under the key held by [script], which the "tasks" path never
    assigns, so every label lands on the one key "undefined" as its value and
    the later label replaces the earlier. *)
Theorem labels_bound_under_undefined (label1 label2 : string) :
  extract (json_events (two_labelled_tasks label1 label2))
  = {| has_Object_prototype := true; own := [("undefined", VString label2)] |}
  /\ Object_keys (extract (json_events (two_labelled_tasks label1 label2)))
     = ["undefined"].
Proof. split; reflexivity. Qed.

Lemma visit_scan_items_cons (first : bool) (v : JSON) (rest : list JSON) (s : Visitor) :
  visit (scan_items json_events first (v :: rest)) s
  = visit (scan_items json_events false rest) (visit (json_events v) s).
Proof.
  simpl. rewrite visit_app.
  assert (visit (if first then [] else [unhandled onSeparator]) s = s) as ->
      by (destruct first; reflexivity).
  rewrite visit_app. reflexivity.
Qed.

(** What one labelled entry does to the visitor inside the "tasks" array: the
    label is stored under the key "undefined". *)
Lemma visit_labelled_task (e : string * (Z * Z) * (Z * Z)) (s : Visitor) :
  inScripts s = false -> inTasks s = true -> inTaskLabel s = None -> script s = None ->
  visit (json_events (labelled_task e)) s
  = {| scriptOffset := scriptOffset s; inScripts := false; inTasks := true;
       inTaskLabel := None;
       scripts := js_set (scripts s) "undefined" (VString (fst (fst e)));
       script := None |}.
Proof.
  intros Hs Ht Hl Hk. destruct s as [so is_ it il sc sk]. simpl in *. subst.
  destruct e as [[label lat] vat]. reflexivity.
Qed.

Lemma visit_labelled_tasks (first : bool) (entries : list (string * (Z * Z) * (Z * Z)))
    (s : Visitor) :
  inScripts s = false -> inTasks s = true -> inTaskLabel s = None -> script s = None ->
  scripts (visit (scan_items json_events first (map labelled_task entries)) s)
  = fold_left (fun o e => js_set o "undefined" (VString (fst (fst e)))) entries (scripts s).
Proof.
  revert first s. induction entries as [|e entries IH]; intros first s Hs Ht Hl Hk.
  - reflexivity.
  - simpl map. rewrite visit_scan_items_cons.
    rewrite (visit_labelled_task e s Hs Ht Hl Hk).
    rewrite IH by reflexivity. reflexivity.
Qed.

Lemma fold_js_set_undefined (entries : list (string * (Z * Z) * (Z * Z))) (o : JSObject)
    (e : string * (Z * Z) * (Z * Z)) :
  (o = empty_object \/ exists v, o = {| has_Object_prototype := true; own := [("undefined", v)] |}) ->
  fold_left (fun o e => js_set o "undefined" (VString (fst (fst e)))) (entries ++ [e]) o
  = {| has_Object_prototype := true; own := [("undefined", VString (fst (fst e)))] |}.
Proof.
  revert o. induction entries as [|e0 entries IH]; intros o Ho.
  - destruct Ho as [->|[v ->]]; reflexivity.
  - simpl. apply IH. right. destruct Ho as [->|[v ->]]; eexists; reflexivity.
Qed.

Lemma labelled_tasks_properties (first : bool)
    (entries : list (string * (Z * Z) * (Z * Z))) :
  ~ In "scripts"
       (reported_properties (scan_items json_events first (map labelled_task entries))).
Proof.
  revert first. induction entries as [|x l IH]; intros first Hp; [contradiction|].
  simpl in Hp. rewrite reported_properties_app in Hp.
  apply in_app_or in Hp as [Hp|Hp].
  - destruct first; simpl in Hp; contradiction.
  - simpl in Hp. destruct Hp as [Hp|Hp]; [discriminate Hp|]. apply (IH false Hp).
Qed.

(** Whatever the number of labelled entries, the object returned has the one
    key "undefined", bound to the label of the last entry. *)
Lemma labels_overwrite_one_key (at_ : Z * Z) (entries : list (string * (Z * Z) * (Z * Z)))
    (e : string * (Z * Z) * (Z * Z)) :
  extract (json_events (tasks_document at_ (entries ++ [e])))
  = {| has_Object_prototype := true; own := [("undefined", VString (fst (fst e)))] |}.
Proof.
  unfold extract, tasks_document.
  assert (Hev : json_events
                  (JObject [("tasks", at_, JArray (map labelled_task (entries ++ [e])))])
                = [unhandled onObjectBegin; onObjectProperty "tasks" (fst at_) (snd at_);
                   unhandled onSeparator; unhandled onArrayBegin]
                  ++ scan_items json_events true (map labelled_task (entries ++ [e]))
                  ++ [unhandled onArrayEnd; onObjectEnd]).
  { cbn [json_events scan_members]. simpl app at 1. rewrite app_nil_r.
    simpl. rewrite <- app_assoc. reflexivity. }
  rewrite Hev, visit_app, visit_app.
  set (s0 := visit [unhandled onObjectBegin; _; _; _] initial_visitor).
  assert (Hsc : scripts (visit (scan_items json_events true
                                  (map labelled_task (entries ++ [e]))) s0)
                = {| has_Object_prototype := true;
                     own := [("undefined", VString (fst (fst e)))] |}).
  { rewrite visit_labelled_tasks by reflexivity.
    apply fold_js_set_undefined. left. reflexivity. }
  assert (Hin : inScripts (visit (scan_items json_events true
                                  (map labelled_task (entries ++ [e]))) s0) = false).
  { apply not_true_is_false. intros H. apply inScripts_visit in H.
    destruct H as [[H _]|(pre & offset & len & post & H & _)]; [discriminate H|].
    assert (Hp : In "scripts" (reported_properties
                  (scan_items json_events true (map labelled_task (entries ++ [e]))))).
    { rewrite H, reported_properties_app. apply in_or_app. right. left. reflexivity. }
    exact (labelled_tasks_properties _ _ Hp). }
  cbn [visit fold_left handle]. unfold visitor_onObjectEnd.
  fold (visit (scan_items json_events true (map labelled_task (entries ++ [e]))) s0).
  rewrite Hin. exact Hsc.
Qed.

(** ** A "scripts" block *)

(** The keys of the object under construction stay distinct. *)
Lemma handle_NoDup (s : Visitor) (e : Event) :
  NoDup (map fst (own (scripts s))) -> NoDup (map fst (own (scripts (handle s e)))).
Proof.
  intros H. destruct e as [| |value offset len|property offset len|c]; simpl; try exact H.
  - unfold visitor_onObjectEnd. destruct (inScripts s); exact H.
  - unfold visitor_onLiteralValue. destruct (inScripts s); simpl.
    + apply js_set_NoDup, H.
    + destruct (truthy (inTaskLabel s)); [|exact H].
      destruct (typeof_is_string value); [|exact H].
      destruct (bool_decide (inTaskLabel s = Some "label")); simpl; [|exact H].
      apply js_set_NoDup, H.
  - unfold visitor_onObjectProperty.
    destruct (String.eqb property "scripts"); [exact H|].
    destruct (inScripts s); [exact H|].
    destruct (String.eqb property "tasks").
    { simpl. destruct (truthy (inTaskLabel s)); exact H. }
    destruct (String.eqb property "label" && inTasks s && negb (truthy (inTaskLabel s)));
      exact H.
Qed.

Lemma visit_NoDup (evs : list Event) (s : Visitor) :
  NoDup (map fst (own (scripts s))) -> NoDup (map fst (own (scripts (visit evs s)))).
Proof.
  revert s. induction evs as [|e evs IH]; intros s H; [exact H|].
  rewrite visit_cons. apply IH, handle_NoDup, H.
Qed.

Lemma extract_NoDup (evs : list Event) : NoDup (map fst (own (extract evs))).
Proof. apply visit_NoDup. simpl. apply NoDup_nil_2. Qed.

(** The [,] separator a member is preceded by has no handler, so whether a
    member is first makes no difference to the visitor. *)
Lemma visit_scan_members_cons (first : bool) (k : string) (sp : Z * Z) (v : JSON)
    (rest : list (string * (Z * Z) * JSON)) (s : Visitor) :
  visit (scan_members json_events first ((k, sp, v) :: rest)) s =
  visit (scan_members json_events false rest)
        (visit (json_events v) (handle s (onObjectProperty k (fst sp) (snd sp)))).
Proof.
  simpl. rewrite visit_app.
  assert (visit (if first then [] else [unhandled onSeparator]) s = s) as ->
      by (destruct first; reflexivity).
  rewrite !visit_cons. simpl handle at 2. rewrite visit_app. reflexivity.
Qed.

Lemma visit_scan_members_first (b1 b2 : bool) (ms : list (string * (Z * Z) * JSON))
    (s : Visitor) :
  visit (scan_members json_events b1 ms) s = visit (scan_members json_events b2 ms) s.
Proof.
  destruct ms as [|[[k sp] v] rest]; [reflexivity|].
  rewrite !visit_scan_members_cons. reflexivity.
Qed.

Lemma visit_scan_members_app (first : bool) (a b : list (string * (Z * Z) * JSON))
    (s : Visitor) :
  visit (scan_members json_events first (a ++ b)) s =
  visit (scan_members json_events false b) (visit (scan_members json_events first a) s).
Proof.
  revert first s. induction a as [|[[k sp] v] a IH]; intros first s.
  - simpl. apply visit_scan_members_first.
  - rewrite <- app_comm_cons, !visit_scan_members_cons. apply IH.
Qed.

Lemma reported_properties_members (first : bool) (ms : list (string * (Z * Z) * JSON)) :
  reported_properties (json_events (JObject ms)) =
  reported_properties (scan_members json_events first ms).
Proof.
  simpl. rewrite reported_properties_app. simpl. rewrite app_nil_r.
  destruct ms as [|[[k sp] v] rest]; [reflexivity|].
  cbn [scan_members]. rewrite !reported_properties_app. destruct first; reflexivity.
Qed.

(** Outside both dialects nothing moves: with the three flags down, a scan
    that reports no "scripts" and no "tasks" property leaves the visitor as it
    found it. *)
Lemma visit_no_dialect (evs : list Event) (s : Visitor) :
  Forall (fun p => p <> "scripts" /\ p <> "tasks") (reported_properties evs) ->
  inScripts s = false -> inTasks s = false -> inTaskLabel s = None ->
  visit evs s = s.
Proof.
  revert s. induction evs as [|e evs IH]; intros s Hq Hs Ht Hl; [reflexivity|].
  rewrite visit_cons.
  assert (handle s e = s) as ->.
  { destruct e as [| |value offset len|property offset len|c]; simpl; try reflexivity.
    - unfold visitor_onObjectEnd. rewrite Hs. reflexivity.
    - unfold visitor_onLiteralValue. rewrite Hs, Hl. reflexivity.
    - simpl in Hq. apply Forall_cons in Hq as [[Hp1 Hp2] _].
      unfold visitor_onObjectProperty.
      apply String.eqb_neq in Hp1, Hp2. rewrite Hp1, Hs, Hp2, Ht.
      rewrite andb_false_r. simpl.
      destruct s; simpl in *; subst; reflexivity. }
  apply IH; try assumption.
  destruct e; simpl in Hq; try exact Hq. apply Forall_cons in Hq as [_ Hq]. exact Hq.
Qed.

Lemma visit_script_members (first : bool) (entries : list ScriptEntry) (s : Visitor) :
  Forall (fun e => entry_name e <> "scripts") entries ->
  inScripts s = true ->
  visit (scan_members json_events first (map script_member entries)) s
  = fold_left bind_entry entries s.
Proof.
  revert first s. induction entries as [|e entries IH]; intros first s Hn Hs.
  - reflexivity.
  - apply Forall_cons in Hn as [Hne Hn]. simpl map. unfold script_member at 1.
    rewrite visit_scan_members_cons. simpl fold_left.
    assert (visit
              (json_events
                 (JLiteral (VString (entry_body e)) (fst (entry_body_at e))
                    (snd (entry_body_at e))))
              (handle s (onObjectProperty (entry_name e) (fst (entry_name_at e))
                           (snd (entry_name_at e))))
            = bind_entry s e) as ->.
    { simpl. unfold visitor_onObjectProperty, visitor_onLiteralValue.
      apply String.eqb_neq in Hne. rewrite Hne, Hs. simpl. rewrite Hs. reflexivity. }
    apply IH; [exact Hn|]. simpl. exact Hs.
Qed.

Lemma fold_bind_entry_flags (entries : list ScriptEntry) (s : Visitor) :
  inScripts (fold_left bind_entry entries s) = inScripts s
  /\ inTasks (fold_left bind_entry entries s) = inTasks s
  /\ inTaskLabel (fold_left bind_entry entries s) = inTaskLabel s.
Proof.
  revert s. induction entries as [|e entries IH]; intros s; [auto|].
  simpl. destruct (IH (bind_entry s e)) as (H1 & H2 & H3).
  rewrite H1, H2, H3. auto.
Qed.

Lemma fold_bind_entry_scripts (entries : list ScriptEntry) (s : Visitor) :
  scripts (fold_left bind_entry entries s)
  = fold_left (fun o e => js_set o (entry_name e) (VString (entry_body e)))
              entries (scripts s).
Proof.
  revert s. induction entries as [|e entries IH]; intros s; [reflexivity|].
  simpl. rewrite IH. reflexivity.
Qed.

Lemma fold_js_set_lookup (entries : list ScriptEntry) (o : JSObject) (k : string) :
  Forall (fun e => entry_name e <> "__proto__") entries ->
  js_get_own
    (fold_left (fun o e => js_set o (entry_name e) (VString (entry_body e))) entries o) k
  = match last_body k entries with
    | Some b => Some (VString b)
    | None => js_get_own o k
    end.
Proof.
  revert o. induction entries as [|e entries IH]; intros o Hn; [reflexivity|].
  apply Forall_cons in Hn as [Hne Hn]. simpl. rewrite IH by exact Hn.
  destruct (last_body k entries); [reflexivity|].
  rewrite js_get_own_js_set by exact Hne.
  destruct (String.eqb k (entry_name e)); reflexivity.
Qed.

(** The object [findTargets] builds from a scripts-style document. *)
Lemma extract_scripts_document (before : list (string * (Z * Z) * JSON)) (at_ : Z * Z)
    (entries : list ScriptEntry) (after : list (string * (Z * Z) * JSON)) :
  no_dialect_property before ->
  no_dialect_property after ->
  Forall (fun e => entry_name e <> "scripts") entries ->
  extract (json_events (scripts_document before at_ entries after))
  = fold_left (fun o e => js_set o (entry_name e) (VString (entry_body e)))
              entries empty_object.
Proof.
  intros Hb Ha Hn. unfold extract, scripts_document, no_dialect_property in *.
  rewrite (reported_properties_members true) in Hb.
  rewrite (reported_properties_members false) in Ha.
  cbn [json_events]. rewrite visit_cons, visit_snoc. simpl handle at 2.
  rewrite visit_scan_members_app, visit_scan_members_cons.
  rewrite (visit_no_dialect _ _ Hb) by reflexivity.
  cbn [json_events]. rewrite visit_cons, visit_snoc.
  rewrite visit_script_members by (exact Hn || reflexivity).
  set (s1 := fold_left bind_entry entries _).
  destruct (fold_bind_entry_flags entries
              (handle (handle initial_visitor (onObjectProperty "scripts" (fst at_) (snd at_)))
                      (unhandled onObjectBegin))) as (F1 & F2 & F3).
  fold s1 in F1, F2, F3. simpl in F1, F2, F3.
  assert (handle s1 onObjectEnd = set_inScripts false s1) as ->.
  { simpl. unfold visitor_onObjectEnd. rewrite F1. reflexivity. }
  rewrite (visit_no_dialect _ _ Ha) by (simpl; first [reflexivity|assumption]).
  simpl. unfold visitor_onObjectEnd. simpl.
  unfold s1. rewrite fold_bind_entry_scripts. reflexivity.
Qed.

(** C3, amended: for a scripts-style document whose script names are neither
    "scripts" nor "__proto__", the object returned has, for every name, the
    body of the last script of that name in document order, nothing for a
    name that is no script, and a single entry per name. *)
Theorem scripts_block_last_wins (before : list (string * (Z * Z) * JSON)) (at_ : Z * Z)
    (entries : list ScriptEntry) (after : list (string * (Z * Z) * JSON)) :
  no_dialect_property before ->
  no_dialect_property after ->
  Forall (fun e => entry_name e <> "scripts" /\ entry_name e <> "__proto__") entries ->
  (forall k,
      js_get_own (extract (json_events (scripts_document before at_ entries after))) k
      = VString <$> last_body k entries)
  /\ NoDup (map fst (own (extract (json_events (scripts_document before at_ entries after))))).
Proof.
  intros Hb Ha Hn. split; [|apply extract_NoDup].
  intros k. rewrite extract_scripts_document; try assumption.
  - rewrite fold_js_set_lookup.
    + destruct (last_body k entries); reflexivity.
    + eapply Forall_impl; [exact Hn|]. simpl. tauto.
  - eapply Forall_impl; [exact Hn|]. simpl. tauto.
Qed.

Lemma scripts_block_last_wins_witness :
  js_get_own
    (extract (json_events (scripts_document sample_before (17, 9)%Z sample_entries
                             sample_after))) "build"
  = Some (VString "tsc").
Proof.
  refine (proj1 (scripts_block_last_wins sample_before (17, 9)%Z sample_entries
                   sample_after _ _ _) "build").
  - unfold no_dialect_property. simpl. repeat constructor; discriminate.
  - unfold no_dialect_property. simpl. repeat constructor; discriminate.
  - unfold sample_entries. repeat constructor; simpl; discriminate.
Defined.

(** C3 as stated fails: a script named "scripts" inside the scripts block
    takes the first branch of [onObjectProperty], so [script] keeps the
    previous name and the body of "scripts" overwrites that script's body. *)
Lemma script_named_scripts_not_bound :
  ~ (forall before at_ entries after,
        no_dialect_property before ->
        no_dialect_property after ->
        forall k,
          js_get_own (extract (json_events (scripts_document before at_ entries after))) k
          = VString <$> last_body k entries).
Proof.
  intros H.
  specialize (H [] (1, 9)%Z
                [mkEntry "build" (13, 7)%Z "tsc" (22, 5)%Z;
                 mkEntry "scripts" (29, 9)%Z "ls" (40, 4)%Z] []).
  assert (no_dialect_property []) as Hq by (unfold no_dialect_property; simpl; constructor).
  specialize (H Hq Hq "build"). vm_compute in H. discriminate H.
Qed.

(** The name "__proto__" is left out of the amended statement: on an object
    that still has its prototype the assignment reaches the inherited setter
    and creates no own property. *)
Example script_named_proto :
  own (extract (json_events
                  (scripts_document [] (1, 9)%Z
                     [mkEntry "__proto__" (13, 11)%Z "ls" (26, 4)%Z] [])))
  = [].
Proof. reflexivity. Qed.

(** ** Malformed text: the scan after an error *)





(** ** Strings and paths: laws *)

Lemma chars_append (a b : string) : chars (a ++ b)%string = chars a ++ chars b.
Proof.
  unfold chars. induction a as [|c a IH]; simpl; [reflexivity|].
  rewrite IH. reflexivity.
Qed.

Lemma str_chars (s : string) : str (chars s) = s.
Proof. apply string_of_list_ascii_of_string. Qed.

Lemma chars_str (cs : list ascii) : chars (str cs) = cs.
Proof. apply list_ascii_of_string_of_list_ascii. Qed.

Lemma length_chars (s : string) : List.length (chars s) = String.length s.
Proof.
  unfold chars. induction s as [|c s IH]; simpl; [reflexivity|].
  rewrite IH. reflexivity.
Qed.

Lemma lastIndexOf_from_no_slash (i last : Z) (cs : list ascii) :
  Forall (fun c => c <> slash) cs -> lastIndexOf_from i last cs = last.
Proof.
  revert i last. induction cs as [|c cs IH]; intros i last H; [reflexivity|].
  apply Forall_cons in H as [Hc H]. simpl.
  apply Ascii.eqb_neq in Hc. rewrite Hc. apply IH, H.
Qed.

Lemma lastIndexOf_from_app (i last : Z) (a b : list ascii) :
  lastIndexOf_from i last (a ++ b)
  = lastIndexOf_from (i + Z.of_nat (List.length a)) (lastIndexOf_from i last a) b.
Proof.
  revert i last. induction a as [|c a IH]; intros i last.
  - simpl. rewrite Z.add_0_r. reflexivity.
  - simpl app. cbn [lastIndexOf_from]. rewrite IH. f_equal. simpl List.length. lia.
Qed.

(** The last slash of a path that ends in a slash-free file name is the one
    before that name. *)
Lemma lastIndexOf_slash_before_file (prefix file : string) :
  no_slash file ->
  lastIndexOf_slash ((prefix ++ "/") ++ file)%string = Z.of_nat (String.length prefix).
Proof.
  intros Hf. unfold lastIndexOf_slash. rewrite !chars_append, <- app_assoc.
  rewrite lastIndexOf_from_app. simpl chars at 2. simpl app.
  cbn [lastIndexOf_from]. rewrite Ascii.eqb_refl.
  rewrite lastIndexOf_from_no_slash by exact Hf.
  rewrite length_chars. lia.
Qed.

Lemma js_substring_prefix (a b : string) :
  js_substring (a ++ b)%string 0 (Z.of_nat (String.length a)) = a.
Proof.
  unfold js_substring, clamp. rewrite <- !length_chars, chars_append, length_app.
  rewrite Z.max_id, Z.min_l by lia. simpl Z.to_nat at 1 3.
  rewrite Z.max_l, Z.min_l by lia. rewrite Nat2Z.id.
  rewrite Nat.max_r, Nat.min_l by lia. rewrite Nat.sub_0_r. simpl skipn.
  change (Z.to_nat 0) with 0%nat. rewrite drop_0, take_app_length. apply str_chars.
Qed.

Lemma js_substring_from_suffix (a b : string) :
  js_substring_from (a ++ b)%string (Z.of_nat (String.length a)) = b.
Proof.
  unfold js_substring_from, js_substring, clamp.
  rewrite <- !length_chars, chars_append, length_app.
  rewrite Z.max_l, Z.min_l by lia. rewrite Z.max_l, Z.min_r by lia.
  rewrite !Nat2Z.id. rewrite Nat.max_r, Nat.min_l by lia.
  rewrite drop_app_length.
  replace (List.length (chars a) + List.length (chars b) - List.length (chars a))%nat
    with (List.length (chars b)) by lia.
  rewrite firstn_all. apply str_chars.
Qed.

Lemma drop_slashes_segment (l rest : list ascii) :
  Forall (fun c => c <> slash) l -> l <> [] -> drop_slashes (l ++ rest) = l ++ rest.
Proof.
  intros H Hne. destruct l as [|c l]; [contradiction|].
  apply Forall_cons in H as [Hc _]. simpl. apply Ascii.eqb_neq in Hc. rewrite Hc. reflexivity.
Qed.

Lemma drop_segment_slash (l rest : list ascii) :
  Forall (fun c => c <> slash) l -> drop_segment (l ++ slash :: rest) = slash :: rest.
Proof.
  induction l as [|c l IH]; intros H.
  - reflexivity.
  - apply Forall_cons in H as [Hc H]. simpl. apply Ascii.eqb_neq in Hc. rewrite Hc.
    apply IH, H.
Qed.

Lemma drop_segment_all (l : list ascii) :
  Forall (fun c => c <> slash) l -> drop_segment l = [].
Proof.
  induction l as [|c l IH]; intros H; [reflexivity|].
  apply Forall_cons in H as [Hc H]. simpl. apply Ascii.eqb_neq in Hc. rewrite Hc.
  apply IH, H.
Qed.

(** [path.dirname] of a directory path, a slash and a file name is the
    directory; for a file directly under the root it is the root. *)
Lemma dirname_of_file (dir file : string) :
  file <> "" -> no_slash file -> dir <> "/" ->
  dirname ((dir ++ "/") ++ file)%string = if String.eqb dir "" then "/" else dir.
Proof.
  intros Hne Hf Hd. unfold dirname. rewrite !chars_append.
  assert (Hrev : Forall (fun c => c <> slash) (rev (chars file))).
  { apply Forall_rev, Hf. }
  assert (Hrne : rev (chars file) <> []).
  { intros E. apply (f_equal (@rev ascii)) in E. rewrite rev_involutive in E. simpl in E.
    apply Hne. rewrite <- (str_chars file), E. reflexivity. }
  destruct dir as [|c0 dt].
  - simpl. rewrite <- (app_nil_r (rev (chars file))) at 1.
    rewrite drop_slashes_segment by assumption. rewrite app_nil_r.
    rewrite drop_segment_all by assumption. reflexivity.
  - simpl String.eqb. cbn [chars list_ascii_of_string app].
    change (list_ascii_of_string dt) with (chars dt).
    change (list_ascii_of_string "/") with [slash]. simpl app.
    rewrite rev_app_distr, (rev_app_distr (chars dt)). simpl rev at 2. simpl app.
    change "/"%char with slash.
    rewrite drop_slashes_segment by assumption.
    rewrite drop_segment_slash by assumption.
    rewrite length_rev, rev_involutive.
    destruct (Ascii.eqb_spec c0 slash) as [->|Hc]; simpl andb.
    + destruct dt as [|c1 dt]; [contradiction Hd; reflexivity|]. simpl.
      change (list_ascii_of_string dt) with (chars dt). rewrite str_chars. reflexivity.
    + simpl. rewrite str_chars. reflexivity.
Qed.

(** ** The materialised task *)

Lemma append_assoc (a b c : string) : ((a ++ b) ++ c)%string = (a ++ b ++ c)%string.
Proof.
  rewrite <- (str_chars ((a ++ b) ++ c)%string), <- (str_chars (a ++ b ++ c)%string).
  rewrite !chars_append, app_assoc. reflexivity.
Qed.

Lemma length_append (a b : string) :
  String.length (a ++ b)%string = (String.length a + String.length b)%nat.
Proof. rewrite <- !length_chars, chars_append. apply length_app. Qed.

(** The relative path recorded for a file [rel ++ file] below the folder
    root, [rel] being empty or a directory path ending in a slash. *)
Lemma getRelativePath_below_root (folder : WorkspaceFolder) (u : Uri) (rel file : string) :
  uri_path u = ((uri_path (folder_uri folder) ++ "/") ++ rel ++ file)%string ->
  no_slash file ->
  rel = "" \/ (exists r, rel = (r ++ "/")%string) ->
  getRelativePath (Some folder) u = rel.
Proof.
  intros Hu Hf Hrel. unfold getRelativePath.
  set (root := uri_path (folder_uri folder)) in *.
  assert (Hidx : (lastIndexOf_slash (uri_path u) + 1
                  = Z.of_nat (String.length ((root ++ "/") ++ rel)%string))%Z).
  { rewrite Hu. destruct Hrel as [->|[r ->]].
    - simpl String.append at 2. rewrite lastIndexOf_slash_before_file by exact Hf.
      rewrite !length_append. simpl. lia.
    - rewrite <- (append_assoc (root ++ "/") (r ++ "/") file).
      rewrite <- (append_assoc (root ++ "/") r "/").
      rewrite lastIndexOf_slash_before_file by exact Hf.
      rewrite !length_append. simpl. lia. }
  rewrite Hidx, Hu, <- (append_assoc (root ++ "/") rel file).
  rewrite js_substring_prefix.
  replace (Z.of_nat (String.length root) + 1)%Z
    with (Z.of_nat (String.length (root ++ "/")%string)).
  2:{ rewrite length_append. simpl. lia. }
  apply js_substring_from_suffix.
Qed.

(** C8, amended: the task materialised for a target has as working directory
    the directory containing the file, as command line the fixed launcher
    "npx", the fixed runner "yarn" and the target name, none of them read
    from the file, and as recorded path the file's directory relative to the
    folder root, empty for a file at the root. *)
Theorem createYarnTask_materialises (id : nat) (target cmd : string)
    (folder : WorkspaceFolder) (u : Uri) (dir rel file : string) :
  fsPath u = ((dir ++ "/") ++ file)%string ->
  dir <> "/" ->
  uri_path u = ((uri_path (folder_uri folder) ++ "/") ++ rel ++ file)%string ->
  rel = "" \/ (exists r, rel = (r ++ "/")%string) ->
  file <> "" ->
  no_slash file ->
  cwd (execution (createYarnTask id target cmd folder u))
  = (if String.eqb dir "" then "/" else dir)
  /\ commandLine (execution (createYarnTask id target cmd folder u))
     = ["npx"; "yarn"; target]
  /\ path (definition (createYarnTask id target cmd folder u)) = rel.
Proof.
  intros Hfs Hd Hu Hrel Hne Hf. split; [|split].
  - simpl. rewrite Hfs. apply dirname_of_file; assumption.
  - reflexivity.
  - unfold createYarnTask. cbv zeta.
    rewrite (getRelativePath_below_root folder u rel file Hu Hf Hrel).
    destruct rel; reflexivity.
Qed.

Lemma createYarnTask_materialises_witness :
  cwd (execution (createYarnTask 0 "build" "build" repo_folder repo_package_json)) = "/repo"
  /\ commandLine (execution (createYarnTask 0 "build" "build" repo_folder repo_package_json))
     = ["npx"; "yarn"; "build"]
  /\ path (definition (createYarnTask 0 "build" "build" repo_folder repo_package_json)) = "".
Proof.
  refine (createYarnTask_materialises 0 "build" "build" repo_folder repo_package_json
            "/repo" "" "package.json" _ _ _ _ _ _).
  - reflexivity.
  - discriminate.
  - reflexivity.
  - left. reflexivity.
  - discriminate.
  - unfold no_slash. simpl. repeat constructor; discriminate.
Defined.

(** C8 as stated fails: no runner binary makes the command line the runner
    followed by the target name, the execution being [npx] given the runner
    and the target as arguments. *)
Lemma commandLine_is_not_runner_and_target :
  ~ (exists runner, forall id target cmd folder u,
        commandLine (execution (createYarnTask id target cmd folder u)) = [runner; target]).
Proof.
  intros [runner H].
  specialize (H 0%nat "build" "build" repo_folder repo_package_json).
  discriminate H.
Qed.

(** Below a workspace folder whose own path ends in a slash the path recorded
    is not the directory relative to the folder: the character after the
    folder's path is taken for the slash and dropped. *)
Lemma relative_path_below_root_folder :
  path (definition (createYarnTask 0 "build" "build" root_folder sub_package_json))
  = "ub/".
Proof. reflexivity. Qed.

(** ** Reading one file *)

Lemma allocate_allocate (n m : nat) (s : Provider) :
  allocate n (allocate m s) = allocate (n + m) s.
Proof. unfold allocate. simpl. f_equal. lia. Qed.

Lemma readYarnfile_each_eq (keys : list string) (folder : WorkspaceFolder) (u : Uri)
    (result : list Task) (s : Provider) :
  readYarnfile_each keys folder u result s
  = (Resolved (result ++ materialise keys folder u (next_task_id s)),
     allocate (List.length keys) s).
Proof.
  revert result s. induction keys as [|each keys IH]; intros result s.
  - simpl. rewrite app_nil_r. unfold mret, Async_ret. f_equal.
    destruct s; reflexivity.
  - simpl. unfold mbind, Async_bind, new_task_id. rewrite IH.
    rewrite <- app_assoc. simpl. rewrite allocate_allocate. f_equal. f_equal. lia.
Qed.

(** The settlement of [readYarnfile] and the state it leaves. *)
Lemma readYarnfile_eq (h : Host) (u : Uri) (s : Provider) :
  readYarnfile h u s =
  match getWorkspaceFolder h u with
  | None => (Resolved [], s)
  | Some folder =>
      match readFile h (fsPath u) with
      | None => (Rejected, record_effect (ReadFile (fsPath u)) s)
      | Some documentText =>
          (Resolved (materialise (Object_keys (extract documentText)) folder u
                       (next_task_id s)),
           allocate (List.length (Object_keys (extract documentText)))
                    (record_effect (ReadFile (fsPath u)) s))
      end
  end.
Proof.
  unfold readYarnfile. destruct (getWorkspaceFolder h u) as [folder|]; [|reflexivity].
  unfold findTargets, util_readFile, mbind, Async_bind, perform.
  destruct (readFile h (fsPath u)) as [documentText|]; [|reflexivity].
  simpl. rewrite readYarnfile_each_eq. reflexivity.
Qed.

Lemma materialise_group (keys : list string) (folder : WorkspaceFolder) (u : Uri) (id : nat) :
  Forall (fun t => group t = Some Build) (materialise keys folder u id).
Proof.
  revert id. induction keys as [|each keys IH]; intros id; simpl; constructor.
  - reflexivity.
  - apply IH.
Qed.

Lemma materialise_uri (keys : list string) (folder : WorkspaceFolder) (u : Uri) (id : nat) :
  Forall (fun t => uri (definition t) = u) (materialise keys folder u id).
Proof.
  revert id. induction keys as [|each keys IH]; intros id; simpl; constructor.
  - unfold createYarnTask. cbv zeta. cbn [set_group definition].
    destruct (negb (String.length (getRelativePath (Some folder) u) =? 0)%nat); reflexivity.
  - apply IH.
Qed.

Lemma materialise_names (keys : list string) (folder : WorkspaceFolder) (u : Uri) (id : nat) :
  map name (materialise keys folder u id) = keys.
Proof.
  revert id. induction keys as [|each keys IH]; intros id; simpl; [reflexivity|].
  rewrite IH. reflexivity.
Qed.

(** For a scripts-style document [readYarnfile] builds one task per script
    name, named after it. *)
Lemma scripts_document_task_names (before : list (string * (Z * Z) * JSON)) (at_ : Z * Z)
    (entries : list ScriptEntry) (after : list (string * (Z * Z) * JSON))
    (folder : WorkspaceFolder) (u : Uri) (id : nat) :
  no_dialect_property before ->
  no_dialect_property after ->
  Forall (fun e => entry_name e <> "scripts" /\ entry_name e <> "__proto__") entries ->
  let tasks :=
    materialise
      (Object_keys (extract (json_events (scripts_document before at_ entries after))))
      folder u id in
  NoDup (map name tasks)
  /\ forall k, In k (map name tasks) <-> In k (map entry_name entries).
Proof.
  intros Hb Ha Hn tasks. unfold tasks. rewrite materialise_names. split.
  - apply NoDup_ListNoDup. eapply Permutation_NoDup.
    + symmetry. apply Object_keys_perm.
    + apply NoDup_ListNoDup, extract_NoDup.
  - intros k. rewrite Object_keys_bound.
    rewrite extract_scripts_document; try assumption.
    2:{ eapply Forall_impl; [exact Hn|]. simpl. tauto. }
    rewrite fold_js_set_lookup.
    2:{ eapply Forall_impl; [exact Hn|]. simpl. tauto. }
    clear. induction entries as [|e entries IH]; simpl.
    + unfold js_get_own. simpl. split; [intros [v H]; discriminate H|contradiction].
    + destruct (last_body k entries) as [b|] eqn:E.
      * split; [intros _|intros _; eexists; reflexivity].
        right. apply IH. eexists; reflexivity.
      * destruct (String.eqb_spec k (entry_name e)) as [->|Hne].
        -- split; [intros _; left; reflexivity|intros _; eexists; reflexivity].
        -- split.
           ++ intros H. right. apply IH. exact H.
           ++ intros [H|H]; [congruence|]. apply IH. exact H.
Qed.

(** C9, amended: every task [readYarnfile] returns is put in the Build group,
    whatever its name. *)
Theorem readYarnfile_groups_Build (h : Host) (u : Uri) (s s' : Provider) (tasks : list Task) :
  readYarnfile h u s = (Resolved tasks, s') ->
  Forall (fun t => group t = Some Build) tasks.
Proof.
  rewrite readYarnfile_eq. intros H.
  destruct (getWorkspaceFolder h u) as [folder|].
  - destruct (readFile h (fsPath u)) as [documentText|]; [|discriminate H].
    injection H as <- _. apply materialise_group.
  - injection H as <- _. constructor.
Qed.

Lemma readYarnfile_groups_Build_witness :
  Forall (fun t => group t = Some Build)
         (materialise ["build"; "clean"] repo_folder repo_package_json 0).
Proof.
  refine (readYarnfile_groups_Build build_and_clean_host repo_package_json fresh_provider
            (allocate 2 (record_effect (ReadFile "/repo/package.json") fresh_provider))
            _ _).
  reflexivity.
Defined.

(** C9 as stated fails: the tasks named "build" and "clean" of one file are
    given the same group, Build. *)
Lemma build_and_clean_share_group :
  ~ (forall h u s tasks s',
        readYarnfile h u s = (Resolved tasks, s') ->
        forall t1 t2,
          In t1 tasks -> In t2 tasks -> name t1 = "build" -> name t2 = "clean" ->
          group t1 <> group t2).
Proof.
  intros H.
  specialize (H build_and_clean_host repo_package_json fresh_provider _ _ eq_refl).
  simpl in H.
  eapply H; [left; reflexivity|right; left; reflexivity|reflexivity|reflexivity|reflexivity].
Qed.

(** ** Removing tasks from the cached array *)

Lemma removeFromArray_scan_fst (item : Task) (arr : list Task) (i j : Z) :
  fst (fold_left
         (fun st each =>
            let idx := fst st + 1 in
            (idx, if bool_decide (item = each) then idx else snd st))%Z
         arr (i, j))
  = (i + Z.of_nat (List.length arr))%Z.
Proof.
  revert i j. induction arr as [|x arr IH]; intros i j.
  - simpl. lia.
  - simpl fold_left. rewrite IH. simpl List.length. lia.
Qed.

Lemma removeFromArray_scan_absent (item : Task) (arr : list Task) (i j : Z) :
  ~ In item arr ->
  snd (fold_left
         (fun st each =>
            let idx := fst st + 1 in
            (idx, if bool_decide (item = each) then idx else snd st))%Z
         arr (i, j))
  = j.
Proof.
  revert i j. induction arr as [|x arr IH]; intros i j Hn; [reflexivity|].
  simpl fold_left. rewrite bool_decide_eq_false_2.
  - apply IH. intros Hin. apply Hn. right. exact Hin.
  - intros ->. apply Hn. left. reflexivity.
Qed.

(** [removeFromArray] deletes the last element identical to [item]. *)
Lemma removeFromArray_last (l1 l2 : list Task) (item : Task) :
  ~ In item l2 -> removeFromArray (l1 ++ item :: l2) item = l1 ++ l2.
Proof.
  intros Hn. unfold removeFromArray, removeFromArray_scan.
  rewrite fold_left_app. simpl fold_left.
  rewrite bool_decide_eq_true_2 by reflexivity.
  rewrite removeFromArray_scan_absent by exact Hn.
  rewrite removeFromArray_scan_fst.
  replace (-1 + Z.of_nat (List.length l1) + 1)%Z with (Z.of_nat (List.length l1)) by lia.
  rewrite length_app. simpl List.length.
  replace (negb (Z.of_nat (List.length l1) =? -1)%Z) with true
    by (symmetry; apply negb_true_iff, Z.eqb_neq; lia).
  replace (Z.of_nat (List.length l1) <? Z.of_nat (List.length l1 + S (List.length l2)))%Z
    with true by (symmetry; apply Z.ltb_lt; lia).
  simpl. rewrite Nat2Z.id. apply delete_middle.
Qed.

Lemma removeFromArray_absent (arr : list Task) (item : Task) :
  ~ In item arr -> removeFromArray arr item = arr.
Proof.
  intros Hn. unfold removeFromArray, removeFromArray_scan.
  rewrite removeFromArray_scan_absent by exact Hn. reflexivity.
Qed.

Lemma last_occurrence (item : Task) (arr : list Task) :
  In item arr -> exists l1 l2, arr = l1 ++ item :: l2 /\ ~ In item l2.
Proof.
  induction arr as [|x arr IH]; intros Hin; [contradiction|].
  destruct (In_dec Task_eq_dec item arr) as [Hin'|Hn].
  - destruct (IH Hin') as (l1 & l2 & -> & Hl2). exists (x :: l1), l2. split; [reflexivity|exact Hl2].
  - destruct Hin as [->|Hin]; [|contradiction].
    exists [], arr. split; [reflexivity|exact Hn].
Qed.

Lemma filter_nil_all (P : Task -> bool) (l : list Task) :
  List.filter P l = [] -> List.filter (fun t => negb (P t)) l = l.
Proof.
  induction l as [|x l IH]; intros H; [reflexivity|].
  simpl in *. destruct (P x); [discriminate H|]. simpl. f_equal. apply IH, H.
Qed.

(** Removing, one after the other, the tasks that satisfy [P] leaves the
    others, in their order. *)
Lemma remove_each_filter (P : Task -> bool) (rmvTasks arr : list Task) :
  Permutation (List.filter P arr) rmvTasks ->
  fold_left removeFromArray rmvTasks arr = List.filter (fun t => negb (P t)) arr.
Proof.
  revert arr. induction rmvTasks as [|item rmvTasks IH]; intros arr Hp.
  - apply Permutation_sym, Permutation_nil in Hp. simpl. symmetry. apply filter_nil_all, Hp.
  - assert (Hin : In item (List.filter P arr)).
    { eapply Permutation_in; [symmetry; exact Hp|]. left. reflexivity. }
    apply filter_In in Hin as [Hin HP].
    destruct (last_occurrence item arr Hin) as (l1 & l2 & -> & Hl2).
    simpl fold_left. rewrite removeFromArray_last by exact Hl2.
    rewrite IH.
    + rewrite !List.filter_app. simpl. rewrite HP. reflexivity.
    + rewrite List.filter_app in Hp |- *. simpl in Hp. rewrite HP in Hp.
      apply Permutation_sym in Hp. apply Permutation_cons_app_inv in Hp.
      apply Permutation_sym. exact Hp.
Qed.

Lemma remove_tasks_of_file (opt : Uri) (arr : list Task) :
  fold_left removeFromArray
    (List.filter
       (fun each => bool_decide (fsPath (uri (definition each)) = fsPath opt)) arr) arr
  = other_files opt arr.
Proof. apply remove_each_filter. reflexivity. Qed.

(** ** The cache *)

Lemma store_cachedTasks_same (c : option (list Task)) (s : Provider) :
  cachedTasks s = c -> store_cachedTasks c s = s.
Proof. intros <-. destruct s; reflexivity. Qed.

(** Without a file, or on an uninitialised cache, the call only resets the
    variable. *)
Lemma invalidate_reset (h : Host) (opt : option Uri) (s : Provider) :
  opt = None \/ cachedTasks s = None ->
  invalidateTasksCacheYarn h opt s = (Resolved tt, store_cachedTasks None s).
Proof.
  intros H. unfold invalidateTasksCacheYarn. async.
  destruct H as [->|H].
  - destruct (cachedTasks s); reflexivity.
  - rewrite H. destruct opt; reflexivity.
Qed.

(** The settlement of a call with a file on an initialised cache, and the
    state it leaves. *)
Lemma invalidate_file_eq (h : Host) (opt : Uri) (arr : list Task) (s : Provider) :
  cachedTasks s = Some arr ->
  invalidateTasksCacheYarn h (Some opt) s =
  let s1 := record_effect (PathExists (fsPath opt))
              (store_cachedTasks (Some (other_files opt arr)) s) in
  if pathExists h (fsPath opt) then
    match getWorkspaceFolder h opt with
    | None => (Resolved tt, store_cachedTasks (collapse (other_files opt arr)) s1)
    | Some folder =>
        match readFile h (fsPath opt) with
        | None => (Rejected, record_effect (ReadFile (fsPath opt)) s1)
        | Some documentText =>
            let keys := Object_keys (extract documentText) in
            (Resolved tt,
             store_cachedTasks
               (collapse (other_files opt arr
                          ++ materialise keys folder opt (next_task_id s)))
               (allocate (List.length keys) (record_effect (ReadFile (fsPath opt)) s1)))
        end
    end
  else (Resolved tt, store_cachedTasks (collapse (other_files opt arr)) s1).
Proof.
  intros Hc. unfold invalidateTasksCacheYarn. unfold mbind at 1. unfold Async_bind at 1.
  unfold get_cachedTasks at 1. rewrite Hc. rewrite remove_tasks_of_file.
  unfold util_pathExists.
  unfold mbind, Async_bind, set_cachedTasks, perform, mret, Async_ret.
  cbv zeta. cbv beta iota.
  destruct (pathExists h (fsPath opt)).
  - rewrite readYarnfile_eq. cbn [getWorkspaceFolder].
    destruct (getWorkspaceFolder h opt) as [folder|].
    + cbn [store_cachedTasks record_effect cachedTasks next_task_id effects].
      destruct (readFile h (fsPath opt)) as [documentText|]; [|reflexivity].
      unfold cachedTasks_push, cachedTasks_length. async.
      cbn [allocate store_cachedTasks record_effect cachedTasks next_task_id effects].
      destruct (other_files opt arr ++ materialise _ folder opt (next_task_id s)) eqn:E;
        reflexivity.
    + unfold cachedTasks_push, cachedTasks_length. async.
      cbn [store_cachedTasks record_effect cachedTasks next_task_id effects].
      rewrite app_nil_r. destruct (other_files opt arr) eqn:E; reflexivity.
  - unfold cachedTasks_length. async.
    cbn [store_cachedTasks record_effect cachedTasks next_task_id effects].
    destruct (other_files opt arr) eqn:E; reflexivity.
Qed.

Lemma other_files_In (opt : Uri) (arr : list Task) (t : Task) :
  In t (other_files opt arr) <-> In t arr /\ fsPath (uri (definition t)) <> fsPath opt.
Proof.
  unfold other_files. rewrite filter_In, negb_true_iff, bool_decide_eq_false. reflexivity.
Qed.

Lemma fresh_tasks_uri (h : Host) (u : Uri) (id : nat) :
  Forall (fun t => uri (definition t) = u) (fresh_tasks h u id).
Proof.
  unfold fresh_tasks. destruct (getWorkspaceFolder h u); [|constructor].
  destruct (readFile h (fsPath u)); [|constructor]. apply materialise_uri.
Qed.

(** What a resolved call with a file leaves on an initialised cache. *)
Lemma invalidate_file_resolved (h : Host) (a : Uri) (arr : list Task) (s s' : Provider) :
  cachedTasks s = Some arr ->
  invalidateTasksCacheYarn h (Some a) s = (Resolved tt, s') ->
  cachedTasks s'
  = collapse (other_files a arr
              ++ (if pathExists h (fsPath a) then fresh_tasks h a (next_task_id s) else []))
  /\ exists added,
      effects s' = added ++ effects s
      /\ Forall (fun e => e = PathExists (fsPath a)
                          \/ (e = ReadFile (fsPath a) /\ pathExists h (fsPath a) = true))
                added.
Proof.
  intros Hc H. rewrite (invalidate_file_eq h a arr s Hc) in H. cbv zeta in H.
  unfold fresh_tasks. destruct (pathExists h (fsPath a)) eqn:Hp.
  - destruct (getWorkspaceFolder h a) as [folder|].
    + destruct (readFile h (fsPath a)) as [documentText|]; [|discriminate H].
      injection H as <-. split; [reflexivity|].
      exists [ReadFile (fsPath a); PathExists (fsPath a)]. split; [reflexivity|].
      constructor; [right; split; reflexivity|].
      constructor; [left; reflexivity|constructor].
    + injection H as <-. rewrite app_nil_r. split; [reflexivity|].
      exists [PathExists (fsPath a)]. split; [reflexivity|].
      constructor; [left; reflexivity|constructor].
  - injection H as <-. rewrite app_nil_r. split; [reflexivity|].
    exists [PathExists (fsPath a)]. split; [reflexivity|].
    constructor; [left; reflexivity|constructor].
Qed.

(** C4: on an initialised cache, a call for the file [a] that resolves leaves
    the tasks of the other files as they were and in their order, followed by
    the tasks of [a] as it is now when it exists and by nothing when it does
    not; the file system is asked about [a] only, and only [a] is read, and
    only if it exists. *)
Theorem invalidate_refreshes_one_file (h : Host) (a : Uri) (arr : list Task)
    (s s' : Provider) :
  cachedTasks s = Some arr ->
  invalidateTasksCacheYarn h (Some a) s = (Resolved tt, s') ->
  cachedTasks s'
  = collapse (other_files a arr
              ++ (if pathExists h (fsPath a) then fresh_tasks h a (next_task_id s) else []))
  /\ (forall t, In t (other_files a arr)
                <-> In t arr /\ fsPath (uri (definition t)) <> fsPath a)
  /\ Forall (fun t => uri (definition t) = a) (fresh_tasks h a (next_task_id s))
  /\ exists added,
      effects s' = added ++ effects s
      /\ Forall (fun e => e = PathExists (fsPath a)
                          \/ (e = ReadFile (fsPath a) /\ pathExists h (fsPath a) = true))
                added.
Proof.
  intros Hc H. destruct (invalidate_file_resolved h a arr s s' Hc H) as [H1 H2].
  split; [exact H1|]. split; [|split; [|exact H2]].
  - intros t. apply other_files_In.
  - apply fresh_tasks_uri.
Qed.

(** When the read of the changed file is rejected the call is rejected too:
    the tasks of the file are gone, nothing is inserted, and the array is not
    replaced by [undefined] even when it is empty. *)
Lemma invalidate_rejected (h : Host) (a : Uri) (arr : list Task) (s s' : Provider) :
  cachedTasks s = Some arr ->
  invalidateTasksCacheYarn h (Some a) s = (Rejected, s') ->
  cachedTasks s' = Some (other_files a arr).
Proof.
  intros Hc H. rewrite (invalidate_file_eq h a arr s Hc) in H. cbv zeta in H.
  destruct (pathExists h (fsPath a)); [|discriminate H].
  destruct (getWorkspaceFolder h a); [|discriminate H].
  destruct (readFile h (fsPath a)); [discriminate H|].
  injection H as <-. reflexivity.
Qed.

(** ** Discovery passes *)

Lemma discoveries_record_effect (e : Effect) (s : Provider) :
  e <> Discovery -> discoveries (record_effect e s) = discoveries s.
Proof. intros H. unfold discoveries. simpl. destruct (Effect_eq_dec e Discovery); [contradiction|reflexivity]. Qed.

Lemma readYarnfile_discoveries (h : Host) (u : Uri) (s : Provider) :
  discoveries (snd (readYarnfile h u s)) = discoveries s.
Proof.
  rewrite readYarnfile_eq. destruct (getWorkspaceFolder h u); [|reflexivity].
  destruct (readFile h (fsPath u)); simpl; apply discoveries_record_effect; discriminate.
Qed.

Lemma detect_paths_discoveries (h : Host) (paths : list Uri) (visitedFiles : gset string)
    (allTasks : list Task) (s : Provider) :
  discoveries (snd (detect_paths h paths visitedFiles allTasks s)) = discoveries s.
Proof.
  revert visitedFiles allTasks s.
  induction paths as [|fpath paths IH]; intros visitedFiles allTasks s; [reflexivity|].
  simpl. destruct (negb (isExcluded h (uri_path fpath))
                   && negb (bool_decide (fsPath fpath ∈ visitedFiles))); [|apply IH].
  unfold mbind, Async_bind.
  pose proof (readYarnfile_discoveries h fpath s) as Hr.
  destruct (readYarnfile h fpath s) as [[tasks|] s1]; simpl in Hr.
  - rewrite IH. exact Hr.
  - exact Hr.
Qed.

Lemma detect_folders_discoveries (h : Host) (folders : list WorkspaceFolder)
    (visitedFiles : gset string) (allTasks : list Task) (s : Provider) :
  discoveries (snd (detect_folders h folders visitedFiles allTasks s)) = discoveries s.
Proof.
  revert visitedFiles allTasks s.
  induction folders as [|folder folders IH]; intros visitedFiles allTasks s; [reflexivity|].
  simpl. unfold mbind at 1. unfold Async_bind at 1. unfold perform.
  assert (Hf : discoveries (record_effect (FindFiles folder) s) = discoveries s)
    by (apply discoveries_record_effect; discriminate).
  destruct (findFiles h folder) as [paths|]; [|exact Hf].
  unfold mbind, Async_bind.
  pose proof (detect_paths_discoveries h paths visitedFiles allTasks
                (record_effect (FindFiles folder) s)) as Hp.
  destruct (detect_paths h paths visitedFiles allTasks (record_effect (FindFiles folder) s))
    as [[acc|] s1]; simpl in Hp.
  - rewrite IH, Hp. exact Hf.
  - simpl. rewrite Hp. exact Hf.
Qed.

(** A call of [detectYarnfiles] is one discovery pass. *)
Lemma detectYarnfiles_discoveries (h : Host) (s : Provider) :
  discoveries (snd (detectYarnfiles h s)) = S (discoveries s).
Proof.
  unfold detectYarnfiles. unfold mbind at 1. unfold Async_bind at 1. unfold perform.
  assert (Hd : discoveries (record_effect Discovery s) = S (discoveries s)).
  { unfold discoveries. simpl. destruct (Effect_eq_dec Discovery Discovery); [reflexivity|contradiction]. }
  destruct (workspaceFolders h) as [folders|]; [|exact Hd].
  unfold mbind, Async_bind.
  pose proof (detect_folders_discoveries h folders ∅ [] (record_effect Discovery s)) as Hf.
  destruct (detect_folders h folders ∅ [] (record_effect Discovery s)) as [[acc|] s1];
    simpl in *; rewrite Hf; exact Hd.
Qed.

Lemma provideYarnfiles_cached (h : Host) (s : Provider) (tasks : list Task) :
  cachedTasks s = Some tasks -> provideYarnfiles h s = (Resolved tasks, s).
Proof.
  intros H. unfold provideYarnfiles. async. rewrite H. reflexivity.
Qed.

(** On an uninitialised cache [provideYarnfiles] runs one discovery pass. *)
Lemma provideYarnfiles_uninitialised (h : Host) (s : Provider) :
  cachedTasks s = None -> discoveries (snd (provideYarnfiles h s)) = S (discoveries s).
Proof.
  intros H. unfold provideYarnfiles. async. rewrite H.
  pose proof (detectYarnfiles_discoveries h s) as Hd.
  destruct (detectYarnfiles h s) as [[tasks|] s1]; simpl in *; exact Hd.
Qed.

Lemma provideYarnfiles_resolved (h : Host) (s s1 : Provider) (tasks : list Task) :
  provideYarnfiles h s = (Resolved tasks, s1) -> cachedTasks s1 = Some tasks.
Proof.
  unfold provideYarnfiles. async.
  destruct (cachedTasks s) as [arr|] eqn:Hc.
  - intros H. injection H as <- <-. exact Hc.
  - destruct (detectYarnfiles h s) as [[found|] s2]; [|discriminate].
    simpl. intros H. injection H as <- <-. reflexivity.
Qed.

Lemma provide_repeatedly_cached (hosts : list Host) (s : Provider) (tasks : list Task) :
  cachedTasks s = Some tasks ->
  provide_repeatedly hosts s = (map (fun _ => Resolved tasks) hosts, s).
Proof.
  intros H. induction hosts as [|h hosts IH]; [reflexivity|].
  simpl. rewrite (provideYarnfiles_cached h s tasks H). simpl. rewrite IH. reflexivity.
Qed.

(** C7: on an uninitialised cache [provideYarnfiles] runs one discovery
    pass; once a call has resolved, every later call, whatever the host has
    become, resolves with the same tasks and changes nothing, so no further
    discovery and no read takes place; a call on an initialised cache is of
    that kind. *)
Theorem provideYarnfiles_discovers_once (h : Host) (s : Provider) :
  (cachedTasks s = None -> discoveries (snd (provideYarnfiles h s)) = S (discoveries s))
  /\ (forall tasks s1,
         provideYarnfiles h s = (Resolved tasks, s1) ->
         forall hosts,
           provide_repeatedly hosts s1 = (map (fun _ => Resolved tasks) hosts, s1))
  /\ (forall tasks,
         cachedTasks s = Some tasks -> provideYarnfiles h s = (Resolved tasks, s)).
Proof.
  split; [|split].
  - apply provideYarnfiles_uninitialised.
  - intros tasks s1 H hosts. apply provide_repeatedly_cached.
    apply (provideYarnfiles_resolved h s s1 tasks H).
  - intros tasks H. apply provideYarnfiles_cached, H.
Qed.

(** A call that resolves never leaves an empty array in [cachedTasks]: when
    no task remains the variable is [undefined], as it is after every call
    without a file; and on [undefined] the next [provideYarnfiles] runs a
    discovery pass. *)
Lemma invalidate_collapses_empty_cache (h : Host) (opt : option Uri) (s s' : Provider) :
  invalidateTasksCacheYarn h opt s = (Resolved tt, s') ->
  (opt = None -> cachedTasks s' = None)
  /\ cachedTasks s' <> Some []
  /\ (cachedTasks s' = None ->
      forall h', discoveries (snd (provideYarnfiles h' s')) = S (discoveries s')).
Proof.
  intros H. split; [|split].
  - intros ->. rewrite invalidate_reset in H by (left; reflexivity).
    injection H as <-. reflexivity.
  - destruct opt as [a|]; [destruct (cachedTasks s) as [arr|] eqn:Hc|].
    + destruct (invalidate_file_resolved h a arr s s' Hc H) as [-> _].
      destruct (other_files a arr ++ _); simpl; congruence.
    + rewrite invalidate_reset in H by (right; exact Hc).
      injection H as <-. simpl. congruence.
    + rewrite invalidate_reset in H by (left; reflexivity).
      injection H as <-. simpl. congruence.
  - intros Hn h'. apply provideYarnfiles_uninitialised, Hn.
Qed.

(** C5 fails on the code: with the tasks of the one package file cached, a
    call for that file while it exists and cannot be read is rejected at the
    read, before the test of the length; the tasks of the file are gone,
    [cachedTasks] is left an empty array and not [undefined], and the next
    [provideYarnfiles], the file being readable again, resolves with that
    empty array and starts no discovery. *)
Theorem rejected_invalidate_keeps_empty_cache :
  cachedTasks (snd (provideYarnfiles build_and_clean_host fresh_provider))
  = Some (materialise ["build"; "clean"] repo_folder repo_package_json 0)
  /\ fst (invalidateTasksCacheYarn unreadable_package_host (Some repo_package_json)
            (snd (provideYarnfiles build_and_clean_host fresh_provider)))
     = Rejected
  /\ cachedTasks
       (snd (invalidateTasksCacheYarn unreadable_package_host (Some repo_package_json)
               (snd (provideYarnfiles build_and_clean_host fresh_provider))))
     = Some []
  /\ fst (provideYarnfiles build_and_clean_host
            (snd (invalidateTasksCacheYarn unreadable_package_host
                    (Some repo_package_json)
                    (snd (provideYarnfiles build_and_clean_host fresh_provider)))))
     = Resolved []
  /\ discoveries
       (snd (provideYarnfiles build_and_clean_host
               (snd (invalidateTasksCacheYarn unreadable_package_host
                       (Some repo_package_json)
                       (snd (provideYarnfiles build_and_clean_host fresh_provider))))))
     = discoveries (snd (provideYarnfiles build_and_clean_host fresh_provider)).
Proof. repeat split; vm_compute; reflexivity. Qed.

(** C10: with a file and an uninitialised cache the call changes nothing: no
    effect is performed, so the file is not read, and [cachedTasks] stays
    [undefined]; the next [provideYarnfiles] runs a discovery pass. *)
Theorem invalidate_uninitialised_cache (h : Host) (a : Uri) (s : Provider) :
  cachedTasks s = None ->
  invalidateTasksCacheYarn h (Some a) s = (Resolved tt, s)
  /\ forall h', discoveries (snd (provideYarnfiles h' s)) = S (discoveries s).
Proof.
  intros Hc. split.
  - rewrite invalidate_reset by (right; exact Hc).
    rewrite store_cachedTasks_same by exact Hc. reflexivity.
  - intros h'. apply provideYarnfiles_uninitialised, Hc.
Qed.

(** ** The cache on a workspace with two package files *)

Lemma provideYarnfiles_discovers_once_witness :
  provideYarnfiles two_files_host fresh_provider = (Resolved populated_tasks, populated)
  /\ provide_repeatedly [edited_host; only_a_deleted_host] populated
     = ([Resolved populated_tasks; Resolved populated_tasks], populated).
Proof.
  assert (H : provideYarnfiles two_files_host fresh_provider
              = (Resolved populated_tasks, populated)) by (vm_compute; reflexivity).
  split; [exact H|].
  exact (proj1 (proj2 (provideYarnfiles_discovers_once two_files_host fresh_provider))
           populated_tasks populated H [edited_host; only_a_deleted_host]).
Defined.

Lemma invalidate_refreshes_one_file_witness :
  cachedTasks populated = Some populated_tasks
  /\ cachedTasks (snd (invalidateTasksCacheYarn edited_host (Some file_a) populated))
     = Some (materialise ["test"] repo_folder file_b 2
             ++ materialise ["lint"] repo_folder file_a 3)
  /\ effects (snd (invalidateTasksCacheYarn edited_host (Some file_a) populated))
     = [ReadFile (fsPath file_a); PathExists (fsPath file_a)] ++ effects populated.
Proof.
  assert (Hc : cachedTasks populated = Some populated_tasks) by (vm_compute; reflexivity).
  assert (Hr : invalidateTasksCacheYarn edited_host (Some file_a) populated
               = (Resolved tt,
                  snd (invalidateTasksCacheYarn edited_host (Some file_a) populated)))
    by (vm_compute; reflexivity).
  destruct (invalidate_refreshes_one_file edited_host file_a populated_tasks populated
              _ Hc Hr) as [H _].
  split; [exact Hc|]. split.
  - rewrite H. vm_compute. reflexivity.
  - vm_compute. reflexivity.
Defined.

Lemma invalidate_collapses_empty_cache_witness :
  cachedTasks
    (snd (invalidateTasksCacheYarn only_a_deleted_host (Some file_a)
            (store_cachedTasks (Some (materialise ["build"] repo_folder file_a 0))
               fresh_provider)))
  <> Some [].
Proof.
  refine (proj1 (proj2 (invalidate_collapses_empty_cache only_a_deleted_host (Some file_a)
            (store_cachedTasks (Some (materialise ["build"] repo_folder file_a 0))
               fresh_provider) _ _))).
  vm_compute. reflexivity.
Defined.

Lemma invalidate_uninitialised_cache_witness :
  invalidateTasksCacheYarn two_files_host (Some file_a) fresh_provider
  = (Resolved tt, fresh_provider).
Proof.
  refine (proj1 (invalidate_uninitialised_cache two_files_host file_a fresh_provider _)).
  reflexivity.
Defined.

(** * Properties of the utilities, the provider as a whole and the views *)

(** ** [util.removeFromArray] *)

(** X1: [removeFromArray] leaves an array without the item as it is, and
    from an array with the item deletes its last occurrence, the other
    elements keeping their order. *)
Theorem removeFromArray_deletes_last_occurrence (arr : list Task) (item : Task) :
  (~ In item arr -> removeFromArray arr item = arr)
  /\ (In item arr ->
      exists l1 l2,
        arr = l1 ++ item :: l2 /\ ~ In item l2 /\ removeFromArray arr item = l1 ++ l2).
Proof.
  split.
  - apply removeFromArray_absent.
  - intros Hin. destruct (last_occurrence item arr Hin) as (l1 & l2 & -> & Hl2).
    exists l1, l2. split; [reflexivity|]. split; [exact Hl2|].
    apply removeFromArray_last, Hl2.
Qed.

Lemma removeFromArray_deletes_last_occurrence_witness :
  In (set_group Build (createYarnTask 1 "clean" "clean" repo_folder file_a)) populated_tasks
  /\ exists l1 l2,
      populated_tasks
      = l1 ++ set_group Build (createYarnTask 1 "clean" "clean" repo_folder file_a) :: l2
      /\ ~ In (set_group Build (createYarnTask 1 "clean" "clean" repo_folder file_a)) l2
      /\ removeFromArray populated_tasks
           (set_group Build (createYarnTask 1 "clean" "clean" repo_folder file_a))
         = l1 ++ l2.
Proof.
  assert (H : In (set_group Build (createYarnTask 1 "clean" "clean" repo_folder file_a))
                 populated_tasks) by (right; left; reflexivity).
  split; [exact H|].
  exact (proj2 (removeFromArray_deletes_last_occurrence populated_tasks _) H).
Defined.

(** Removing the elements of [ts], in any order, from an array that ends
    with [ts] gives back what preceded them. *)
Lemma remove_appended (es ts arr : list Task) :
  Permutation ts es -> fold_left removeFromArray es (arr ++ ts) = arr.
Proof.
  revert ts. induction es as [|e es IH]; intros ts Hp.
  - apply Permutation_sym, Permutation_nil in Hp. subst. apply app_nil_r.
  - assert (Hin : In e ts).
    { eapply Permutation_in; [symmetry; exact Hp|]. left. reflexivity. }
    destruct (last_occurrence e ts Hin) as (t1 & t2 & -> & Ht2).
    simpl fold_left. rewrite app_assoc, removeFromArray_last by exact Ht2.
    rewrite <- app_assoc. apply IH.
    apply Permutation_sym in Hp. apply Permutation_cons_app_inv in Hp.
    apply Permutation_sym. exact Hp.
Qed.

(** ** The status bar *)

Lemma on_task_events_app (a b : list TaskEvent) (st : StatusBar) :
  on_task_events (a ++ b) st = on_task_events b (on_task_events a st).
Proof. unfold on_task_events. apply fold_left_app. Qed.

Lemma updateStatusBarItem_counted (task : Task) (running : bool) (st : StatusBar) :
  counted task ->
  updateStatusBarItem task running st
  = let tasks :=
      if negb running then removeFromArray (runningTasks st) task
      else runningTasks st ++ [task] in
    {| runningTasks := tasks; statusBarItem_text := status_text (List.length tasks) |}.
Proof.
  intros H. unfold updateStatusBarItem. apply String.eqb_neq in H. rewrite H. reflexivity.
Qed.

Lemma removeFromArray_Forall (P : Task -> Prop) (arr : list Task) (item : Task) :
  Forall P arr -> Forall P (removeFromArray arr item).
Proof.
  intros H. destruct (In_dec Task_eq_dec item arr) as [Hin|Hn].
  - destruct (last_occurrence item arr Hin) as (l1 & l2 & -> & Hl2).
    rewrite removeFromArray_last by exact Hl2.
    apply Forall_app in H as [H1 H2]. apply Forall_cons in H2 as [_ H2].
    apply Forall_app. split; assumption.
  - rewrite removeFromArray_absent by exact Hn. exact H.
Qed.

Lemma on_task_event_consistent (st : StatusBar) (e : TaskEvent) :
  status_consistent st -> status_consistent (on_task_event st e).
Proof.
  intros [Ht Hc].
  assert (Hu : forall task running,
             status_consistent (updateStatusBarItem task running st)).
  { intros task running. unfold updateStatusBarItem.
    destruct (String.eqb_spec (type (definition task)) "$composite") as [E|E].
    - split; assumption.
    - split; [reflexivity|]. simpl. destruct running; simpl.
      + apply Forall_app. split; [exact Hc|]. constructor; [exact E|constructor].
      + apply removeFromArray_Forall, Hc. }
  destruct e; apply Hu.
Qed.

Lemma on_task_events_consistent (events : list TaskEvent) (st : StatusBar) :
  status_consistent st -> status_consistent (on_task_events events st).
Proof.
  revert st. induction events as [|e events IH]; intros st H; [exact H|].
  simpl. apply IH, on_task_event_consistent, H.
Qed.

(** X2: whatever tasks start and end after activation, the text of the status
    bar is the one chosen for the number of tasks in [runningTasks], and no
    task of type "$composite" is ever among them. *)
Theorem status_bar_shows_running_count (events : list TaskEvent) :
  statusBarItem_text (on_task_events events activated_status)
  = status_text (List.length (runningTasks (on_task_events events activated_status)))
  /\ Forall counted (runningTasks (on_task_events events activated_status)).
Proof.
  apply on_task_events_consistent. split; [reflexivity|constructor].
Qed.

Lemma started_running (ts : list Task) (st : StatusBar) :
  Forall counted ts ->
  runningTasks (on_task_events (map onDidStartTask ts) st) = runningTasks st ++ ts.
Proof.
  revert st. induction ts as [|t ts IH]; intros st H.
  - simpl. symmetry. apply app_nil_r.
  - apply Forall_cons in H as [Ht H]. simpl.
    rewrite IH by exact H. rewrite (updateStatusBarItem_counted t true st Ht). simpl.
    rewrite <- app_assoc. reflexivity.
Qed.

Lemma ended_running (es : list Task) (st : StatusBar) :
  Forall counted es ->
  runningTasks (on_task_events (map onDidEndTask es) st)
  = fold_left removeFromArray es (runningTasks st).
Proof.
  revert st. induction es as [|e es IH]; intros st H; [reflexivity|].
  apply Forall_cons in H as [He H]. simpl.
  rewrite IH by exact H. rewrite (updateStatusBarItem_counted e false st He). reflexivity.
Qed.

(** X3: when the tasks that start all end, in whatever order, the status bar
    is back to what it was before they started. *)
Theorem status_bar_restored_when_tasks_end (st : StatusBar) (ts es : list Task) :
  status_consistent st ->
  Forall counted ts ->
  Permutation ts es ->
  on_task_events (map onDidStartTask ts ++ map onDidEndTask es) st = st.
Proof.
  intros Hst Hts Hp.
  assert (Hes : Forall counted es).
  { eapply Permutation_Forall; [exact Hp|exact Hts]. }
  pose proof (on_task_events_consistent (map onDidStartTask ts ++ map onDidEndTask es) st Hst)
    as [Htext _].
  assert (Hrun : runningTasks (on_task_events (map onDidStartTask ts ++ map onDidEndTask es) st)
                 = runningTasks st).
  { rewrite on_task_events_app, ended_running by exact Hes.
    rewrite started_running by exact Hts. apply remove_appended, Hp. }
  rewrite Hrun in Htext. destruct Hst as [Hst _]. rewrite <- Hst in Htext.
  destruct (on_task_events _ st) as [r t], st as [r0 t0]. simpl in *. subst. reflexivity.
Qed.

Lemma status_bar_restored_when_tasks_end_witness :
  on_task_events
    (map onDidStartTask populated_tasks ++ map onDidEndTask (rev populated_tasks))
    activated_status
  = activated_status.
Proof.
  refine (status_bar_restored_when_tasks_end activated_status populated_tasks
            (rev populated_tasks) _ _ _).
  - split; [reflexivity|constructor].
  - unfold counted. repeat constructor; simpl; discriminate.
  - apply Permutation_rev.
Defined.

(** ** Discovery, step by step *)

Lemma reads_app (a b : list Effect) : reads (a ++ b) = reads a ++ reads b.
Proof. unfold reads. apply flat_map_app. Qed.

Lemma materialise_ids (keys : list string) (folder : WorkspaceFolder) (u : Uri) (id : nat) :
  map task_id (materialise keys folder u id) = seq id (List.length keys).
Proof.
  revert id. induction keys as [|each keys IH]; intros id; simpl; [reflexivity|].
  rewrite IH. reflexivity.
Qed.

Lemma materialise_length (keys : list string) (folder : WorkspaceFolder) (u : Uri) (id : nat) :
  List.length (materialise keys folder u id) = List.length keys.
Proof.
  revert id. induction keys as [|each keys IH]; intros id; simpl; [reflexivity|].
  rewrite IH. reflexivity.
Qed.

(** What one call of [readYarnfile] adds: at most the read of the file, the
    tasks of the file with the next identities, nothing to the cache. *)
Lemma readYarnfile_step (h : Host) (u : Uri) (s s' : Provider) (r : Outcome (list Task)) :
  readYarnfile h u s = (r, s') ->
  cachedTasks s' = cachedTasks s
  /\ (effects s' = effects s \/ effects s' = ReadFile (fsPath u) :: effects s)
  /\ next_task_id s <= next_task_id s'
  /\ (r = Rejected -> next_task_id s' = next_task_id s)
  /\ (forall tasks, r = Resolved tasks ->
        Forall (task_of_file h u) tasks
        /\ map task_id tasks = seq (next_task_id s) (next_task_id s' - next_task_id s)).
Proof.
  rewrite readYarnfile_eq. intros H.
  destruct (getWorkspaceFolder h u) as [folder|] eqn:Hf.
  - destruct (readFile h (fsPath u)) as [documentText|] eqn:Hr.
    + injection H as <- <-. simpl. repeat split; try (right; reflexivity); try lia.
      * discriminate.
      * injection H as <-. apply List.Forall_forall. intros t Ht.
        exists folder, documentText, (next_task_id s). auto.
      * injection H as <-. rewrite materialise_ids. f_equal. lia.
    + injection H as <- <-. simpl. repeat split; try (right; reflexivity); try lia.
      discriminate. discriminate.
  - injection H as <- <-. repeat split; try (left; reflexivity); try lia.
    + injection H as <-. constructor.
    + injection H as <-. rewrite Nat.sub_diag. reflexivity.
Qed.

Lemma discovery_stretch_nothing (h : Host) (ok : Uri -> Prop) (visitedFiles : gset string)
    (allTasks : list Task) (s : Provider) :
  discovery_stretch h ok visitedFiles allTasks s s (Resolved (visitedFiles, allTasks)).
Proof.
  split; [reflexivity|]. split; [lia|]. exists []. split; [reflexivity|].
  split; [constructor|]. split; [constructor|]. split; [intros f []|].
  intros acc H. injection H as <-. simpl. split; [auto|]. split; [intros f []|].
  exists []. rewrite app_nil_r, Nat.sub_diag. repeat split. constructor.
Qed.

Lemma discovery_stretch_weaken (h : Host) (ok ok' : Uri -> Prop) (visitedFiles : gset string)
    (allTasks : list Task) (s s' : Provider) (r : Outcome (gset string * list Task)) :
  (forall u, ok u -> ok' u) ->
  discovery_stretch h ok visitedFiles allTasks s s' r ->
  discovery_stretch h ok' visitedFiles allTasks s s' r.
Proof.
  intros Hok (Hc & Hn & added & He & Hshape & Hnd & Hread & Hres).
  split; [exact Hc|]. split; [exact Hn|]. exists added.
  split; [exact He|]. split; [exact Hshape|]. split; [exact Hnd|]. split.
  - intros f Hf. destruct (Hread f Hf) as [Hv (u & Hu & Hfu)].
    split; [exact Hv|]. exists u. auto.
  - intros acc Hacc. destruct (Hres acc Hacc) as (H1 & H2 & new & H3 & H4 & H5).
    split; [exact H1|]. split; [exact H2|]. exists new. split; [exact H3|].
    split; [|exact H5]. eapply Forall_impl; [exact H4|].
    intros t (u & Hu & Ht). exists u. auto.
Qed.

Lemma discovery_stretch_then (h : Host) (ok : Uri -> Prop) (visitedFiles : gset string)
    (allTasks : list Task) (s s1 s' : Provider) (acc1 : gset string * list Task)
    (r : Outcome (gset string * list Task)) :
  discovery_stretch h ok visitedFiles allTasks s s1 (Resolved acc1) ->
  discovery_stretch h ok (fst acc1) (snd acc1) s1 s' r ->
  discovery_stretch h ok visitedFiles allTasks s s' r.
Proof.
  intros (Hc1 & Hn1 & added1 & He1 & Hs1 & Hnd1 & Hr1 & Hres1)
         (Hc2 & Hn2 & added2 & He2 & Hs2 & Hnd2 & Hr2 & Hres2).
  destruct (Hres1 acc1 eq_refl) as (Hv1 & Hin1 & new1 & Hall1 & Hof1 & Hid1).
  split; [congruence|]. split; [lia|]. exists (added2 ++ added1).
  split; [rewrite He2, He1, app_assoc; reflexivity|].
  split; [apply Forall_app; split; assumption|].
  split.
  { rewrite reads_app. apply List.NoDup_app; [exact Hnd2|exact Hnd1|].
    intros f Hf2 Hf1. destruct (Hr2 f Hf2) as [Hnv _]. apply Hnv, Hin1, Hf1. }
  split.
  { intros f Hf. rewrite reads_app in Hf. apply in_app_or in Hf as [Hf|Hf].
    - destruct (Hr2 f Hf) as [Hnv Hu]. split; [|exact Hu].
      intros Hv. apply Hnv, Hv1, Hv.
    - apply Hr1, Hf. }
  intros acc Hacc. destruct (Hres2 acc Hacc) as (Hv2 & Hin2 & new2 & Hall2 & Hof2 & Hid2).
  split; [intros f Hf; apply Hv2, Hv1, Hf|]. split.
  { intros f Hf. rewrite reads_app in Hf. apply in_app_or in Hf as [Hf|Hf].
    - apply Hin2, Hf.
    - apply Hv2, Hin1, Hf. }
  exists (new1 ++ new2). split; [rewrite Hall2, Hall1, app_assoc; reflexivity|].
  split; [apply Forall_app; split; assumption|].
  rewrite map_app, Hid1, Hid2.
  replace (next_task_id s' - next_task_id s)
    with ((next_task_id s1 - next_task_id s) + (next_task_id s' - next_task_id s1)) by lia.
  rewrite seq_app. f_equal. f_equal. lia.
Qed.

(** Reading one path that may be read and is not yet visited. *)
Lemma discovery_stretch_read (h : Host) (ok : Uri -> Prop) (visitedFiles : gset string)
    (allTasks : list Task) (fpath : Uri) (s s1 : Provider) (r1 : Outcome (list Task)) :
  ok fpath -> fsPath fpath ∉ visitedFiles ->
  readYarnfile h fpath s = (r1, s1) ->
  discovery_stretch h ok visitedFiles allTasks s s1
    (match r1 with
     | Resolved tasks => Resolved ({[ fsPath fpath ]} ∪ visitedFiles, allTasks ++ tasks)
     | Rejected => Rejected
     end).
Proof.
  intros Hok Hnv Hr.
  destruct (readYarnfile_step h fpath s s1 r1 Hr) as (Hc & He & Hn & _ & Hres).
  split; [exact Hc|]. split; [exact Hn|].
  assert (Hadd : exists added,
             effects s1 = added ++ effects s
             /\ (added = [] \/ added = [ReadFile (fsPath fpath)])).
  { destruct He as [He|He]; [exists []|exists [ReadFile (fsPath fpath)]]; auto. }
  destruct Hadd as (added & Heq & Hadded). exists added. split; [exact Heq|].
  assert (Hreads : forall f, In f (reads added) -> f = fsPath fpath).
  { intros f Hf. destruct Hadded as [->| ->]; simpl in Hf; [contradiction|].
    destruct Hf as [<-|[]]. reflexivity. }
  split; [destruct Hadded as [->| ->]; repeat constructor|].
  split; [destruct Hadded as [->| ->]; simpl; repeat constructor; intros []|].
  split.
  { intros f Hf. rewrite (Hreads f Hf). split; [exact Hnv|]. exists fpath. auto. }
  intros acc Hacc. destruct r1 as [tasks|]; [|discriminate Hacc].
  injection Hacc as <-. simpl. destruct (Hres tasks eq_refl) as [Hof Hid].
  split; [intros f Hf; apply elem_of_union; right; exact Hf|]. split.
  { intros f Hf. rewrite (Hreads f Hf). apply elem_of_union. left.
    apply elem_of_singleton. reflexivity. }
  exists tasks. split; [reflexivity|]. split; [|exact Hid].
  eapply Forall_impl; [exact Hof|]. intros t Ht. exists fpath. auto.
Qed.

Lemma detect_paths_stretch (h : Host) (paths : list Uri) (visitedFiles : gset string)
    (allTasks : list Task) (s s' : Provider) (r : Outcome (gset string * list Task)) :
  detect_paths h paths visitedFiles allTasks s = (r, s') ->
  discovery_stretch h (fun u => In u paths /\ isExcluded h (uri_path u) = false)
    visitedFiles allTasks s s' r.
Proof.
  revert visitedFiles allTasks s.
  induction paths as [|fpath paths IH]; intros visitedFiles allTasks s H.
  - injection H as <- <-. apply discovery_stretch_nothing.
  - simpl in H.
    assert (Hrest : forall v a s0,
               detect_paths h paths v a s0 = (r, s') ->
               discovery_stretch h
                 (fun u => In u (fpath :: paths) /\ isExcluded h (uri_path u) = false)
                 v a s0 s' r).
    { intros v a s0 H0. eapply discovery_stretch_weaken; [|apply IH, H0].
      intros u [Hu He]. split; [right; exact Hu|exact He]. }
    destruct (isExcluded h (uri_path fpath)) eqn:Hex; simpl in H; [apply Hrest, H|].
    destruct (bool_decide (fsPath fpath ∈ visitedFiles)) eqn:Hv; simpl in H;
      [apply Hrest, H|].
    apply bool_decide_eq_false_1 in Hv.
    unfold mbind, Async_bind in H.
    destruct (readYarnfile h fpath s) as [r1 s1] eqn:Hr.
    pose proof (discovery_stretch_read h
                  (fun u => In u (fpath :: paths) /\ isExcluded h (uri_path u) = false)
                  visitedFiles allTasks fpath s s1 r1
                  (conj (or_introl eq_refl) Hex) Hv Hr) as Hstep.
    destruct r1 as [tasks|].
    + eapply discovery_stretch_then; [exact Hstep|]. apply Hrest, H.
    + injection H as <- <-. exact Hstep.
Qed.

Lemma discovery_stretch_findFiles (h : Host) (ok : Uri -> Prop) (visitedFiles : gset string)
    (allTasks : list Task) (folder : WorkspaceFolder) (s : Provider)
    (r : Outcome (gset string * list Task)) :
  r = Rejected \/ r = Resolved (visitedFiles, allTasks) ->
  discovery_stretch h ok visitedFiles allTasks s (record_effect (FindFiles folder) s) r.
Proof.
  intros Hr. split; [reflexivity|]. split; [simpl; lia|].
  exists [FindFiles folder]. split; [reflexivity|].
  split; [repeat constructor|]. split; [constructor|]. split; [intros f []|].
  intros acc Hacc. destruct Hr as [->| ->]; [discriminate Hacc|].
  injection Hacc as <-. simpl. split; [auto|]. split; [intros f []|].
  exists []. rewrite app_nil_r, Nat.sub_diag. repeat split. constructor.
Qed.

Lemma detect_folders_stretch (h : Host) (folders : list WorkspaceFolder)
    (visitedFiles : gset string) (allTasks : list Task) (s s' : Provider)
    (r : Outcome (gset string * list Task)) :
  detect_folders h folders visitedFiles allTasks s = (r, s') ->
  discovery_stretch h
    (fun u => exists folder paths,
         In folder folders /\ findFiles h folder = Some paths /\ In u paths
         /\ isExcluded h (uri_path u) = false)
    visitedFiles allTasks s s' r.
Proof.
  revert visitedFiles allTasks s.
  induction folders as [|folder folders IH]; intros visitedFiles allTasks s H.
  - injection H as <- <-. apply discovery_stretch_nothing.
  - simpl in H. unfold mbind at 1 in H. unfold Async_bind at 1, perform in H.
    destruct (findFiles h folder) as [paths|] eqn:Hff.
    + unfold mbind, Async_bind in H.
      destruct (detect_paths h paths visitedFiles allTasks
                  (record_effect (FindFiles folder) s)) as [r1 s1] eqn:Hp.
      apply detect_paths_stretch in Hp.
      assert (Hp' : discovery_stretch h
                      (fun u => exists folder0 paths0,
                           In folder0 (folder :: folders)
                           /\ findFiles h folder0 = Some paths0 /\ In u paths0
                           /\ isExcluded h (uri_path u) = false)
                      visitedFiles allTasks (record_effect (FindFiles folder) s) s1 r1).
      { eapply discovery_stretch_weaken; [|exact Hp].
        intros u [Hu He]. exists folder, paths. split; [left; reflexivity|]. auto. }
      eapply discovery_stretch_then.
      { apply discovery_stretch_findFiles. right. reflexivity. }
      simpl. destruct r1 as [acc|].
      * eapply discovery_stretch_then; [exact Hp'|].
        eapply discovery_stretch_weaken; [|apply IH, H].
        intros u (folder0 & paths0 & Hf & Hrest). exists folder0, paths0.
        split; [right; exact Hf|exact Hrest].
      * injection H as <- <-. exact Hp'.
    + injection H as <- <-. apply discovery_stretch_findFiles. left. reflexivity.
Qed.

Lemma materialise_In (keys : list string) (folder : WorkspaceFolder) (u : Uri) (id : nat)
    (t : Task) :
  In t (materialise keys folder u id) ->
  uri (definition t) = u /\ scope t = folder /\ In (name t) keys.
Proof.
  revert id. induction keys as [|each keys IH]; intros id Hin; [contradiction|].
  simpl in Hin. destruct Hin as [<-|Hin].
  - split; [|split; [reflexivity|left; reflexivity]].
    unfold createYarnTask. cbv zeta. cbn [set_group definition].
    destruct (negb (String.length (getRelativePath (Some folder) u) =? 0)%nat); reflexivity.
  - destruct (IH (S id) Hin) as (H1 & H2 & H3).
    split; [exact H1|]. split; [exact H2|]. right. exact H3.
Qed.

(** A call of [detectYarnfiles] leaves [cachedTasks] alone and does not take
    identities back. *)
Lemma discovery_stretch_of_detect (h : Host) (s s' : Provider) (r : Outcome (list Task)) :
  detectYarnfiles h s = (r, s') ->
  cachedTasks s' = cachedTasks s /\ next_task_id s <= next_task_id s'.
Proof.
  unfold detectYarnfiles. unfold mbind at 1. unfold Async_bind at 1, perform.
  destruct (workspaceFolders h) as [folders|].
  - unfold mbind, Async_bind.
    destruct (detect_folders h folders ∅ [] (record_effect Discovery s)) as [r1 s1] eqn:Hd.
    apply detect_folders_stretch in Hd. destruct Hd as (Hc & Hn & _).
    intros H. assert (s' = s1) as -> by (destruct r1; injection H; auto).
    split; [exact Hc|exact Hn].
  - intros H. injection H as <- <-. split; [reflexivity|simpl; lia].
Qed.

(** X4: in a discovery pass no file is read twice, and every file read is a
    path [findFiles] returned for a workspace folder that [isExcluded] lets
    through; the pass leaves [cachedTasks] alone. *)
Theorem discovery_reads_candidates_once (h : Host) (s s' : Provider)
    (r : Outcome (list Task)) :
  detectYarnfiles h s = (r, s') ->
  cachedTasks s' = cachedTasks s
  /\ exists added,
      effects s' = added ++ effects s
      /\ List.NoDup (reads added)
      /\ forall f, In f (reads added) -> exists u, candidate h u /\ fsPath u = f.
Proof.
  unfold detectYarnfiles. unfold mbind at 1. unfold Async_bind at 1, perform.
  destruct (workspaceFolders h) as [folders|] eqn:Hw.
  - unfold mbind, Async_bind.
    destruct (detect_folders h folders ∅ [] (record_effect Discovery s)) as [r1 s1] eqn:Hd.
    apply detect_folders_stretch in Hd.
    destruct Hd as (Hc & _ & added & He & _ & Hnd & Hread & _).
    intros H. assert (s' = s1) as -> by (destruct r1; injection H; auto).
    split; [exact Hc|]. exists (added ++ [Discovery]).
    split; [rewrite He, <- app_assoc; reflexivity|].
    rewrite reads_app. simpl. rewrite app_nil_r. split; [exact Hnd|].
    intros f Hf. destruct (Hread f Hf) as [_ (u & (folder & paths & H1 & H2 & H3 & H4) & Hu)].
    exists u. split; [|exact Hu]. exists folders, folder, paths. auto.
  - intros H. injection H as <- <-. split; [reflexivity|].
    exists [Discovery]. split; [reflexivity|]. split; [constructor|]. intros f [].
Qed.

Lemma discovery_reads_candidates_once_witness :
  exists added,
    effects populated = added ++ effects fresh_provider
    /\ List.NoDup (reads added)
    /\ forall f, In f (reads added) -> exists u, candidate two_files_host u /\ fsPath u = f.
Proof.
  assert (H : detectYarnfiles two_files_host fresh_provider
              = (Resolved populated_tasks,
                 store_cachedTasks None populated)) by (vm_compute; reflexivity).
  exact (proj2 (discovery_reads_candidates_once two_files_host fresh_provider _ _ H)).
Defined.

Lemma detect_tasks_of_candidates (h : Host) (s s' : Provider) (tasks : list Task) :
  detectYarnfiles h s = (Resolved tasks, s') ->
  Forall (fun t =>
            candidate h (uri (definition t))
            /\ getWorkspaceFolder h (uri (definition t)) = Some (scope t)
            /\ exists documentText,
                readFile h (fsPath (uri (definition t))) = Some documentText
                /\ In (name t) (Object_keys (extract documentText)))
         tasks.
Proof.
  unfold detectYarnfiles. unfold mbind at 1. unfold Async_bind at 1, perform.
  destruct (workspaceFolders h) as [folders|] eqn:Hw.
  - unfold mbind, Async_bind.
    destruct (detect_folders h folders ∅ [] (record_effect Discovery s)) as [r1 s1] eqn:Hd.
    apply detect_folders_stretch in Hd.
    destruct r1 as [acc|]; [|discriminate].
    intros H. injection H as <- <-.
    destruct Hd as (_ & _ & added & _ & _ & _ & _ & Hres).
    destruct (Hres acc eq_refl) as (_ & _ & new & Hnew & Hof & _).
    simpl in Hnew. rewrite Hnew. eapply Forall_impl; [exact Hof|].
    intros t (u & (folder & paths & H1 & H2 & H3 & H4) & (f & text & id & Hg & Hr & Hin)).
    destruct (materialise_In _ _ _ _ _ Hin) as (Hu & Hs & Hk).
    rewrite Hu, Hs. split; [exists folders, folder, paths; auto|].
    split; [exact Hg|]. exists text. auto.
  - intros H. injection H as <- <-. constructor.
Qed.

(** X5: every task a discovery pass returns was built from a path that
    [findFiles] returned for a workspace folder and that [isExcluded] lets
    through: it carries the uri of that path, the folder
    [getWorkspaceFolder] gives for it and, as its name, a key of the object
    extracted from the text of the file. *)
Theorem discovered_tasks_come_from_candidates (h : Host) (s s' : Provider)
    (tasks : list Task) :
  detectYarnfiles h s = (Resolved tasks, s') ->
  Forall (fun t =>
            candidate h (uri (definition t))
            /\ getWorkspaceFolder h (uri (definition t)) = Some (scope t)
            /\ exists documentText,
                readFile h (fsPath (uri (definition t))) = Some documentText
                /\ In (name t) (Object_keys (extract documentText)))
         tasks.
Proof. apply detect_tasks_of_candidates. Qed.

Lemma discovered_tasks_come_from_candidates_witness :
  Forall (fun t =>
            candidate two_files_host (uri (definition t))
            /\ getWorkspaceFolder two_files_host (uri (definition t)) = Some (scope t)
            /\ exists documentText,
                readFile two_files_host (fsPath (uri (definition t))) = Some documentText
                /\ In (name t) (Object_keys (extract documentText)))
         populated_tasks.
Proof.
  refine (discovered_tasks_come_from_candidates two_files_host fresh_provider
            (store_cachedTasks None populated) populated_tasks _).
  vm_compute. reflexivity.
Defined.

(** ** Invariants of the cache *)

Lemma cached_store (c : option (list Task)) (s : Provider) :
  cached (store_cachedTasks c s) = match c with Some arr => arr | None => [] end.
Proof. reflexivity. Qed.

Lemma cached_collapse (arr : list Task) (s : Provider) :
  cached (store_cachedTasks (collapse arr) s) = arr.
Proof. destruct arr; reflexivity. Qed.

Lemma other_files_Forall (P : Task -> Prop) (a : Uri) (arr : list Task) :
  Forall P arr -> Forall P (other_files a arr).
Proof.
  intros H. apply List.Forall_forall. intros t Ht. apply other_files_In in Ht as [Ht _].
  rewrite List.Forall_forall in H. apply H, Ht.
Qed.

(** The cached array after a call with a file on an initialised cache: the
    tasks of the other files, then either nothing or the tasks materialised
    from the file with the next identities. *)
Lemma invalidate_file_cached (h : Host) (a : Uri) (arr : list Task) (s : Provider) :
  cachedTasks s = Some arr ->
  exists fresh,
    cached (snd (invalidateTasksCacheYarn h (Some a) s)) = other_files a arr ++ fresh
    /\ next_task_id (snd (invalidateTasksCacheYarn h (Some a) s))
       = List.length fresh + next_task_id s
    /\ (fresh = []
        \/ exists folder documentText,
            getWorkspaceFolder h a = Some folder
            /\ readFile h (fsPath a) = Some documentText
            /\ fresh = materialise (Object_keys (extract documentText)) folder a
                         (next_task_id s)).
Proof.
  intros Hc. rewrite (invalidate_file_eq h a arr s Hc). cbv zeta.
  destruct (pathExists h (fsPath a)).
  - destruct (getWorkspaceFolder h a) as [folder|].
    + destruct (readFile h (fsPath a)) as [documentText|].
      * exists (materialise (Object_keys (extract documentText)) folder a (next_task_id s)).
        cbn [snd]. rewrite cached_collapse. split; [reflexivity|].
        split; [rewrite materialise_length; reflexivity|].
        right. exists folder, documentText. auto.
      * exists []. rewrite app_nil_r. auto.
    + exists []. cbn [snd]. rewrite cached_collapse, app_nil_r. auto.
  - exists []. cbn [snd]. rewrite cached_collapse, app_nil_r. auto.
Qed.

(** The tasks a call of [provideYarnfiles] on an uninitialised cache leaves
    in the cache are tasks of files, with the identities allocated by the
    call. *)
Lemma provide_uninitialised_cached (h : Host) (s : Provider) :
  cachedTasks s = None ->
  Forall (fun t => exists u, task_of_file h u t) (cached (snd (provideYarnfiles h s)))
  /\ map task_id (cached (snd (provideYarnfiles h s)))
     = seq (next_task_id s) (List.length (cached (snd (provideYarnfiles h s))))
  /\ next_task_id s + List.length (cached (snd (provideYarnfiles h s)))
     <= next_task_id (snd (provideYarnfiles h s)).
Proof.
  intros Hc. unfold provideYarnfiles. async. rewrite Hc.
  unfold detectYarnfiles. unfold mbind at 1. unfold Async_bind at 1, perform.
  destruct (workspaceFolders h) as [folders|].
  - unfold mbind, Async_bind.
    destruct (detect_folders h folders ∅ [] (record_effect Discovery s)) as [r1 s1] eqn:Hd.
    apply detect_folders_stretch in Hd.
    destruct Hd as (Hc1 & Hn & added & _ & _ & _ & _ & Hres).
    destruct r1 as [acc|]; unfold mret, Async_ret; cbn [snd].
    + destruct (Hres acc eq_refl) as (_ & _ & new & Hnew & Hof & Hid).
      simpl in Hnew, Hid, Hn. rewrite cached_store, Hnew.
      assert (Hlen : List.length new = next_task_id s1 - next_task_id s).
      { rewrite <- (length_map task_id), Hid, length_seq. reflexivity. }
      split; [|split].
      * eapply Forall_impl; [exact Hof|]. intros t (u & _ & Ht). exists u. exact Ht.
      * rewrite Hid, Hlen. reflexivity.
      * simpl. lia.
    + unfold cached. simpl in Hc1. rewrite Hc1, Hc. simpl.
      split; [constructor|]. split; [reflexivity|]. simpl in Hn. lia.
  - unfold mret, Async_ret. cbn [snd]. rewrite cached_store. simpl.
    split; [constructor|]. split; [reflexivity|lia].
Qed.

(** A property of the tasks [readYarnfile] builds is a property of every
    cached task, call after call. *)
Lemma after_call_Forall (P : Task -> Prop) (s : Provider) (c : Call) :
  (forall keys folder u id, Forall P (materialise keys folder u id)) ->
  Forall P (cached s) -> Forall P (cached (after_call s c)).
Proof.
  intros HP Hs. destruct c as [h|h opt]; simpl.
  - unfold provideTasks. destruct (cachedTasks s) as [arr|] eqn:Hc.
    + rewrite (provideYarnfiles_cached h s arr Hc). exact Hs.
    + destruct (provide_uninitialised_cached h s Hc) as [Hof _].
      eapply Forall_impl; [exact Hof|].
      intros t (u & folder & text & id & _ & _ & Hin).
      specialize (HP (Object_keys (extract text)) folder u id).
      rewrite List.Forall_forall in HP. apply HP, Hin.
  - destruct opt as [a|]; [destruct (cachedTasks s) as [arr|] eqn:Hc|].
    + destruct (invalidate_file_cached h a arr s Hc) as (fresh & -> & _ & Hf).
      unfold cached in Hs. rewrite Hc in Hs.
      apply Forall_app. split; [apply other_files_Forall, Hs|].
      destruct Hf as [->|(folder & text & _ & _ & ->)]; [constructor|apply HP].
    + rewrite invalidate_reset by (right; exact Hc). constructor.
    + rewrite invalidate_reset by (left; reflexivity). constructor.
Qed.

Lemma after_calls_Forall (P : Task -> Prop) (calls : list Call) (s : Provider) :
  (forall keys folder u id, Forall P (materialise keys folder u id)) ->
  Forall P (cached s) -> Forall P (cached (after_calls calls s)).
Proof.
  intros HP. revert s. induction calls as [|c calls IH]; intros s Hs; [exact Hs|].
  simpl. apply IH, after_call_Forall; assumption.
Qed.

Lemma materialise_yarn_task (keys : list string) (folder : WorkspaceFolder) (u : Uri)
    (id : nat) :
  Forall yarn_task (materialise keys folder u id).
Proof.
  revert id. induction keys as [|each keys IH]; intros id; simpl; constructor; [|apply IH].
  unfold yarn_task, createYarnTask. cbv zeta. cbn [set_group definition].
  destruct (negb (String.length (getRelativePath (Some folder) u) =? 0)%nat);
    repeat split; reflexivity.
Qed.

(** X6: from the module's initial state, whatever calls of [provideTasks]
    and [invalidateTasksCacheYarn] are made and however they settle, every
    cached task has type and source "yarn", the Build group, its name as
    script, the command line [npx yarn <name>], the directory of its file as
    working directory and the base name of its file as file name. *)
Theorem cached_tasks_are_yarn_tasks (calls : list Call) (s : Provider) :
  cachedTasks s = None ->
  Forall yarn_task (cached (after_calls calls s)).
Proof.
  intros Hc. apply after_calls_Forall.
  - apply materialise_yarn_task.
  - unfold cached. rewrite Hc. constructor.
Qed.

Lemma cached_tasks_are_yarn_tasks_witness :
  Forall yarn_task
    (cached (after_calls
               [call_provideTasks two_files_host;
                call_invalidateTasksCacheYarn edited_host (Some file_a)]
               fresh_provider)).
Proof.
  refine (cached_tasks_are_yarn_tasks _ fresh_provider _). reflexivity.
Defined.

Lemma filter_map_NoDup {A B : Type} (f : A -> B) (p : A -> bool) (l : list A) :
  List.NoDup (map f l) -> List.NoDup (map f (List.filter p l)).
Proof.
  induction l as [|x l IH]; intros H; [exact H|].
  simpl in *. apply List.NoDup_cons_iff in H as [Hx H].
  destruct (p x); [|apply IH, H].
  simpl. apply List.NoDup_cons_iff. split; [|apply IH, H].
  intros Hin. apply Hx. apply in_map_iff in Hin as (y & Hy & Hin).
  apply in_map_iff. exists y. split; [exact Hy|]. apply filter_In in Hin as [Hin _]. exact Hin.
Qed.

Lemma after_call_distinct_objects (s : Provider) (c : Call) :
  distinct_objects s -> distinct_objects (after_call s c).
Proof.
  intros [Hnd Hlt]. destruct c as [h|h opt]; simpl.
  - unfold provideTasks. destruct (cachedTasks s) as [arr|] eqn:Hc.
    + rewrite (provideYarnfiles_cached h s arr Hc). split; assumption.
    + destruct (provide_uninitialised_cached h s Hc) as (_ & Hid & Hn).
      split; [rewrite Hid; apply List.seq_NoDup|].
      apply List.Forall_forall. intros t Ht.
      assert (Hin : In (task_id t) (map task_id (cached (snd (provideYarnfiles h s)))))
        by (apply in_map, Ht).
      rewrite Hid in Hin. apply in_seq in Hin. lia.
  - destruct opt as [a|]; [destruct (cachedTasks s) as [arr|] eqn:Hc|].
    + destruct (invalidate_file_cached h a arr s Hc) as (fresh & Hcached & Hnext & Hf).
      unfold distinct_objects. rewrite Hcached, Hnext.
      unfold cached in Hnd, Hlt. rewrite Hc in Hnd, Hlt.
      assert (Hids : map task_id fresh = seq (next_task_id s) (List.length fresh)).
      { destruct Hf as [->|(folder & text & _ & _ & ->)]; [reflexivity|].
        rewrite materialise_ids, materialise_length. reflexivity. }
      split.
      * rewrite map_app. apply List.NoDup_app.
        -- apply filter_map_NoDup, Hnd.
        -- rewrite Hids. apply List.seq_NoDup.
        -- intros i Hi Hi'. rewrite Hids in Hi'. apply in_seq in Hi'.
           apply in_map_iff in Hi as (t & <- & Ht).
           apply other_files_In in Ht as [Ht _].
           rewrite List.Forall_forall in Hlt. specialize (Hlt t Ht). lia.
      * apply Forall_app. split.
        -- apply other_files_Forall. eapply Forall_impl; [exact Hlt|].
           intros t Ht. simpl in Ht. lia.
        -- apply List.Forall_forall. intros t Ht.
           assert (Hin : In (task_id t) (map task_id fresh)) by (apply in_map, Ht).
           rewrite Hids in Hin. apply in_seq in Hin. lia.
    + rewrite invalidate_reset by (right; exact Hc). split; constructor.
    + rewrite invalidate_reset by (left; reflexivity). split; constructor.
Qed.

Lemma after_calls_distinct_objects (calls : list Call) (s : Provider) :
  distinct_objects s -> distinct_objects (after_calls calls s).
Proof.
  revert s. induction calls as [|c calls IH]; intros s Hs; [exact Hs|].
  simpl. apply IH, after_call_distinct_objects, Hs.
Qed.

(** X7: from the module's initial state, whatever calls are made and however
    they settle, the cached array never holds the same task object twice:
    the objects in it were created by distinct [new Task]. *)
Theorem cached_tasks_are_distinct_objects (calls : list Call) (s : Provider) :
  cachedTasks s = None ->
  List.NoDup (map task_id (cached (after_calls calls s)))
  /\ List.NoDup (cached (after_calls calls s)).
Proof.
  intros Hc.
  assert (H : distinct_objects (after_calls calls s)).
  { apply after_calls_distinct_objects. unfold distinct_objects, cached. rewrite Hc.
    split; constructor. }
  destruct H as [H _]. split; [exact H|].
  eapply List.NoDup_map_inv. exact H.
Qed.

Lemma cached_tasks_are_distinct_objects_witness :
  List.NoDup
    (map task_id
       (cached (after_calls
                  [call_provideTasks two_files_host;
                   call_invalidateTasksCacheYarn edited_host (Some file_a);
                   call_invalidateTasksCacheYarn edited_host (Some file_b)]
                  fresh_provider)))
  /\ List.NoDup
       (cached (after_calls
                  [call_provideTasks two_files_host;
                   call_invalidateTasksCacheYarn edited_host (Some file_a);
                   call_invalidateTasksCacheYarn edited_host (Some file_b)]
                  fresh_provider)).
Proof.
  refine (cached_tasks_are_distinct_objects _ fresh_provider _). reflexivity.
Defined.

(** ** Invalidating twice *)

Lemma materialise_without_identity (keys : list string) (folder : WorkspaceFolder) (u : Uri)
    (id id' : nat) :
  map without_identity (materialise keys folder u id)
  = map without_identity (materialise keys folder u id').
Proof.
  revert id id'. induction keys as [|each keys IH]; intros id id'; simpl; [reflexivity|].
  f_equal. apply IH.
Qed.

Lemma fresh_tasks_without_identity (h : Host) (u : Uri) (id id' : nat) :
  map without_identity (fresh_tasks h u id) = map without_identity (fresh_tasks h u id').
Proof.
  unfold fresh_tasks. destruct (getWorkspaceFolder h u); [|reflexivity].
  destruct (readFile h (fsPath u)); [|reflexivity]. apply materialise_without_identity.
Qed.

Lemma other_files_app (a : Uri) (l1 l2 : list Task) :
  other_files a (l1 ++ l2) = other_files a l1 ++ other_files a l2.
Proof. unfold other_files. apply List.filter_app. Qed.

Lemma other_files_idempotent (a : Uri) (arr : list Task) :
  other_files a (other_files a arr) = other_files a arr.
Proof.
  unfold other_files. induction arr as [|t arr IH]; [reflexivity|].
  simpl. destruct (negb (bool_decide (fsPath (uri (definition t)) = fsPath a))) eqn:E.
  - simpl. rewrite E, IH. reflexivity.
  - exact IH.
Qed.

Lemma other_files_of_file (a : Uri) (arr : list Task) :
  Forall (fun t => uri (definition t) = a) arr -> other_files a arr = [].
Proof.
  unfold other_files. induction arr as [|t arr IH]; intros H; [reflexivity|].
  apply Forall_cons in H as [Ht H]. simpl. rewrite Ht.
  rewrite bool_decide_eq_true_2 by reflexivity. simpl. apply IH, H.
Qed.

Lemma cached_of_collapse (s : Provider) (arr : list Task) :
  cachedTasks s = collapse arr -> cached s = arr.
Proof. unfold cached. intros ->. destruct arr; reflexivity. Qed.

(** X8: invalidating twice in a row for the same argument on the same host
    leaves the same tasks as invalidating once, but for the identity of the
    objects: the tasks of the file are not duplicated. *)
Theorem invalidate_twice_same_tasks (h : Host) (opt : option Uri) (s s1 s2 : Provider) :
  invalidateTasksCacheYarn h opt s = (Resolved tt, s1) ->
  invalidateTasksCacheYarn h opt s1 = (Resolved tt, s2) ->
  map without_identity (cached s2) = map without_identity (cached s1).
Proof.
  intros H1 H2.
  destruct opt as [a|]; [destruct (cachedTasks s) as [arr|] eqn:Hc|].
  - destruct (invalidate_file_resolved h a arr s s1 Hc H1) as [Hc1 _].
    set (fresh1 := if pathExists h (fsPath a)
                   then fresh_tasks h a (next_task_id s) else []) in *.
    destruct (other_files a arr ++ fresh1) as [|t l] eqn:E.
    + simpl in Hc1. rewrite invalidate_reset in H2 by (right; exact Hc1).
      injection H2 as <-. unfold cached. simpl. rewrite Hc1. reflexivity.
    + assert (Hc1' : cachedTasks s1 = Some (other_files a arr ++ fresh1))
        by (rewrite Hc1, E; reflexivity).
      destruct (invalidate_file_resolved h a _ s1 s2 Hc1' H2) as [Hc2 _].
      rewrite (cached_of_collapse _ _ Hc2). unfold cached. rewrite Hc1'.
      rewrite other_files_app, other_files_idempotent.
      assert (Hf : other_files a fresh1 = []).
      { apply other_files_of_file. unfold fresh1.
        destruct (pathExists h (fsPath a)); [apply fresh_tasks_uri|constructor]. }
      rewrite Hf, app_nil_r, !map_app. f_equal. unfold fresh1.
      destruct (pathExists h (fsPath a)); [|reflexivity].
      apply fresh_tasks_without_identity.
  - rewrite invalidate_reset in H1 by (right; exact Hc). injection H1 as <-.
    rewrite invalidate_reset in H2 by (right; reflexivity). injection H2 as <-.
    reflexivity.
  - rewrite invalidate_reset in H1 by (left; reflexivity). injection H1 as <-.
    rewrite invalidate_reset in H2 by (left; reflexivity). injection H2 as <-.
    reflexivity.
Qed.

Lemma invalidate_twice_same_tasks_witness :
  map without_identity
    (cached (snd (invalidateTasksCacheYarn edited_host (Some file_a)
                    (snd (invalidateTasksCacheYarn edited_host (Some file_a) populated)))))
  = map without_identity
      (cached (snd (invalidateTasksCacheYarn edited_host (Some file_a) populated))).
Proof.
  refine (invalidate_twice_same_tasks edited_host (Some file_a) populated _ _ _ _).
  - vm_compute. reflexivity.
  - vm_compute. reflexivity.
Defined.

(** ** A discovery that fails *)

Lemma detect_paths_rejected (h : Host) (paths : list Uri) (visitedFiles : gset string)
    (allTasks : list Task) (s s' : Provider) :
  detect_paths h paths visitedFiles allTasks s = (Rejected, s') ->
  exists u,
    In u paths /\ isExcluded h (uri_path u) = false
    /\ getWorkspaceFolder h u <> None /\ readFile h (fsPath u) = None.
Proof.
  revert visitedFiles allTasks s.
  induction paths as [|fpath paths IH]; intros visitedFiles allTasks s H; [discriminate H|].
  simpl in H.
  assert (Hrest : forall v a s0,
             detect_paths h paths v a s0 = (Rejected, s') ->
             exists u,
               In u (fpath :: paths) /\ isExcluded h (uri_path u) = false
               /\ getWorkspaceFolder h u <> None /\ readFile h (fsPath u) = None).
  { intros v a s0 H0. destruct (IH v a s0 H0) as (u & Hu & Hrest).
    exists u. split; [right; exact Hu|exact Hrest]. }
  destruct (isExcluded h (uri_path fpath)) eqn:Hex; simpl in H; [eapply Hrest, H|].
  destruct (bool_decide (fsPath fpath ∈ visitedFiles)); simpl in H; [eapply Hrest, H|].
  unfold mbind, Async_bind in H. rewrite readYarnfile_eq in H.
  destruct (getWorkspaceFolder h fpath) as [folder|] eqn:Hg; [|eapply Hrest, H].
  destruct (readFile h (fsPath fpath)) as [text|] eqn:Hr; [eapply Hrest, H|].
  exists fpath. split; [left; reflexivity|]. split; [exact Hex|].
  split; [congruence|exact Hr].
Qed.

Lemma detect_folders_rejected (h : Host) (folders : list WorkspaceFolder)
    (visitedFiles : gset string) (allTasks : list Task) (s s' : Provider) :
  detect_folders h folders visitedFiles allTasks s = (Rejected, s') ->
  (exists folder, In folder folders /\ findFiles h folder = None)
  \/ (exists folder paths u,
         In folder folders /\ findFiles h folder = Some paths /\ In u paths
         /\ isExcluded h (uri_path u) = false
         /\ getWorkspaceFolder h u <> None /\ readFile h (fsPath u) = None).
Proof.
  revert visitedFiles allTasks s.
  induction folders as [|folder folders IH]; intros visitedFiles allTasks s H;
    [discriminate H|].
  simpl in H. unfold mbind at 1 in H. unfold Async_bind at 1, perform in H.
  destruct (findFiles h folder) as [paths|] eqn:Hff.
  - unfold mbind, Async_bind in H.
    destruct (detect_paths h paths visitedFiles allTasks
                (record_effect (FindFiles folder) s)) as [[acc|] s1] eqn:Hp.
    + destruct (IH _ _ _ H) as [(f & Hf & Hn)|(f & ps & u & Hf & Hrest)].
      * left. exists f. split; [right; exact Hf|exact Hn].
      * right. exists f, ps, u. split; [right; exact Hf|exact Hrest].
    + right. destruct (detect_paths_rejected _ _ _ _ _ _ Hp) as (u & Hu & Hrest).
      exists folder, paths, u. split; [left; reflexivity|]. auto.
  - left. exists folder. split; [left; reflexivity|exact Hff].
Qed.

(** X9: [provideTasks] is rejected only on an uninitialised cache, when
    [findFiles] is rejected for a workspace folder or the read of a path that
    may be read is; the cache is then still uninitialised, so that the next
    call starts a discovery again. *)
Theorem provideTasks_rejected (h : Host) (s s' : Provider) :
  provideTasks h s = (Rejected, s') ->
  cachedTasks s = None /\ cachedTasks s' = None
  /\ ((exists folders folder,
          workspaceFolders h = Some folders /\ In folder folders
          /\ findFiles h folder = None)
      \/ (exists u, candidate h u /\ readFile h (fsPath u) = None)).
Proof.
  unfold provideTasks, provideYarnfiles. unfold mbind at 1. unfold Async_bind at 1.
  unfold get_cachedTasks. destruct (cachedTasks s) as [arr|] eqn:Hc; [discriminate|].
  unfold mbind, Async_bind.
  destruct (detectYarnfiles h s) as [[tasks|] s1] eqn:Hd; [discriminate|].
  intros H. injection H as <-. split; [reflexivity|].
  destruct (discovery_stretch_of_detect h s s1 Rejected Hd) as [Hc1 _].
  split; [congruence|].
  unfold detectYarnfiles in Hd. unfold mbind at 1 in Hd. unfold Async_bind at 1, perform in Hd.
  destruct (workspaceFolders h) as [folders|] eqn:Hw; [|discriminate Hd].
  unfold mbind, Async_bind in Hd.
  destruct (detect_folders h folders ∅ [] (record_effect Discovery s)) as [[acc|] s2] eqn:Hf;
    [discriminate Hd|].
  destruct (detect_folders_rejected _ _ _ _ _ _ Hf)
    as [(f & Hin & Hn)|(f & ps & u & Hin & Hff & Hu & Hex & _ & Hr)].
  - left. exists folders, f. auto.
  - right. exists u. split; [|exact Hr]. exists folders, f, ps. auto.
Qed.

Lemma provideTasks_rejected_witness :
  cachedTasks fresh_provider = None
  /\ cachedTasks (snd (provideTasks unreadable_host fresh_provider)) = None
  /\ ((exists folders folder,
          workspaceFolders unreadable_host = Some folders /\ In folder folders
          /\ findFiles unreadable_host folder = None)
      \/ (exists u, candidate unreadable_host u
                    /\ readFile unreadable_host (fsPath u) = None)).
Proof.
  refine (provideTasks_rejected unreadable_host fresh_provider _ _).
  vm_compute. reflexivity.
Defined.

(** ** The visitor: what counts in a scan *)

Lemma handle_scriptOffset_irrelevant (s : Visitor) (e : Event) (n : Z) :
  set_scriptOffset 0 (handle s e)
  = match significant e with
    | Some e' => set_scriptOffset 0 (handle (set_scriptOffset n s) e')
    | None => set_scriptOffset 0 s
    end.
Proof.
  destruct s as [so is_ it il sc sk].
  destruct e as [| |value offset len|property offset len|c]; simpl; try reflexivity.
  - unfold visitor_onObjectEnd. simpl. destruct is_; reflexivity.
  - unfold visitor_onLiteralValue. simpl. destruct is_; [reflexivity|].
    destruct (truthy il); [|reflexivity].
    destruct (typeof_is_string value); [|reflexivity].
    destruct (bool_decide (il = Some "label")); reflexivity.
  - unfold visitor_onObjectProperty. simpl.
    destruct (String.eqb property "scripts"); [reflexivity|].
    destruct is_; [reflexivity|].
    destruct (String.eqb property "tasks").
    { simpl. destruct (truthy il); reflexivity. }
    destruct (String.eqb property "label" && it && negb (truthy il)); reflexivity.
Qed.

Lemma visit_skeleton (evs : list Event) (s : Visitor) (n : Z) :
  set_scriptOffset 0 (visit evs s)
  = set_scriptOffset 0 (visit (skeleton evs) (set_scriptOffset n s)).
Proof.
  revert s n. induction evs as [|e evs IH]; intros s n.
  - reflexivity.
  - rewrite visit_cons. unfold skeleton. simpl omap. fold (skeleton evs).
    destruct (significant e) as [e'|] eqn:E.
    + rewrite visit_cons.
      rewrite (IH (handle s e) (scriptOffset (handle (set_scriptOffset n s) e'))).
      f_equal. f_equal.
      pose proof (handle_scriptOffset_irrelevant s e n) as H. rewrite E in H.
      destruct (handle s e) as [so1 a1 b1 c1 d1 e1],
               (handle (set_scriptOffset n s) e') as [so2 a2 b2 c2 d2 e2].
      unfold set_scriptOffset in *. simpl in *. injection H as -> -> -> -> ->. reflexivity.
    + rewrite (IH (handle s e) n). f_equal. f_equal.
      pose proof (handle_scriptOffset_irrelevant s e n) as H. rewrite E in H.
      destruct (handle s e) as [so1 a1 b1 c1 d1 e1], s as [so a b c d e0].
      unfold set_scriptOffset in *. simpl in *. injection H as -> -> -> -> ->. reflexivity.
Qed.

(** X10: the object [findTargets] returns depends only on the property
    names, the literal values and the object ends of the scan, in their
    order: the offsets and lengths reported, the errors and the callbacks
    without a handler (separators, comments, starts of objects and arrays,
    ends of arrays) make no difference. *)
Theorem extract_depends_on_skeleton (evs1 evs2 : list Event) :
  skeleton evs1 = skeleton evs2 -> extract evs1 = extract evs2.
Proof.
  intros H. unfold extract.
  change (scripts (visit evs1 initial_visitor))
    with (scripts (set_scriptOffset 0 (visit evs1 initial_visitor))).
  change (scripts (visit evs2 initial_visitor))
    with (scripts (set_scriptOffset 0 (visit evs2 initial_visitor))).
  rewrite (visit_skeleton evs1 initial_visitor 0), (visit_skeleton evs2 initial_visitor 0), H.
  reflexivity.
Qed.

Lemma extract_depends_on_skeleton_witness :
  extract (json_events build_and_clean)
  = extract [onObjectProperty "scripts" 0 0;
             unhandled onComment;
             onObjectProperty "build" 100 5; onLiteralValue (VString "tsc -p .") 200 8;
             onError;
             onObjectProperty "clean" 300 5; onLiteralValue (VString "rimraf out") 400 10;
             onObjectEnd; onObjectEnd].
Proof.
  refine (extract_depends_on_skeleton _ _ _). reflexivity.
Defined.

(** ** The visitor: where names and values come from *)

Lemma js_set_own_get (o : JSObject) (k k' : string) (v v' : JSValue) :
  own_get k' (own (js_set o k v)) = Some v' ->
  (k' = k /\ v' = v) \/ own_get k' (own o) = Some v'.
Proof.
  unfold js_set. destruct (String.eqb k "__proto__" && has_Object_prototype o).
  - destruct v; simpl; auto.
  - simpl. rewrite own_get_own_set. destruct (String.eqb_spec k' k) as [->|_]; [|auto].
    intros H. injection H as <-. auto.
Qed.

Lemma handle_bound (K : string -> Prop) (V : JSValue -> Prop) (s : Visitor) (e : Event) :
  (forall p o l, e = onObjectProperty p o l -> K p) ->
  (forall v o l, e = onLiteralValue v o l -> V v) ->
  (forall k v, own_get k (own (scripts s)) = Some v -> K k /\ V v) ->
  K (property_key (script s)) ->
  (forall k v, own_get k (own (scripts (handle s e))) = Some v -> K k /\ V v)
  /\ K (property_key (script (handle s e))).
Proof.
  intros HK HV Hown Hkey.
  assert (Hbind : forall value,
             V value ->
             forall k v, own_get k (own (scripts (bind_script value s))) = Some v ->
                         K k /\ V v).
  { intros value Hval k v H. simpl in H. apply js_set_own_get in H as [[-> ->]|H]; auto. }
  destruct e as [| |value offset len|property offset len|c]; simpl; auto.
  - unfold visitor_onObjectEnd. destruct (inScripts s); auto.
  - specialize (HV value offset len eq_refl).
    unfold visitor_onLiteralValue. destruct (inScripts s); [split; [apply Hbind, HV|exact Hkey]|].
    destruct (truthy (inTaskLabel s)); [|auto].
    destruct (typeof_is_string value); [|auto].
    destruct (bool_decide (inTaskLabel s = Some "label")); [|auto].
    split; [apply (Hbind value HV)|exact Hkey].
  - specialize (HK property offset len eq_refl).
    unfold visitor_onObjectProperty.
    destruct (String.eqb property "scripts"); [auto|].
    destruct (inScripts s); [split; [exact Hown|exact HK]|].
    destruct (String.eqb property "tasks").
    { simpl. destruct (truthy (inTaskLabel s)); auto. }
    destruct (String.eqb property "label" && inTasks s && negb (truthy (inTaskLabel s)));
      auto.
Qed.

Lemma visit_bound (K : string -> Prop) (V : JSValue -> Prop) (evs : list Event)
    (s : Visitor) :
  (forall p o l, In (onObjectProperty p o l) evs -> K p) ->
  (forall v o l, In (onLiteralValue v o l) evs -> V v) ->
  (forall k v, own_get k (own (scripts s)) = Some v -> K k /\ V v) ->
  K (property_key (script s)) ->
  forall k v, own_get k (own (scripts (visit evs s))) = Some v -> K k /\ V v.
Proof.
  revert s. induction evs as [|e evs IH]; intros s HK HV Hown Hkey; [exact Hown|].
  rewrite visit_cons.
  destruct (handle_bound K V s e) as [Hown' Hkey']; auto.
  - intros p o l ->. apply (HK p o l). left. reflexivity.
  - intros v o l ->. apply (HV v o l). left. reflexivity.
  - apply IH; auto.
    + intros p o l Hin. apply (HK p o l). right. exact Hin.
    + intros v o l Hin. apply (HV v o l). right. exact Hin.
Qed.

(** X11: the object [findTargets] returns binds nothing the scan did not
    report: every name in it is a property name of the scan, or the string
    "undefined", and every value in it is a literal value of the scan. *)
Theorem extract_binds_what_was_reported (evs : list Event) (k : string) (v : JSValue) :
  js_get_own (extract evs) k = Some v ->
  (k = "undefined" \/ In k (reported_properties evs)) /\ In v (reported_literals evs).
Proof.
  unfold js_get_own, extract.
  apply (visit_bound (fun k => k = "undefined" \/ In k (reported_properties evs))
                     (fun v => In v (reported_literals evs))).
  - intros p o l Hin. right. unfold reported_properties. apply in_flat_map.
    exists (onObjectProperty p o l). split; [exact Hin|left; reflexivity].
  - intros v0 o l Hin. unfold reported_literals. apply in_flat_map.
    exists (onLiteralValue v0 o l). split; [exact Hin|left; reflexivity].
  - intros k0 v0 H. discriminate H.
  - left. reflexivity.
Qed.

Lemma extract_binds_what_was_reported_witness :
  ("undefined" = "undefined"
   \/ In "undefined" (reported_properties (json_events (two_labelled_tasks "build" "test"))))
  /\ In (VString "test") (reported_literals (json_events (two_labelled_tasks "build" "test"))).
Proof.
  refine (extract_binds_what_was_reported _ "undefined" (VString "test") _). reflexivity.
Defined.

(** ** Reading a package file *)

Lemma allocate_zero (s : Provider) : allocate 0 s = s.
Proof. destruct s; reflexivity. Qed.

(** X12: for a file whose scan reports no property named "scripts" or
    "tasks", well-formed or not, [readYarnfile] reads the file and resolves
    with no task. *)
Theorem readYarnfile_without_dialect (h : Host) (u : Uri) (folder : WorkspaceFolder)
    (documentText : list Event) (s : Provider) :
  getWorkspaceFolder h u = Some folder ->
  readFile h (fsPath u) = Some documentText ->
  Forall (fun p => p <> "scripts" /\ p <> "tasks") (reported_properties documentText) ->
  readYarnfile h u s = (Resolved [], record_effect (ReadFile (fsPath u)) s).
Proof.
  intros Hg Hr Hq. rewrite readYarnfile_eq, Hg, Hr.
  assert (He : extract documentText = empty_object).
  { unfold extract. rewrite (visit_no_dialect _ _ Hq); reflexivity. }
  rewrite He. simpl. rewrite allocate_zero. reflexivity.
Qed.

Lemma readYarnfile_without_dialect_witness :
  readYarnfile (host_with_text (json_events (JObject sample_after))) repo_package_json
               fresh_provider
  = (Resolved [], record_effect (ReadFile (fsPath repo_package_json)) fresh_provider).
Proof.
  refine (readYarnfile_without_dialect _ repo_package_json repo_folder
            (json_events (JObject sample_after)) fresh_provider _ _ _).
  - reflexivity.
  - reflexivity.
  - simpl. repeat constructor; discriminate.
Defined.

(** X13: for a scripts-style file whose script names are neither "scripts"
    nor "__proto__", [readYarnfile] resolves with one task per distinct
    script name, named after it. *)
Theorem readYarnfile_one_task_per_script (h : Host) (u : Uri) (folder : WorkspaceFolder)
    (before : list (string * (Z * Z) * JSON)) (at_ : Z * Z) (entries : list ScriptEntry)
    (after : list (string * (Z * Z) * JSON)) (s : Provider) :
  getWorkspaceFolder h u = Some folder ->
  readFile h (fsPath u) = Some (json_events (scripts_document before at_ entries after)) ->
  no_dialect_property before ->
  no_dialect_property after ->
  Forall (fun e => entry_name e <> "scripts" /\ entry_name e <> "__proto__") entries ->
  exists tasks s',
    readYarnfile h u s = (Resolved tasks, s')
    /\ List.NoDup (map name tasks)
    /\ (forall k, In k (map name tasks) <-> In k (map entry_name entries))
    /\ Forall (fun t => uri (definition t) = u /\ scope t = folder) tasks.
Proof.
  intros Hg Hr Hb Ha Hn. rewrite readYarnfile_eq, Hg, Hr.
  eexists. eexists. split; [reflexivity|].
  destruct (scripts_document_task_names before at_ entries after folder u (next_task_id s)
              Hb Ha Hn) as [Hnd Hk].
  split; [apply NoDup_ListNoDup, Hnd|]. split; [exact Hk|].
  apply List.Forall_forall. intros t Ht.
  destruct (materialise_In _ _ _ _ _ Ht) as (H1 & H2 & _). auto.
Qed.

Lemma readYarnfile_one_task_per_script_witness :
  exists tasks s',
    readYarnfile
      (host_with_text
         (json_events (scripts_document sample_before (20, 9)%Z sample_entries sample_after)))
      repo_package_json fresh_provider = (Resolved tasks, s')
    /\ List.NoDup (map name tasks)
    /\ (forall k, In k (map name tasks) <-> In k (map entry_name sample_entries))
    /\ Forall (fun t => uri (definition t) = repo_package_json /\ scope t = repo_folder)
              tasks.
Proof.
  refine (readYarnfile_one_task_per_script _ repo_package_json repo_folder
            sample_before (20, 9)%Z sample_entries sample_after fresh_provider _ _ _ _ _).
  - reflexivity.
  - reflexivity.
  - unfold no_dialect_property. simpl. repeat constructor; discriminate.
  - unfold no_dialect_property. simpl. repeat constructor; discriminate.
  - unfold sample_entries. repeat (constructor; [split; discriminate|]). constructor.
Defined.

(** ** [createYarnTask]: the file name *)

Lemma take_segment_slash (l rest : list ascii) :
  Forall (fun c => c <> slash) l -> take_segment (l ++ slash :: rest) = l.
Proof.
  induction l as [|c l IH]; intros H.
  - reflexivity.
  - apply Forall_cons in H as [Hc H]. simpl. apply Ascii.eqb_neq in Hc. rewrite Hc.
    rewrite (IH H). reflexivity.
Qed.

Lemma basename_of_file (dir file : string) :
  file <> "" -> no_slash file -> basename ((dir ++ "/") ++ file)%string = file.
Proof.
  intros Hne Hf. unfold basename. rewrite !chars_append.
  change (chars "/") with [slash].
  rewrite rev_app_distr, (rev_app_distr (chars dir)). simpl rev at 2. simpl app.
  assert (Hrev : Forall (fun c => c <> slash) (rev (chars file))).
  { apply Forall_rev, Hf. }
  assert (Hrne : rev (chars file) <> []).
  { intros E. apply (f_equal (@rev ascii)) in E. rewrite rev_involutive in E. simpl in E.
    apply Hne. rewrite <- (str_chars file), E. reflexivity. }
  rewrite drop_slashes_segment by assumption.
  rewrite take_segment_slash by assumption.
  rewrite rev_involutive. apply str_chars.
Qed.

(** X14: for a file whose path is a directory, a slash and a non-empty file
    name without slash, the definition of the task [createYarnTask] builds
    has that file name as its [fileName], whatever the target. *)
Theorem createYarnTask_fileName (id : nat) (target cmd : string) (folder : WorkspaceFolder)
    (u : Uri) (dir file : string) :
  uri_path u = ((dir ++ "/") ++ file)%string ->
  file <> "" ->
  no_slash file ->
  fileName (definition (createYarnTask id target cmd folder u)) = file.
Proof.
  intros Hu Hne Hf.
  assert (H : fileName (definition (createYarnTask id target cmd folder u))
              = basename (uri_path u)).
  { unfold createYarnTask. cbv zeta.
    destruct (negb (String.length (getRelativePath (Some folder) u) =? 0)%nat); reflexivity. }
  rewrite H, Hu. apply basename_of_file; assumption.
Qed.

Lemma createYarnTask_fileName_witness :
  fileName (definition (createYarnTask 0 "build" "build" repo_folder file_a))
  = "package.json".
Proof.
  refine (createYarnTask_fileName 0 "build" "build" repo_folder file_a "/repo/a"
            "package.json" _ _ _).
  - reflexivity.
  - discriminate.
  - unfold no_slash. simpl. repeat constructor; discriminate.
Defined.

(** ** [util.isExcluded] *)

Lemma isExcluded_loop_true (minimatch : string -> string -> bool) (uriPath : string)
    (exclude : list string) :
  isExcluded_loop minimatch uriPath exclude = true
  <-> exists pattern, In pattern exclude /\ minimatch uriPath pattern = true.
Proof.
  induction exclude as [|p rest IH]; simpl.
  - split; [discriminate|]. intros (x & [] & _).
  - unfold testForExclusionPattern. destruct (minimatch uriPath p) eqn:E.
    + split; [|reflexivity]. intros _. exists p. auto.
    + rewrite IH. split.
      * intros (x & Hin & Hx). exists x. auto.
      * intros (x & [<-|Hin] & Hx); [congruence|]. exists x. auto.
Qed.

Lemma util_isExcluded_true (minimatch : string -> string -> bool)
    (exclude : ExcludeSetting) (uriPath : string) :
  util_isExcluded minimatch exclude uriPath = true
  <-> exists pattern,
        In pattern (configured_patterns exclude) /\ minimatch uriPath pattern = true.
Proof.
  destruct exclude as [|p|l]; simpl.
  - split; [discriminate|]. intros (x & [] & _).
  - unfold testForExclusionPattern. destruct (String.eqb p "") eqn:Ep; simpl.
    + split; [discriminate|]. intros (x & [] & _).
    + destruct (minimatch uriPath p) eqn:E.
      * split; [|reflexivity]. intros _. exists p. split; [left; reflexivity|exact E].
      * split; [discriminate|]. intros (x & [<-|[]] & Hx). congruence.
  - apply isExcluded_loop_true.
Qed.

(** X15: [util.isExcluded] answers true exactly when the path matches one of
    the configured patterns: the patterns of the array, or the one pattern
    when the setting is a non-empty string; with no setting, an empty string
    or an empty array nothing is excluded. *)
Theorem util_isExcluded_iff_some_pattern_matches (minimatch : string -> string -> bool)
    (exclude : ExcludeSetting) (uriPath : string) :
  util_isExcluded minimatch exclude uriPath = true
  <-> exists pattern,
        In pattern (configured_patterns exclude) /\ minimatch uriPath pattern = true.
Proof. apply util_isExcluded_true. Qed.

(** X16: in a host whose [isExcluded] is [util.isExcluded] on a setting, no
    task a discovery pass returns comes from a file whose path matches one of
    the configured patterns. *)
Theorem discovery_skips_excluded_files (minimatch : string -> string -> bool)
    (exclude : ExcludeSetting) (h : Host) (s s' : Provider) (tasks : list Task) :
  isExcluded h = util_isExcluded minimatch exclude ->
  detectYarnfiles h s = (Resolved tasks, s') ->
  Forall (fun t =>
            forall pattern,
              In pattern (configured_patterns exclude) ->
              minimatch (uri_path (uri (definition t))) pattern = false)
         tasks.
Proof.
  intros Hx Hd. apply detect_tasks_of_candidates in Hd.
  eapply Forall_impl; [exact Hd|].
  intros t ((folders & folder & paths & _ & _ & _ & _ & He) & _) p Hp.
  rewrite Hx in He.
  destruct (minimatch (uri_path (uri (definition t))) p) eqn:E; [|reflexivity].
  assert (util_isExcluded minimatch exclude (uri_path (uri (definition t))) = true) as Ht.
  { apply util_isExcluded_true. exists p. auto. }
  congruence.
Qed.

Lemma discovery_skips_excluded_files_witness :
  Forall (fun t =>
            forall pattern,
              In pattern (configured_patterns (exclude_array ["/repo/b/package.json"])) ->
              literal_match (uri_path (uri (definition t))) pattern = false)
         (materialise ["build"; "clean"] repo_folder file_a 0).
Proof.
  refine (discovery_skips_excluded_files literal_match
            (exclude_array ["/repo/b/package.json"]) excluding_host fresh_provider
            (snd (detectYarnfiles excluding_host fresh_provider)) _ _ _).
  - reflexivity.
  - vm_compute. reflexivity.
Defined.

(** ** [util.getExcludesGlob] *)

Lemma concat_append_head (sep a b : string) (l : list string) :
  String.concat sep ((a ++ b)%string :: l) = (a ++ String.concat sep (b :: l))%string.
Proof.
  destruct l as [|x l]; simpl; [reflexivity|]. apply append_assoc.
Qed.

Lemma getExcludesGlob_loop_concat (excludes : list string) (multiFilePattern : string) :
  getExcludesGlob_loop excludes multiFilePattern
  = String.concat "," (multiFilePattern :: excludes).
Proof.
  unfold getExcludesGlob_loop.
  revert multiFilePattern. induction excludes as [|x l IH]; intros acc.
  - reflexivity.
  - simpl fold_left. rewrite IH.
    rewrite append_assoc, concat_append_head.
    change (String.concat "," (acc :: x :: l))
      with (acc ++ "," ++ String.concat "," (x :: l))%string.
    rewrite concat_append_head. reflexivity.
Qed.

(** X17: the glob [util.getExcludesGlob] builds is relative to the folder
    given; it is the node_modules pattern alone when no pattern is
    configured, and otherwise the brace alternation of the node_modules
    pattern and the configured patterns, in their order, separated by
    commas. *)
Theorem getExcludesGlob_alternation (excludes : ExcludeSetting) (folder : WorkspaceFolder) :
  pattern_base (getExcludesGlob excludes folder) = folder
  /\ pattern (getExcludesGlob excludes folder)
     = match configured_patterns excludes with
       | [] => "**/node_modules/**"
       | patterns =>
           ("{" ++ String.concat "," ("**/node_modules/**" :: patterns) ++ "}")%string
       end.
Proof.
  destruct excludes as [|p|l].
  - split; reflexivity.
  - destruct p as [|c p]; [split; reflexivity|].
    split; [reflexivity|]. unfold getExcludesGlob. simpl Nat.ltb. cbv iota zeta. 
    simpl configured_patterns. cbn [pattern].
    change "{**/node_modules/**"%string with ("{" ++ "**/node_modules/**")%string.
    change (String.concat "," ["**/node_modules/**"%string; String c p])
      with ("**/node_modules/**" ++ "," ++ String c p)%string.
    rewrite !append_assoc. reflexivity.
  - destruct l as [|x l]; [split; reflexivity|].
    split; [reflexivity|]. unfold getExcludesGlob. simpl Nat.ltb. cbv iota zeta.
    simpl configured_patterns. cbn [pattern].
    rewrite getExcludesGlob_loop_concat.
    change "{**/node_modules/**"%string with ("{" ++ "**/node_modules/**")%string.
    rewrite concat_append_head, append_assoc. reflexivity.
Qed.

(** ** [util.isDescendant] *)

Lemma str_app (a b : list ascii) : str (a ++ b) = (str a ++ str b)%string.
Proof.
  rewrite <- (str_chars (str a ++ str b)), chars_append, !chars_str. reflexivity.
Qed.

Lemma replace_separators_append (sep : ascii) (a b : string) :
  replace_separators sep (a ++ b)
  = (replace_separators sep a ++ replace_separators sep b)%string.
Proof.
  unfold replace_separators. rewrite chars_append, map_app. apply str_app.
Qed.

Lemma eqb_append_self (a b : string) :
  String.eqb a (a ++ b) = String.eqb "" b.
Proof.
  induction a as [|c a IH]; [reflexivity|].
  simpl. rewrite Ascii.eqb_refl. exact IH.
Qed.

Lemma prefix_append (a b c : string) :
  String.prefix (a ++ b) (a ++ c) = String.prefix b c.
Proof.
  induction a as [|x a IH]; [reflexivity|].
  simpl. destruct (ascii_dec x x) as [_|Hn]; [exact IH|contradiction].
Qed.

Lemma last_char_replace_separators (s : string) (c : ascii) :
  last_char s = Some c -> c <> slash -> c <> backslash ->
  last_char (replace_separators slash s) = Some c.
Proof.
  unfold last_char, replace_separators. rewrite chars_str.
  intros Hl Hs Hb. rewrite last_Some in Hl. destruct Hl as [l' ->].
  rewrite map_app. simpl.
  apply Ascii.eqb_neq in Hs, Hb. rewrite Hs, Hb. simpl.
  apply last_snoc.
Qed.

(** X18: on a posix platform, for a parent path that does not end with a
    separator, a path that continues the parent is its descendant exactly
    when nothing is added or what is added starts with a slash or a
    backslash: "/a/bc" is no descendant of "/a/b". *)
Theorem isDescendant_posix_continuation (toLowerCase : string -> string)
    (parent rest : string) (c : ascii) :
  last_char parent = Some c -> c <> slash -> c <> backslash ->
  isDescendant slash toLowerCase parent (parent ++ rest)
  = match rest with
    | EmptyString => true
    | String c1 _ => Ascii.eqb c1 backslash || Ascii.eqb c1 slash
    end.
Proof.
  intros Hl Hs Hb. unfold isDescendant.
  change (Ascii.eqb slash backslash) with false. cbv iota.
  rewrite replace_separators_append, eqb_append_self.
  destruct rest as [|c1 rest].
  - reflexivity.
  - change (replace_separators slash (String c1 rest))
      with (String (if Ascii.eqb c1 backslash || Ascii.eqb c1 slash then slash else c1)
                   (replace_separators slash rest)).
    cbn [String.eqb].
    rewrite (last_char_replace_separators parent c Hl Hs Hb).
    assert (bool_decide (Some c = Some slash) = false) as ->.
    { apply bool_decide_eq_false. intros E. injection E as E. contradiction. }
    cbn [negb]. rewrite prefix_append. cbn [String.prefix].
    assert (Hp : forall x, String.prefix "" x = true) by (intros []; reflexivity).
    destruct (Ascii.eqb c1 backslash) eqn:E1; cbn [orb].
    { destruct (ascii_dec slash slash); [apply Hp|contradiction]. }
    destruct (Ascii.eqb_spec c1 slash) as [->|Hn].
    { destruct (ascii_dec slash slash); [apply Hp|contradiction]. }
    destruct (ascii_dec slash c1) as [E|_]; [congruence|reflexivity].
Qed.

Lemma isDescendant_posix_continuation_witness :
  isDescendant slash (fun s => s) "/a/b" ("/a/b" ++ "c") = false.
Proof.
  refine (isDescendant_posix_continuation (fun s => s) "/a/b" "c" "b"%char _ _ _).
  - reflexivity.
  - discriminate.
  - discriminate.
Defined.

(** ** [findScript] of the task view *)

Section FoldOverScan.

Variable State : Type.
Variable f : State -> Event -> State.
Hypothesis f_unhandled : forall s c, f s (unhandled c) = s.

Lemma fold_scan_members_cons (first : bool) (k : string) (sp : Z * Z) (v : JSON)
    (rest : list (string * (Z * Z) * JSON)) (s : State) :
  fold_left f (scan_members json_events first ((k, sp, v) :: rest)) s =
  fold_left f (scan_members json_events false rest)
            (fold_left f (json_events v) (f s (onObjectProperty k (fst sp) (snd sp)))).
Proof.
  simpl. rewrite fold_left_app.
  assert (fold_left f (if first then [] else [unhandled onSeparator]) s = s) as ->.
  { destruct first; [reflexivity|]. simpl. apply f_unhandled. }
  simpl. rewrite f_unhandled, fold_left_app. reflexivity.
Qed.

Lemma fold_scan_members_first (b1 b2 : bool) (ms : list (string * (Z * Z) * JSON))
    (s : State) :
  fold_left f (scan_members json_events b1 ms) s
  = fold_left f (scan_members json_events b2 ms) s.
Proof.
  destruct ms as [|[[k sp] v] rest]; [reflexivity|].
  rewrite !fold_scan_members_cons. reflexivity.
Qed.

Lemma fold_scan_members_app (first : bool) (a b : list (string * (Z * Z) * JSON))
    (s : State) :
  fold_left f (scan_members json_events first (a ++ b)) s =
  fold_left f (scan_members json_events false b)
            (fold_left f (scan_members json_events first a) s).
Proof.
  revert first s. induction a as [|[[k sp] v] a IH]; intros first s.
  - simpl. apply fold_scan_members_first.
  - rewrite <- app_comm_cons, !fold_scan_members_cons. apply IH.
Qed.

End FoldOverScan.

Lemma findScript_handle_unhandled (getTaskName : string -> string -> string)
    (script : option Task) (s : ScriptFinder) (c : Unhandled) :
  findScript_handle getTaskName script s (unhandled c) = s.
Proof. reflexivity. Qed.

(** Outside a scripts block, a scan that reports no "scripts" property leaves
    the variables of [findScript] as it found them. *)
Lemma findScript_outside (getTaskName : string -> string -> string) (script : option Task)
    (evs : list Event) (s : ScriptFinder) :
  Forall (fun p => p <> "scripts") (reported_properties evs) ->
  finder_inScripts s = false ->
  fold_left (findScript_handle getTaskName script) evs s = s.
Proof.
  revert s. induction evs as [|e evs IH]; intros s Hq Hs; [reflexivity|].
  simpl fold_left.
  assert (findScript_handle getTaskName script s e = s) as ->.
  { destruct e as [| |value offset len|property offset len|c]; simpl; try reflexivity.
    - rewrite Hs. reflexivity.
    - simpl in Hq. apply Forall_cons in Hq as [Hp _].
      apply String.eqb_neq in Hp. rewrite Hp, Hs. reflexivity. }
  apply IH; [|exact Hs].
  destruct e; simpl in Hq; try exact Hq. apply Forall_cons in Hq as [_ Hq]. exact Hq.
Qed.

(** With no script selected only a "scripts" property moves the offset. *)
Lemma findScript_no_selection (getTaskName : string -> string -> string)
    (evs : list Event) (s : ScriptFinder) :
  Forall (fun p => p <> "scripts") (reported_properties evs) ->
  finder_scriptOffset (fold_left (findScript_handle getTaskName None) evs s)
  = finder_scriptOffset s.
Proof.
  revert s. induction evs as [|e evs IH]; intros s Hq; [reflexivity|].
  simpl fold_left. rewrite IH.
  - destruct e as [| |value offset len|property offset len|c]; simpl; try reflexivity.
    + destruct (finder_inScripts s); reflexivity.
    + simpl in Hq. apply Forall_cons in Hq as [Hp _].
      apply String.eqb_neq in Hp. rewrite Hp. destruct (finder_inScripts s); reflexivity.
  - destruct e; simpl in Hq; try exact Hq. apply Forall_cons in Hq as [_ Hq]. exact Hq.
Qed.

(** X19: with no script selected, [findScript] returns the offset of the last
    property named "scripts" the scan reports, at whatever depth. *)
Theorem findScript_selects_last_scripts_property
    (getTaskName : string -> string -> string) (pre post : list Event)
    (offset len : Z) :
  Forall (fun p => p <> "scripts") (reported_properties post) ->
  findScript getTaskName (pre ++ onObjectProperty "scripts" offset len :: post) None
  = offset.
Proof.
  intros Hq. unfold findScript. rewrite fold_left_app. simpl fold_left.
  rewrite findScript_no_selection by exact Hq. reflexivity.
Qed.

Lemma findScript_selects_last_scripts_property_witness :
  findScript (fun script _ => script) (json_events scripts_below_top) None = 12%Z.
Proof.
  refine (findScript_selects_last_scripts_property (fun script _ => script)
            [unhandled onObjectBegin; onObjectProperty "config" 1 8; unhandled onSeparator;
             unhandled onObjectBegin]
            _ 12 9 _).
  simpl. repeat constructor; discriminate.
Defined.

(** X20: for a document in which no property is named "scripts", [findScript]
    returns 0, the start of the document, whatever is selected. *)
Theorem findScript_without_scripts_property (getTaskName : string -> string -> string)
    (document : list Event) (script : option Task) :
  Forall (fun p => p <> "scripts") (reported_properties document) ->
  findScript getTaskName document script = 0%Z.
Proof.
  intros Hq. unfold findScript. rewrite findScript_outside by (exact Hq || reflexivity).
  reflexivity.
Qed.

Lemma findScript_without_scripts_property_witness :
  findScript (fun script _ => script) (json_events (two_labelled_tasks "build" "test"))
             (Some (createYarnTask 0 "build" "build" repo_folder repo_package_json))
  = 0%Z.
Proof.
  refine (findScript_without_scripts_property _ _ _ _).
  simpl. repeat constructor; discriminate.
Defined.

Lemma findScript_entries (getTaskName : string -> string -> string) (task : Task)
    (first : bool) (entries : list ScriptEntry) (s : ScriptFinder) :
  Forall (fun e => entry_name e <> "scripts") entries ->
  finder_inScripts s = true ->
  fold_left (findScript_handle getTaskName (Some task))
            (scan_members json_events first (map script_member entries)) s
  = {| finder_scriptOffset :=
         match last_matching getTaskName task entries with
         | Some offset => offset
         | None => finder_scriptOffset s
         end;
       finder_inScripts := true |}.
Proof.
  revert first s. induction entries as [|e entries IH]; intros first s Hn Hs.
  - simpl. destruct s as [o i]. simpl in Hs. rewrite Hs. reflexivity.
  - apply Forall_cons in Hn as [Hne Hn]. simpl map. unfold script_member at 1.
    rewrite fold_scan_members_cons by (intros; reflexivity).
    cbn [json_events fold_left].
    cbn [findScript_handle fst].
    apply String.eqb_neq in Hne. rewrite Hne, Hs.
    cbn [last_matching].
    destruct (String.eqb (name task)
                (getTaskName (entry_name e) (path (definition task)))) eqn:El.
    + rewrite IH by (assumption || reflexivity). cbn [finder_scriptOffset].
      destruct (last_matching getTaskName task entries); reflexivity.
    + rewrite IH by assumption.
      destruct (last_matching getTaskName task entries); reflexivity.
Qed.

(** X21: with a script node selected, on a scripts-style document
    [findScript] returns the offset of the name of the last script whose
    task name is the name of the selected task, and 0, the start of the
    document, when there is none. *)
Theorem findScript_selects_last_matching_script
    (getTaskName : string -> string -> string) (task : Task)
    (before : list (string * (Z * Z) * JSON)) (at_ : Z * Z) (entries : list ScriptEntry)
    (after : list (string * (Z * Z) * JSON)) :
  Forall (fun p => p <> "scripts") (reported_properties (json_events (JObject before))) ->
  Forall (fun p => p <> "scripts") (reported_properties (json_events (JObject after))) ->
  Forall (fun e => entry_name e <> "scripts") entries ->
  findScript getTaskName (json_events (scripts_document before at_ entries after))
             (Some task)
  = match last_matching getTaskName task entries with
    | Some offset => offset
    | None => 0%Z
    end.
Proof.
  intros Hb Ha Hn. unfold findScript, scripts_document.
  rewrite (reported_properties_members true) in Hb.
  rewrite (reported_properties_members false) in Ha.
  cbn [json_events]. cbn [fold_left findScript_handle].
  rewrite fold_left_app.
  rewrite (fold_scan_members_app _ _ (findScript_handle_unhandled getTaskName (Some task))).
  rewrite (fold_scan_members_cons _ _ (findScript_handle_unhandled getTaskName (Some task))).
  rewrite (findScript_outside _ _ _ _ Hb) by reflexivity.
  cbn [json_events]. cbn [fold_left findScript_handle String.eqb Ascii.eqb Bool.eqb fst].
  rewrite fold_left_app.
  rewrite findScript_entries by (assumption || reflexivity).
  cbn [fold_left findScript_handle finder_inScripts finder_scriptOffset].
  rewrite (findScript_outside _ _ _ _ Ha) by reflexivity.
  reflexivity.
Qed.

Lemma findScript_selects_last_matching_script_witness :
  findScript (fun script _ => script)
    (json_events (scripts_document sample_before (20, 9)%Z sample_entries sample_after))
    (Some (createYarnTask 0 "build" "build" repo_folder repo_package_json))
  = 68%Z.
Proof.
  refine (findScript_selects_last_matching_script (fun script _ => script)
            (createYarnTask 0 "build" "build" repo_folder repo_package_json)
            sample_before (20, 9)%Z sample_entries sample_after _ _ _).
  - simpl. repeat constructor; discriminate.
  - simpl. repeat constructor; discriminate.
  - simpl. repeat constructor; discriminate.
Defined.

(** ** The order of the tasks of a file *)

Lemma fold_js_set_keys (entries : list ScriptEntry) (o : JSObject) :
  Forall (fun e => entry_name e <> "__proto__") entries ->
  map fst (own (fold_left (fun o e => js_set o (entry_name e) (VString (entry_body e)))
                          entries o))
  = fold_left (fun seen k => if bool_decide (k ∈ seen) then seen else seen ++ [k])
              (map entry_name entries) (map fst (own o)).
Proof.
  revert o. induction entries as [|e entries IH]; intros o Hn; [reflexivity|].
  apply Forall_cons in Hn as [Hne Hn]. simpl. rewrite IH by exact Hn. f_equal.
  unfold js_set. destruct (String.eqb_spec (entry_name e) "__proto__") as [E|_];
    [contradiction|].
  simpl. apply own_set_keys.
Qed.

Lemma first_occurrences_Forall (P : string -> Prop) (ks seen : list string) :
  Forall P seen -> Forall P ks ->
  Forall P (fold_left (fun seen k => if bool_decide (k ∈ seen) then seen else seen ++ [k])
                      ks seen).
Proof.
  revert seen. induction ks as [|k ks IH]; intros seen Hs Hk; [exact Hs|].
  apply Forall_cons in Hk as [Hk1 Hk]. simpl. apply IH; [|exact Hk].
  destruct (bool_decide (k ∈ seen)); [exact Hs|].
  apply Forall_app. split; [exact Hs|]. constructor; [exact Hk1|constructor].
Qed.

Lemma Object_keys_without_index (o : JSObject) :
  Forall (fun k => array_index k = None) (map fst (own o)) ->
  Object_keys o = map fst (own o).
Proof.
  unfold Object_keys. generalize (map fst (own o)). intros ks H.
  assert (index_keys ks = [] /\ string_keys ks = ks) as [-> ->].
  { unfold index_keys, string_keys. induction ks as [|k ks IH]; [split; reflexivity|].
    apply Forall_cons in H as [Hk H]. destruct (IH H) as [IH1 IH2].
    simpl. rewrite Hk. simpl. rewrite IH1, IH2. split; reflexivity. }
  reflexivity.
Qed.

(** X22: for a scripts-style file whose script names are neither "scripts"
    nor "__proto__" nor written like an array index, the tasks
    [readYarnfile] resolves with come in the order in which the script names
    first occur in the file. *)
Theorem readYarnfile_tasks_in_document_order (h : Host) (u : Uri)
    (folder : WorkspaceFolder) (before : list (string * (Z * Z) * JSON)) (at_ : Z * Z)
    (entries : list ScriptEntry) (after : list (string * (Z * Z) * JSON)) (s : Provider) :
  getWorkspaceFolder h u = Some folder ->
  readFile h (fsPath u) = Some (json_events (scripts_document before at_ entries after)) ->
  no_dialect_property before ->
  no_dialect_property after ->
  Forall (fun e => entry_name e <> "scripts" /\ entry_name e <> "__proto__"
                   /\ array_index (entry_name e) = None) entries ->
  exists tasks s',
    readYarnfile h u s = (Resolved tasks, s')
    /\ map name tasks = first_occurrences (map entry_name entries).
Proof.
  intros Hg Hr Hb Ha Hn. rewrite readYarnfile_eq, Hg, Hr.
  eexists. eexists. split; [reflexivity|].
  rewrite materialise_names.
  rewrite extract_scripts_document; [|exact Hb|exact Ha|].
  2:{ eapply Forall_impl; [exact Hn|]. intros e (H1 & _). exact H1. }
  assert (Hp : Forall (fun e => entry_name e <> "__proto__") entries).
  { eapply Forall_impl; [exact Hn|]. intros e (_ & H2 & _). exact H2. }
  rewrite Object_keys_without_index; rewrite (fold_js_set_keys entries empty_object Hp).
  - reflexivity.
  - apply first_occurrences_Forall; [constructor|].
    apply Forall_map. eapply Forall_impl; [exact Hn|]. intros e (_ & _ & H3). exact H3.
Qed.

Lemma readYarnfile_tasks_in_document_order_witness :
  exists tasks s',
    readYarnfile
      (host_with_text
         (json_events (scripts_document sample_before (20, 9)%Z sample_entries sample_after)))
      repo_package_json fresh_provider = (Resolved tasks, s')
    /\ map name tasks = ["build"; "test"].
Proof.
  refine (readYarnfile_tasks_in_document_order _ repo_package_json repo_folder
            sample_before (20, 9)%Z sample_entries sample_after fresh_provider _ _ _ _ _).
  - reflexivity.
  - reflexivity.
  - unfold no_dialect_property. simpl. repeat constructor; discriminate.
  - unfold no_dialect_property. simpl. repeat constructor; discriminate.
  - unfold sample_entries.
    repeat (constructor; [split; [discriminate|split; [discriminate|reflexivity]]|]).
    constructor.
Defined.

(** ** A point invalidation against a fresh discovery *)

Lemma readYarnfile_resolved_fresh (h : Host) (u : Uri) (s s' : Provider)
    (tasks : list Task) :
  readYarnfile h u s = (Resolved tasks, s') -> tasks = fresh_tasks h u (next_task_id s).
Proof.
  rewrite readYarnfile_eq. unfold fresh_tasks.
  destruct (getWorkspaceFolder h u) as [folder|].
  - destruct (readFile h (fsPath u)) as [documentText|]; [|discriminate].
    intros H. injection H as <- _. reflexivity.
  - intros H. injection H as <- _. reflexivity.
Qed.

Lemma detect_paths_read (h : Host) (paths : list Uri) (visitedFiles : gset string)
    (allTasks : list Task) (s s' : Provider) (acc : gset string * list Task) :
  detect_paths h paths visitedFiles allTasks s = (Resolved acc, s') ->
  fst acc = snd (paths_read h paths visitedFiles)
  /\ map without_identity (snd acc)
     = map without_identity allTasks
       ++ flat_map (file_tasks h) (fst (paths_read h paths visitedFiles)).
Proof.
  revert visitedFiles allTasks s.
  induction paths as [|fpath paths IH]; intros visitedFiles allTasks s H.
  - injection H as <- _. simpl. rewrite app_nil_r. split; reflexivity.
  - simpl in H. simpl paths_read.
    destruct (negb (isExcluded h (uri_path fpath))
              && negb (bool_decide (fsPath fpath ∈ visitedFiles))).
    + unfold mbind, Async_bind in H.
      destruct (readYarnfile h fpath s) as [[tasks|] s1] eqn:Hr; [|discriminate H].
      apply readYarnfile_resolved_fresh in Hr. subst tasks.
      destruct (IH _ _ _ H) as [H1 H2]. cbn [fst snd]. split; [exact H1|].
      rewrite H2, map_app, <- app_assoc. simpl flat_map. f_equal. f_equal.
      apply fresh_tasks_without_identity.
    + apply (IH _ _ _ H).
Qed.

Lemma detect_folders_read (h : Host) (folders : list WorkspaceFolder)
    (visitedFiles : gset string) (allTasks : list Task) (s s' : Provider)
    (acc : gset string * list Task) :
  detect_folders h folders visitedFiles allTasks s = (Resolved acc, s') ->
  Forall (fun folder => findFiles h folder <> None) folders
  /\ fst acc = snd (folders_read h folders visitedFiles)
  /\ map without_identity (snd acc)
     = map without_identity allTasks
       ++ flat_map (file_tasks h) (fst (folders_read h folders visitedFiles)).
Proof.
  revert visitedFiles allTasks s.
  induction folders as [|folder folders IH]; intros visitedFiles allTasks s H.
  - injection H as <- _. simpl. rewrite app_nil_r. repeat split. constructor.
  - simpl in H. unfold mbind at 1 in H. unfold Async_bind at 1, perform in H.
    simpl folders_read.
    destruct (findFiles h folder) as [paths|] eqn:Hf; [|discriminate H].
    unfold mbind, Async_bind in H.
    destruct (detect_paths h paths visitedFiles allTasks
                (record_effect (FindFiles folder) s)) as [[acc1|] s1] eqn:Hp;
      [|discriminate H].
    destruct (detect_paths_read _ _ _ _ _ _ _ Hp) as [P1 P2].
    destruct (IH _ _ _ H) as (F0 & F1 & F2). cbn [fst snd].
    split; [constructor; [congruence|exact F0]|].
    rewrite <- P1. split; [exact F1|].
    rewrite F2, P2, <- app_assoc, flat_map_app. reflexivity.
Qed.

Lemma detectYarnfiles_read (h : Host) (s s' : Provider) (tasks : list Task) :
  detectYarnfiles h s = (Resolved tasks, s') ->
  map without_identity tasks = flat_map (file_tasks h) (files_read h)
  /\ match workspaceFolders h with
     | Some folders => Forall (fun folder => findFiles h folder <> None) folders
     | None => True
     end.
Proof.
  unfold detectYarnfiles, files_read. unfold mbind at 1. unfold Async_bind at 1, perform.
  destruct (workspaceFolders h) as [folders|].
  - unfold mbind, Async_bind.
    destruct (detect_folders h folders ∅ [] (record_effect Discovery s))
      as [[acc|] s1] eqn:Hd; [|discriminate].
    intros H. injection H as <- _.
    destruct (detect_folders_read _ _ _ _ _ _ _ Hd) as (F0 & _ & F2).
    split; [exact F2|exact F0].
  - intros H. injection H as <- _. split; [reflexivity|exact I].
Qed.

Lemma paths_read_spec (h : Host) (paths : list Uri) (visitedFiles : gset string) :
  List.NoDup (map fsPath (fst (paths_read h paths visitedFiles)))
  /\ (forall u, In u (fst (paths_read h paths visitedFiles)) ->
        In u paths /\ isExcluded h (uri_path u) = false /\ (fsPath u ∉ visitedFiles))
  /\ (forall f, (f ∈ snd (paths_read h paths visitedFiles))
                <-> (f ∈ visitedFiles)
                    \/ In f (map fsPath (fst (paths_read h paths visitedFiles))))
  /\ (forall u, In u paths -> isExcluded h (uri_path u) = false ->
                fsPath u ∈ snd (paths_read h paths visitedFiles)).
Proof.
  revert visitedFiles. induction paths as [|fpath paths IH]; intros visitedFiles.
  - simpl. split; [constructor|]. split; [intros u []|].
    split; [intros f; tauto|intros u []].
  - simpl paths_read.
    destruct (isExcluded h (uri_path fpath)) eqn:Hex; simpl negb; cbn [andb].
    { destruct (IH visitedFiles) as (I1 & I2 & I3 & I4).
      split; [exact I1|]. split.
      - intros u Hu. destruct (I2 u Hu) as (A & B & C). split; [right; exact A|auto].
      - split; [exact I3|]. intros u [<-|Hu] He; [congruence|]. apply I4; assumption. }
    destruct (bool_decide (fsPath fpath ∈ visitedFiles)) eqn:Hv; simpl negb; cbn iota.
    { apply bool_decide_eq_true_1 in Hv.
      destruct (IH visitedFiles) as (I1 & I2 & I3 & I4).
      split; [exact I1|]. split.
      - intros u Hu. destruct (I2 u Hu) as (A & B & C). split; [right; exact A|auto].
      - split; [exact I3|]. intros u [<-|Hu] He; [|apply I4; assumption].
        apply I3. left. exact Hv. }
    apply bool_decide_eq_false_1 in Hv.
    destruct (IH ({[ fsPath fpath ]} ∪ visitedFiles)) as (I1 & I2 & I3 & I4).
    cbn [fst snd]. split; [|split; [|split]].
    + simpl map. constructor; [|exact I1].
      intros Hin. apply in_map_iff in Hin as (u & Hu & Hin).
      destruct (I2 u Hin) as (_ & _ & C). apply C. rewrite Hu.
      apply elem_of_union_l, elem_of_singleton. reflexivity.
    + intros u [<-|Hu]; [split; [left; reflexivity|split; assumption]|].
      destruct (I2 u Hu) as (A & B & C). split; [right; exact A|].
      split; [exact B|]. intros Hv'. apply C, elem_of_union_r, Hv'.
    + intros f. rewrite I3. simpl map. simpl In.
      rewrite elem_of_union, elem_of_singleton. split.
      * intros [[->|H]|H]; auto.
      * intros [H|[<-|H]]; auto.
    + intros u [<-|Hu] He; [|apply I4; assumption].
      apply I3. left. apply elem_of_union_l, elem_of_singleton. reflexivity.
Qed.

Lemma folders_read_spec (h : Host) (folders : list WorkspaceFolder)
    (visitedFiles : gset string) :
  Forall (fun folder => findFiles h folder <> None) folders ->
  List.NoDup (map fsPath (fst (folders_read h folders visitedFiles)))
  /\ (forall u, In u (fst (folders_read h folders visitedFiles)) ->
        (exists folder paths,
            In folder folders /\ findFiles h folder = Some paths /\ In u paths)
        /\ isExcluded h (uri_path u) = false /\ (fsPath u ∉ visitedFiles))
  /\ (forall f, (f ∈ snd (folders_read h folders visitedFiles))
                <-> (f ∈ visitedFiles)
                    \/ In f (map fsPath (fst (folders_read h folders visitedFiles))))
  /\ (forall folder paths u,
        In folder folders -> findFiles h folder = Some paths -> In u paths ->
        isExcluded h (uri_path u) = false ->
        fsPath u ∈ snd (folders_read h folders visitedFiles)).
Proof.
  revert visitedFiles. induction folders as [|folder folders IH]; intros visitedFiles Hall.
  - simpl. split; [constructor|]. split; [intros u []|].
    split; [intros f; tauto|intros ? ? ? []].
  - apply Forall_cons in Hall as [Hf Hall]. simpl folders_read.
    destruct (findFiles h folder) as [paths|] eqn:Ef; [|contradiction].
    destruct (paths_read_spec h paths visitedFiles) as (P1 & P2 & P3 & P4).
    destruct (IH (snd (paths_read h paths visitedFiles)) Hall) as (I1 & I2 & I3 & I4).
    cbn [fst snd]. split; [|split; [|split]].
    + rewrite map_app. apply List.NoDup_app; [exact P1|exact I1|].
      intros f Hf1 Hf2. apply in_map_iff in Hf2 as (u & Hu & Hin).
      destruct (I2 u Hin) as (_ & _ & C). apply C. apply P3. right. rewrite Hu. exact Hf1.
    + intros u Hu. apply in_app_or in Hu as [Hu|Hu].
      * destruct (P2 u Hu) as (A & B & C).
        split; [exists folder, paths; split; [left; reflexivity|auto]|auto].
      * destruct (I2 u Hu) as ((folder' & paths' & A1 & A2 & A3) & B & C).
        split; [exists folder', paths'; split; [right; exact A1|auto]|].
        split; [exact B|]. intros Hv. apply C, P3. left. exact Hv.
    + intros f. rewrite I3, P3, map_app, in_app_iff. tauto.
    + intros folder' paths' u [<-|Hin] Hf' Hu He.
      * apply I3. left. apply P4; [|exact He]. congruence.
      * apply (I4 folder' paths' u); assumption.
Qed.

Lemma paths_read_same (h h' : Host) (paths : list Uri) (visitedFiles : gset string) :
  (forall p, isExcluded h' p = isExcluded h p) ->
  paths_read h' paths visitedFiles = paths_read h paths visitedFiles.
Proof.
  intros He. revert visitedFiles. induction paths as [|fpath paths IH]; intros visitedFiles.
  - reflexivity.
  - simpl. rewrite He, !IH. reflexivity.
Qed.

Lemma folders_read_same (h h' : Host) (folders : list WorkspaceFolder)
    (visitedFiles : gset string) :
  (forall folder, findFiles h' folder = findFiles h folder) ->
  (forall p, isExcluded h' p = isExcluded h p) ->
  folders_read h' folders visitedFiles = folders_read h folders visitedFiles.
Proof.
  intros Hf He. revert visitedFiles.
  induction folders as [|folder folders IH]; intros visitedFiles.
  - reflexivity.
  - simpl. rewrite Hf. destruct (findFiles h folder) as [paths|]; [|reflexivity].
    rewrite (paths_read_same h h' paths visitedFiles He), IH. reflexivity.
Qed.

Lemma file_tasks_uri (h : Host) (u : Uri) :
  Forall (fun t => uri (definition t) = u) (file_tasks h u).
Proof.
  unfold file_tasks. apply Forall_map.
  eapply Forall_impl; [apply (fresh_tasks_uri h u 0)|]. intros t Ht. exact Ht.
Qed.

Lemma file_tasks_same (a : Uri) (h h' : Host) (u : Uri) :
  same_but_content a h h' -> fsPath u <> fsPath a -> file_tasks h' u = file_tasks h u.
Proof.
  intros (_ & _ & _ & Hg & Hr) Hne. unfold file_tasks, fresh_tasks.
  rewrite Hg, (Hr _ Hne). reflexivity.
Qed.

Lemma other_files_without_identity (a : Uri) (arr : list Task) :
  map without_identity (other_files a arr) = other_files a (map without_identity arr).
Proof.
  unfold other_files. induction arr as [|t arr IH]; [reflexivity|].
  simpl. destruct (negb (bool_decide (fsPath (uri (definition t)) = fsPath a)));
    simpl; rewrite IH; reflexivity.
Qed.

Lemma other_files_keep (a : Uri) (arr : list Task) :
  Forall (fun t => fsPath (uri (definition t)) <> fsPath a) arr -> other_files a arr = arr.
Proof.
  unfold other_files. induction arr as [|t arr IH]; intros H; [reflexivity|].
  apply Forall_cons in H as [Ht H]. simpl.
  rewrite bool_decide_eq_false_2 by exact Ht. simpl. rewrite (IH H). reflexivity.
Qed.

Lemma other_files_flat_map (a : Uri) (h h' : Host) (files : list Uri) :
  same_but_content a h h' ->
  Forall (fun u => fsPath u <> fsPath a) files ->
  other_files a (flat_map (file_tasks h) files) = flat_map (file_tasks h') files.
Proof.
  intros Hs. induction files as [|u files IH]; intros H; [reflexivity|].
  apply Forall_cons in H as [Hu H]. simpl.
  rewrite other_files_app, (IH H), (file_tasks_same a h h' u Hs Hu).
  f_equal. apply other_files_keep.
  rewrite <- (file_tasks_same a h h' u Hs Hu).
  eapply Forall_impl; [apply file_tasks_uri|]. intros t ->. exact Hu.
Qed.

(** The tasks left by an invalidation of [a] on the tasks of the files
    [files], against the tasks of those files as they are now. *)
Lemma refresh_one_of_files (a : Uri) (h h' : Host) (files : list Uri) :
  same_but_content a h h' ->
  List.NoDup (map fsPath files) ->
  In a files ->
  Permutation (other_files a (flat_map (file_tasks h) files) ++ file_tasks h' a)
              (flat_map (file_tasks h') files).
Proof.
  intros Hs Hnd Hin. apply in_split in Hin as (l1 & l2 & ->).
  rewrite map_app in Hnd. simpl in Hnd.
  assert (H1 : Forall (fun u => fsPath u <> fsPath a) l1).
  { apply List.Forall_forall. intros u Hu E.
    apply List.NoDup_remove_2 in Hnd. apply Hnd, in_or_app. left.
    rewrite <- E. apply in_map, Hu. }
  assert (H2 : Forall (fun u => fsPath u <> fsPath a) l2).
  { apply List.Forall_forall. intros u Hu E.
    apply List.NoDup_remove_2 in Hnd. apply Hnd, in_or_app. right.
    rewrite <- E. apply in_map, Hu. }
  rewrite !flat_map_app. simpl flat_map. rewrite !other_files_app.
  rewrite (other_files_flat_map a h h' l1 Hs H1), (other_files_flat_map a h h' l2 Hs H2).
  rewrite (other_files_of_file a (file_tasks h a)) by apply file_tasks_uri.
  simpl app. rewrite <- app_assoc. apply Permutation_app_head, Permutation_app_comm.
Qed.

(** X23: after a discovery, when the text of one of the files found changes
    and nothing else does, invalidating the cache for that file leaves the
    tasks a fresh discovery pass would return, up to their order and the
    identity of the objects. *)
Theorem invalidate_agrees_with_rediscovery (h h' : Host) (a : Uri)
    (s0 s1 s2 s s' : Provider) (found rediscovered : list Task) :
  cachedTasks s0 = None ->
  provideTasks h s0 = (Resolved found, s1) ->
  same_but_content a h h' ->
  candidate h a ->
  (forall u, candidate h u -> fsPath u = fsPath a -> u = a) ->
  pathExists h' (fsPath a) = true ->
  invalidateTasksCacheYarn h' (Some a) s1 = (Resolved tt, s2) ->
  detectYarnfiles h' s = (Resolved rediscovered, s') ->
  Permutation (map without_identity (cached s2)) (map without_identity rediscovered).
Proof.
  intros Hc0 Hp Hs Hcand Hinj Hex Hinv Hre.
  assert (Hc1 : cachedTasks s1 = Some found) by (apply (provideYarnfiles_resolved h s0), Hp).
  assert (Hd : exists s1', detectYarnfiles h s0 = (Resolved found, s1')).
  { unfold provideTasks, provideYarnfiles in Hp. unfold mbind at 1 in Hp.
    unfold Async_bind at 1, get_cachedTasks in Hp. rewrite Hc0 in Hp.
    unfold mbind, Async_bind in Hp.
    destruct (detectYarnfiles h s0) as [[tasks|] s1'] eqn:E; [|discriminate Hp].
    unfold set_cachedTasks, mret, Async_ret in Hp. injection Hp as -> _.
    exists s1'. reflexivity. }
  destruct Hd as [s1' Hd].
  destruct (detectYarnfiles_read h s0 s1' found Hd) as [Hfound Hall].
  destruct (detectYarnfiles_read h' s s' rediscovered Hre) as [Hredis _].
  assert (Hfiles : files_read h' = files_read h).
  { destruct Hs as (Hw & Hf & He & _). unfold files_read. rewrite Hw.
    destruct (workspaceFolders h); [|reflexivity].
    rewrite (folders_read_same h h' _ _ Hf He). reflexivity. }
  rewrite Hfiles in Hredis.
  destruct (invalidate_file_resolved h' a found s1 s2 Hc1 Hinv) as [Hc2 _].
  rewrite Hex in Hc2. rewrite (cached_of_collapse _ _ Hc2).
  rewrite map_app, other_files_without_identity, Hfound, Hredis.
  rewrite (fresh_tasks_without_identity h' a (next_task_id s1) 0).
  fold (file_tasks h' a).
  destruct Hcand as (folders & folder & paths & Hw & Hfo & Hff & Hpa & Hne).
  unfold files_read. rewrite Hw in Hall |- *.
  destruct (folders_read_spec h folders ∅ Hall) as (S1 & S2 & S3 & S4).
  apply refresh_one_of_files; [exact Hs|exact S1|].
  pose proof (S4 folder paths a Hfo Hff Hpa Hne) as Hv.
  apply S3 in Hv as [Hv|Hv]; [apply elem_of_empty in Hv; contradiction|].
  apply in_map_iff in Hv as (u & Hu & Hin).
  destruct (S2 u Hin) as ((folder' & paths' & A1 & A2 & A3) & B & _).
  assert (u = a) as <-; [|exact Hin].
  apply Hinj; [|exact Hu]. exists folders, folder', paths'. auto.
Qed.

Lemma invalidate_agrees_with_rediscovery_witness :
  Permutation
    (map without_identity
       (cached (snd (invalidateTasksCacheYarn edited_host (Some file_a) populated))))
    (map without_identity
       (materialise ["lint"] repo_folder file_a 0
        ++ materialise ["test"] repo_folder file_b 1)).
Proof.
  refine (invalidate_agrees_with_rediscovery two_files_host edited_host file_a
            fresh_provider populated _ fresh_provider
            (snd (detectYarnfiles edited_host fresh_provider)) populated_tasks _
            _ _ _ _ _ _ _ _).
  - reflexivity.
  - vm_compute. reflexivity.
  - repeat split. intros f Hf. cbn [readFile edited_host two_files_host].
    destruct (String.eqb_spec f (fsPath file_a)) as [E|_]; [contradiction|reflexivity].
  - exists [repo_folder], repo_folder, [file_a; file_b].
    split; [reflexivity|]. split; [left; reflexivity|]. split; [reflexivity|].
    split; [left; reflexivity|reflexivity].
  - intros u (folders & folder & paths & Hw & _ & Hf & Hu & _) E.
    injection Hf as <-. destruct Hu as [<-|[<-|[]]]; [reflexivity|discriminate E].
  - reflexivity.
  - vm_compute. reflexivity.
  - vm_compute. reflexivity.
Defined.

(** ** A rejected invalidation *)

Lemma other_files_same_path (a : Uri) (arr : list Task) :
  Forall (fun t => fsPath (uri (definition t)) = fsPath a) arr -> other_files a arr = [].
Proof.
  unfold other_files. induction arr as [|t arr IH]; intros H; [reflexivity|].
  apply Forall_cons in H as [Ht H]. simpl.
  rewrite bool_decide_eq_true_2 by exact Ht. simpl. apply IH, H.
Qed.

(** X24: when every cached task comes from the file given and the file
    exists but cannot be read, [invalidateTasksCacheYarn] is rejected and
    leaves [cachedTasks] an empty array, not [undefined]: the next
    [provideTasks], on whatever host, resolves with no task and starts no
    discovery. *)
Theorem rejected_invalidation_leaves_empty_array (h h' : Host) (a : Uri)
    (arr : list Task) (s : Provider) :
  cachedTasks s = Some arr ->
  Forall (fun t => fsPath (uri (definition t)) = fsPath a) arr ->
  pathExists h (fsPath a) = true ->
  getWorkspaceFolder h a <> None ->
  readFile h (fsPath a) = None ->
  exists s',
    invalidateTasksCacheYarn h (Some a) s = (Rejected, s')
    /\ cachedTasks s' = Some []
    /\ provideTasks h' s' = (Resolved [], s').
Proof.
  intros Hc Hall Hex Hg Hr.
  rewrite (invalidate_file_eq h a arr s Hc). cbv zeta. rewrite Hex, Hr.
  destruct (getWorkspaceFolder h a) as [folder|]; [|contradiction].
  rewrite (other_files_same_path a arr Hall).
  eexists. split; [reflexivity|]. split; [reflexivity|].
  apply provideYarnfiles_cached. reflexivity.
Qed.

Lemma rejected_invalidation_leaves_empty_array_witness :
  exists s',
    invalidateTasksCacheYarn unreadable_host (Some repo_package_json)
      (snd (provideYarnfiles build_and_clean_host fresh_provider)) = (Rejected, s')
    /\ cachedTasks s' = Some []
    /\ provideTasks two_files_host s' = (Resolved [], s').
Proof.
  refine (rejected_invalidation_leaves_empty_array unreadable_host two_files_host
            repo_package_json
            (materialise ["build"; "clean"] repo_folder repo_package_json 0) _ _ _ _ _ _).
  - vm_compute. reflexivity.
  - repeat constructor.
  - reflexivity.
  - discriminate.
  - reflexivity.
Defined.

(** ** [buildTaskTree] of the task view *)

Lemma Map_get_set {A : Type} (m : list (string * A)) (k k' : string) (v : A) :
  Map_get (Map_set m k v) k' = if String.eqb k' k then Some v else Map_get m k'.
Proof.
  induction m as [|[k0 v0] rest IH]; simpl.
  - reflexivity.
  - destruct (String.eqb_spec k k0) as [->|Hne]; simpl.
    + destruct (String.eqb k' k0); reflexivity.
    + rewrite IH. destruct (String.eqb_spec k' k0) as [->|Hne'].
      * destruct (String.eqb_spec k0 k) as [E|_]; [congruence|reflexivity].
      * reflexivity.
Qed.


Lemma buildTaskTree_each_eq (view : TaskViewHost) (t : TaskTree) (each : Task) :
  buildTaskTree_each view t each =
  if isWorkspaceFolder view (scope each) && negb (isInstallTask view each) then
    let folders :=
      match Map_get (tree_folders t) (folder_name (scope each)) with
      | Some _ => tree_folders t
      | None =>
          Map_set (tree_folders t) (folder_name (scope each))
            {| folder_workspaceFolder := scope each; folder_packages := [] |}
      end in
    match file_node_of view each with
    | Some (c, relativePath, fullPath) => add_under t each c relativePath fullPath folders
    | None =>
        {| tree_folders := folders; tree_packages := tree_packages t;
           tree_vsctasks := tree_vsctasks t |}
    end
  else t.
Proof.
  unfold buildTaskTree_each, file_node_of, add_under.
  destruct (isWorkspaceFolder view (scope each) && negb (isInstallTask view each));
    [|reflexivity].
  cbv zeta.
  destruct (String.eqb (source each) "npm" && enableNpmScripts view).
  - cbn [tree_nodes].
    destruct (Map_get (tree_packages t) _); reflexivity.
  - destruct (String.eqb (source each) "Workspace"
              && String.eqb (type (definition each)) "shell"); [|reflexivity].
    cbn [tree_nodes].
    destruct (Map_get (tree_vsctasks t) _); reflexivity.
Qed.

Lemma build_snoc (view : TaskViewHost) (tasks : list Task) (each : Task) :
  buildTaskTree view (tasks ++ [each]) = buildTaskTree_each view (buildTaskTree view tasks) each.
Proof. unfold buildTaskTree. rewrite fold_left_app. reflexivity. Qed.

Lemma tree_nodes_add_under (t : TaskTree) (each : Task) (c c' : FileNodeClass)
    (relativePath fullPath : string) (folders : list (string * Folder)) :
  tree_nodes c (add_under t each c' relativePath fullPath folders)
  = if bool_decide (c' = c)
    then Map_set (tree_nodes c t) fullPath
           (addScript
              match Map_get (tree_nodes c' t) fullPath with
              | Some packageJson => packageJson
              | None =>
                  {| node_path := relativePath; node_folder := folder_name (scope each);
                     node_scripts := [] |}
              end each)
    else tree_nodes c t.
Proof. destruct c, c'; reflexivity. Qed.

Lemma tree_nodes_folders (c : FileNodeClass) (t : TaskTree)
    (folders : list (string * Folder)) :
  tree_nodes c {| tree_folders := folders; tree_packages := tree_packages t;
                  tree_vsctasks := tree_vsctasks t |}
  = tree_nodes c t.
Proof. destruct c; reflexivity. Qed.

Lemma tree_nodes_scripts (view : TaskViewHost) (tasks : list Task) (c : FileNodeClass)
    (k : string) :
  match Map_get (tree_nodes c (buildTaskTree view tasks)) k with
  | Some node => node_scripts node = tasks_under view c k tasks
  | None => tasks_under view c k tasks = []
  end.
Proof.
  revert c k. induction tasks as [|each tasks IH] using rev_ind; intros c k.
  - destruct c; reflexivity.
  - rewrite build_snoc, buildTaskTree_each_eq.
    unfold tasks_under. rewrite List.filter_app. simpl List.filter.
    fold (tasks_under view c k tasks).
    destruct (isWorkspaceFolder view (scope each) && negb (isInstallTask view each)).
    2:{ simpl. rewrite app_nil_r. apply IH. }
    cbv zeta. destruct (file_node_of view each) as [[[c' relativePath] fullPath]|].
    2:{ simpl. rewrite app_nil_r, tree_nodes_folders.
        apply IH. }
    rewrite tree_nodes_add_under. cbn [andb].
    destruct (bool_decide (c' = c)) eqn:Ec; cbn [andb].
    2:{ rewrite app_nil_r. apply IH. }
    apply bool_decide_eq_true_1 in Ec. subst c'.
    rewrite Map_get_set, (String.eqb_sym fullPath k).
    destruct (String.eqb_spec k fullPath) as [->|Hne].
    + specialize (IH c fullPath). cbn [addScript node_scripts].
      destruct (Map_get (tree_nodes c (buildTaskTree view tasks)) fullPath) as [node|].
      * rewrite IH. reflexivity.
      * rewrite IH. reflexivity.
    + rewrite app_nil_r. apply IH.
Qed.

Lemma tree_folders_add_under (t : TaskTree) (each : Task) (c : FileNodeClass)
    (relativePath fullPath : string) (folders : list (string * Folder)) :
  tree_folders (add_under t each c relativePath fullPath folders)
  = match Map_get (tree_nodes c t) fullPath with
    | Some _ => folders
    | None => addPackage folders (folder_name (scope each)) (c, fullPath)
    end.
Proof. destruct c; reflexivity. Qed.

Lemma well_formed_ensure (t : TaskTree) (key : string) (ws : WorkspaceFolder) :
  well_formed_tree t ->
  well_formed_tree
    {| tree_folders :=
         match Map_get (tree_folders t) key with
         | Some _ => tree_folders t
         | None =>
             Map_set (tree_folders t) key
               {| folder_workspaceFolder := ws; folder_packages := [] |}
         end;
       tree_packages := tree_packages t;
       tree_vsctasks := tree_vsctasks t |}.
Proof.
  intros (I1 & I2 & I3).
  assert (Hn : forall c f, tree_nodes c {| tree_folders := f;
                                           tree_packages := tree_packages t;
                                           tree_vsctasks := tree_vsctasks t |}
                           = tree_nodes c t) by (intros [] f; reflexivity).
  destruct (Map_get (tree_folders t) key) as [f0|] eqn:E.
  { unfold well_formed_tree. cbn [tree_folders]. setoid_rewrite Hn. auto. }
  unfold well_formed_tree. cbn [tree_folders]. setoid_rewrite Hn.
  split; [|split].
  - intros c k node H. destruct (I1 c k node H) as (folder & Hf & Hin).
    exists folder. split; [|exact Hin]. rewrite Map_get_set.
    destruct (String.eqb_spec (node_folder node) key) as [Ek|_]; [congruence|exact Hf].
  - intros key' folder c k Hf Hin. rewrite Map_get_set in Hf.
    destruct (String.eqb_spec key' key) as [->|_].
    + injection Hf as <-. destruct Hin.
    + apply (I2 key' folder c k Hf Hin).
  - intros key' folder Hf. rewrite Map_get_set in Hf.
    destruct (String.eqb_spec key' key) as [->|_].
    + injection Hf as <-. constructor.
    + apply (I3 key' folder Hf).
Qed.

Lemma Map_get_addPackage (folders : list (string * Folder)) (key key' : string)
    (node : FileNodeClass * string) (folder : Folder) :
  Map_get folders key = Some folder ->
  Map_get (addPackage folders key node) key'
  = if String.eqb key' key
    then Some {| folder_workspaceFolder := folder_workspaceFolder folder;
                 folder_packages := folder_packages folder ++ [node] |}
    else Map_get folders key'.
Proof. intros H. unfold addPackage. rewrite H. apply Map_get_set. Qed.

Lemma well_formed_add_under (t : TaskTree) (each : Task) (c : FileNodeClass)
    (relativePath fullPath : string) :
  well_formed_tree t ->
  Map_get (tree_folders t) (folder_name (scope each)) <> None ->
  well_formed_tree (add_under t each c relativePath fullPath (tree_folders t)).
Proof.
  intros (I1 & I2 & I3) Hkey.
  set (key := folder_name (scope each)) in *.
  destruct (Map_get (tree_folders t) key) as [f1|] eqn:Ef; [clear Hkey|contradiction].
  unfold well_formed_tree.
  setoid_rewrite tree_nodes_add_under. rewrite tree_folders_add_under. fold key.
  destruct (Map_get (tree_nodes c t) fullPath) as [node0|] eqn:Efound.
  - (* the file node exists *)
    split; [|split; [|exact I3]].
    + intros c2 k2 node H.
      destruct (bool_decide (c = c2)) eqn:Ec; [|apply (I1 c2 k2 node H)].
      apply bool_decide_eq_true_1 in Ec. subst c2. rewrite Map_get_set in H.
      destruct (String.eqb_spec k2 fullPath) as [->|_]; [|apply (I1 c k2 node H)].
      injection H as <-. apply (I1 c fullPath node0 Efound).
    + intros key' folder c2 k2 Hf Hin.
      destruct (I2 key' folder c2 k2 Hf Hin) as (node & Hn & Hk).
      destruct (bool_decide (c = c2)) eqn:Ec; [|exists node; auto].
      apply bool_decide_eq_true_1 in Ec. subst c2. rewrite Map_get_set.
      destruct (String.eqb_spec k2 fullPath) as [->|_]; [|exists node; auto].
      exists (addScript node0 each). split; [reflexivity|].
      rewrite Efound in Hn. injection Hn as ->. exact Hk.
  - (* the file node is created *)
    assert (Hnew : forall key' folder,
               Map_get (tree_folders t) key' = Some folder ->
               ~ In (c, fullPath) (folder_packages folder)).
    { intros key' folder Hf Hin. destruct (I2 key' folder c fullPath Hf Hin) as (n & Hn & _).
      congruence. }
    split; [|split].
    + intros c2 k2 node H. rewrite (Map_get_addPackage _ _ _ _ f1 Ef).
      assert (Hold : forall node',
                 Map_get (tree_nodes c2 t) k2 = Some node' ->
                 exists folder,
                   (if String.eqb (node_folder node') key
                    then Some {| folder_workspaceFolder := folder_workspaceFolder f1;
                                 folder_packages := folder_packages f1 ++ [(c, fullPath)] |}
                    else Map_get (tree_folders t) (node_folder node')) = Some folder
                   /\ In (c2, k2) (folder_packages folder)).
      { intros node' H'. destruct (I1 c2 k2 node' H') as (folder & Hf & Hin).
        destruct (String.eqb_spec (node_folder node') key) as [Ek|_].
        - rewrite Ek, Ef in Hf. injection Hf as <-.
          eexists. split; [reflexivity|]. cbn [folder_packages]. apply in_or_app. left.
          exact Hin.
        - exists folder. auto. }
      destruct (bool_decide (c = c2)) eqn:Ec; [|apply Hold, H].
      apply bool_decide_eq_true_1 in Ec. subst c2. rewrite Map_get_set in H.
      destruct (String.eqb_spec k2 fullPath) as [->|_]; [|apply Hold, H].
      injection H as <-. cbn [addScript node_folder]. rewrite String.eqb_refl.
      eexists. split; [reflexivity|]. cbn [folder_packages]. apply in_or_app. right.
      left. reflexivity.
    + intros key' folder c2 k2 Hf Hin. rewrite (Map_get_addPackage _ _ _ _ f1 Ef) in Hf.
      assert (Hold : forall folder0,
                 Map_get (tree_folders t) key' = Some folder0 ->
                 In (c2, k2) (folder_packages folder0) ->
                 exists node,
                   Map_get
                     (if bool_decide (c = c2)
                      then Map_set (tree_nodes c2 t) fullPath
                             (addScript
                                {| node_path := relativePath; node_folder := key;
                                   node_scripts := [] |} each)
                      else tree_nodes c2 t) k2 = Some node
                   /\ node_folder node = key').
      { intros folder0 Hf0 Hin0.
        destruct (I2 key' folder0 c2 k2 Hf0 Hin0) as (node & Hn & Hk).
        exists node. split; [|exact Hk].
        destruct (bool_decide (c = c2)) eqn:Ec; [|exact Hn].
        apply bool_decide_eq_true_1 in Ec. subst c2. rewrite Map_get_set.
        destruct (String.eqb_spec k2 fullPath) as [->|_]; [|exact Hn].
        exfalso. apply (Hnew key' folder0 Hf0 Hin0). }
      destruct (String.eqb_spec key' key) as [->|_]; [|apply (Hold folder Hf Hin)].
      injection Hf as <-. cbn [folder_packages] in Hin.
      apply in_app_or in Hin as [Hin|[Hin|[]]]; [apply (Hold f1 Ef Hin)|].
      injection Hin as <- <-. rewrite bool_decide_eq_true_2 by reflexivity.
      rewrite Map_get_set, String.eqb_refl. eexists. split; reflexivity.
    + intros key' folder Hf. rewrite (Map_get_addPackage _ _ _ _ f1 Ef) in Hf.
      destruct (String.eqb_spec key' key) as [->|_]; [|apply (I3 key' folder Hf)].
      injection Hf as <-. cbn [folder_packages].
      apply List.NoDup_app; [apply (I3 key f1 Ef)|repeat constructor; intros []|].
      intros x Hx [<-|[]]. apply (Hnew key f1 Ef Hx).
Qed.

Lemma well_formed_step (view : TaskViewHost) (t : TaskTree) (each : Task) :
  well_formed_tree t -> well_formed_tree (buildTaskTree_each view t each).
Proof.
  intros Hwf. rewrite buildTaskTree_each_eq.
  destruct (isWorkspaceFolder view (scope each) && negb (isInstallTask view each));
    [|exact Hwf].
  cbv zeta.
  pose proof (well_formed_ensure t (folder_name (scope each)) (scope each) Hwf) as H1.
  destruct (file_node_of view each) as [[[c relativePath] fullPath]|]; [|exact H1].
  set (t1 := {| tree_folders := _; tree_packages := _; tree_vsctasks := _ |}) in H1.
  assert (Heq : forall folders,
             add_under t each c relativePath fullPath folders
             = add_under t1 each c relativePath fullPath folders)
    by (intros; destruct c; reflexivity).
  rewrite Heq. apply (well_formed_add_under t1 each c relativePath fullPath H1).
  unfold t1. cbn [tree_folders].
  destruct (Map_get (tree_folders t) (folder_name (scope each))) eqn:E.
  - rewrite E. discriminate.
  - rewrite Map_get_set, String.eqb_refl. discriminate.
Qed.

(** Tasks from other sources than "npm" and "Workspace" get no file node. *)
Lemma build_other_sources (view : TaskViewHost) (tasks : list Task) :
  Forall (fun t => source t <> "npm" /\ source t <> "Workspace") tasks ->
  tree_packages (buildTaskTree view tasks) = [] /\ tree_vsctasks (buildTaskTree view tasks) = []
  /\ Forall (fun e => folder_packages (snd e) = []) (tree_folders (buildTaskTree view tasks)).
Proof.
  induction tasks as [|each tasks IH] using rev_ind; intros H.
  - repeat split. constructor.
  - apply Forall_app in H as [H Hx]. apply Forall_cons in Hx as [[H1 H2] _].
    destruct (IH H) as (P & V & F). rewrite build_snoc, buildTaskTree_each_eq.
    destruct (isWorkspaceFolder view (scope each) && negb (isInstallTask view each));
      [|auto].
    cbv zeta. unfold file_node_of.
    apply String.eqb_neq in H1, H2. rewrite H1, H2. cbn [andb tree_packages tree_vsctasks
                                                          tree_folders].
    split; [exact P|]. split; [exact V|].
    destruct (Map_get (tree_folders (buildTaskTree view tasks)) (folder_name (scope each)));
      [exact F|].
    clear - F. induction (tree_folders (buildTaskTree view tasks)) as [|[k0 v0] rest IHr]; simpl.
    + repeat constructor.
    + apply Forall_cons in F as [F0 F]. destruct (String.eqb _ k0).
      * constructor; [reflexivity|exact F].
      * constructor; [exact F0|apply IHr, F].
Qed.

(** X25: in the tree [buildTaskTree] builds, the scripts of the file node of
    a class under a key are the tasks shown that go with that class and key,
    in the order of the tasks given, each once; and there is a file node for
    every key that has such a task. *)
Theorem buildTaskTree_scripts_under_their_file (view : TaskViewHost) (tasks : list Task)
    (c : FileNodeClass) (k : string) :
  match Map_get (tree_nodes c (buildTaskTree view tasks)) k with
  | Some node => node_scripts node = tasks_under view c k tasks /\ tasks_under view c k tasks <> []
  | None => tasks_under view c k tasks = []
  end.
Proof.
  pose proof (tree_nodes_scripts view tasks c k) as H.
  destruct (Map_get (tree_nodes c (buildTaskTree view tasks)) k) as [node|] eqn:E; [|exact H].
  split; [exact H|]. rewrite <- H. clear H.
  revert c k node E. induction tasks as [|each tasks IH] using rev_ind; intros c k node.
  - destruct c; discriminate.
  - rewrite build_snoc, buildTaskTree_each_eq.
    destruct (isWorkspaceFolder view (scope each) && negb (isInstallTask view each));
      [|apply IH].
    cbv zeta. destruct (file_node_of view each) as [[[c' relativePath] fullPath]|].
    2:{ rewrite tree_nodes_folders.
        apply IH. }
    rewrite tree_nodes_add_under.
    destruct (bool_decide (c' = c)) eqn:Ec; [|apply IH].
    apply bool_decide_eq_true_1 in Ec. subst c'.
    rewrite Map_get_set. destruct (String.eqb k fullPath); [|apply IH].
    intros E. injection E as <-. cbn [addScript node_scripts].
    intros H. apply app_eq_nil in H as [_ H]. discriminate H.
Qed.

(** X26: the tree [buildTaskTree] builds is well formed: every file node is
    among the packages of the folder node it has as parent, no other folder
    node has it among its packages, and no folder node has it twice. *)
Theorem buildTaskTree_well_formed (view : TaskViewHost) (tasks : list Task) :
  well_formed_tree (buildTaskTree view tasks).
Proof.
  induction tasks as [|each tasks IH] using rev_ind.
  - split; [|split].
    + intros [] k node H; discriminate H.
    + intros key folder c k H. discriminate H.
    + intros key folder H. discriminate H.
  - rewrite build_snoc. apply well_formed_step, IH.
Qed.

(** X27: the tasks the yarn provider holds, whatever calls were made on it,
    get no file node in the tree [buildTaskTree] builds: the tree has folder
    nodes without children at most, and shows no script. *)
Theorem buildTaskTree_shows_no_yarn_task (view : TaskViewHost) (calls : list Call) :
  let tree := buildTaskTree view (cached (after_calls calls fresh_provider)) in
  tree_packages tree = [] /\ tree_vsctasks tree = []
  /\ Forall (fun e => folder_packages (snd e) = []) (tree_folders tree).
Proof.
  apply build_other_sources. apply after_calls_Forall; [|constructor].
  intros keys folder u id. eapply Forall_impl; [apply materialise_yarn_task|].
  intros t (_ & _ & Hs & _). rewrite Hs. split; discriminate.
Qed.

(** ** A tasks-style file *)

(** X28: for a file whose "tasks" array holds one or more entries with a
    string label and nothing else, [readYarnfile] resolves with one task
    only, named "undefined" whatever the labels are, that runs
    [npx yarn undefined]. *)
Theorem readYarnfile_tasks_style_one_task (h : Host) (u : Uri) (folder : WorkspaceFolder)
    (at_ : Z * Z) (entries : list (string * (Z * Z) * (Z * Z)))
    (e : string * (Z * Z) * (Z * Z)) (s : Provider) :
  getWorkspaceFolder h u = Some folder ->
  readFile h (fsPath u) = Some (json_events (tasks_document at_ (entries ++ [e]))) ->
  exists t s',
    readYarnfile h u s = (Resolved [t], s')
    /\ name t = "undefined"
    /\ commandLine (execution t) = ["npx"; "yarn"; "undefined"].
Proof.
  intros Hg Hr. rewrite readYarnfile_eq, Hg, Hr, labels_overwrite_one_key.
  eexists. eexists. split; [reflexivity|]. split; reflexivity.
Qed.

Lemma readYarnfile_tasks_style_one_task_witness :
  exists t s',
    readYarnfile (host_with_text (json_events (two_labelled_tasks "build" "test")))
                 repo_package_json fresh_provider = (Resolved [t], s')
    /\ name t = "undefined"
    /\ commandLine (execution t) = ["npx"; "yarn"; "undefined"].
Proof.
  refine (readYarnfile_tasks_style_one_task _ repo_package_json repo_folder (1, 7)%Z
            [("build", (12, 7), (21, 7))%Z] ("test", (32, 7), (41, 6))%Z fresh_provider
            _ _).
  - reflexivity.
  - reflexivity.
Defined.
